(** * btcflow: fee-bucket estimation, RPC gateway and summary cache

    A shallow embedding of the Python sources [constants.py], [flow.py],
    [bitcoind.py], [txdb.py] and [main_compute.py], followed by the
    properties proved about them.

    Conventions of the embedding.
    - Python [int] is [Z]; loop counters that start at 0 and are only
      incremented are [nat].
    - Python [float] is idealised as an exact rational ([Q]); numeric
      equality [==] of Python is [Qeq].
    - [scipy.stats.poisson(mu).cdf(k)] is the real-valued Poisson
      distribution function, written with [exp] over [R].
    - A Python [dict] is an association list in insertion order with
      pairwise distinct keys ([dict_wf]).
    - A raised exception is the [Raise] case of [result]; a [while True]
      loop takes a fuel argument and yields [None] when it runs out. *)

From Stdlib Require Import ZArith QArith Qround Qreals Reals Lqa Lra Lia.
From Stdlib Require Import List Sorted Bool String.
From Stdlib Require Import Permutation Orders Mergesort.
Import ListNotations.

Set Implicit Arguments.
Set Warnings "-abstract-large-number".

Close Scope R_scope.
Close Scope Q_scope.
Open Scope string_scope.
Open Scope list_scope.
Open Scope Z_scope.

(* ====================================================================== *)
(** * Part I: definitions *)
(* ====================================================================== *)

(** ** Exceptions and results *)

Inductive exn : Type :=
| KeyError
| ValueError
| IndexError
| TypeError
| JSONDecodeError
| ClientError
| DuplicateKeyError
| BitcoindHttpException (code : Z) (message : string).

Inductive result (A : Type) : Type :=
| Return (a : A)
| Raise (e : exn).

Arguments Return {A} a.
Arguments Raise {A} e.

Definition bind {A B : Type} (m : result A) (k : A -> result B) : result B :=
  match m with
  | Return a => k a
  | Raise e => Raise e
  end.

Declare Scope py_scope.
Delimit Scope py_scope with py.
Notation "x <- m ;; k" := (bind m (fun x => k))
  (at level 61, m at next level, right associativity) : py_scope.

(** [ZeroDivisionError], which the arithmetic of flow.py raises beside the
    exceptions of [exn]. *)
Inductive raised : Type :=
| Exn (e : exn)
| ZeroDivisionError.

Inductive outcome (A : Type) : Type :=
| Value (a : A)
| Failed (e : raised).

Arguments Value {A} a.
Arguments Failed {A} e.

(** ** Python dictionaries *)

Section PyDict.
Variables K V : Type.
Variable K_eq_dec : forall a b : K, {a = b} + {a <> b}.

Definition dict : Type := list (K * V).

Definition dict_keys (d : dict) : list K := map fst d.

Definition dict_wf (d : dict) : Prop := NoDup (dict_keys d).

(** [d.get(k)] *)
Fixpoint dict_get (d : dict) (k : K) : option V :=
  match d with
  | [] => None
  | (k', v) :: d' => if K_eq_dec k k' then Some v else dict_get d' k
  end.

(** [k in d] *)
Definition dict_mem (d : dict) (k : K) : bool :=
  match dict_get d k with Some _ => true | None => false end.

(** [d[k]] *)
Definition dict_lookup (d : dict) (k : K) : result V :=
  match dict_get d k with Some v => Return v | None => Raise KeyError end.

(** [d[k] = v]: an existing key keeps its position, a new one goes last. *)
Fixpoint dict_set (d : dict) (k : K) (v : V) : dict :=
  match d with
  | [] => [(k, v)]
  | (k', v') :: d' =>
      if K_eq_dec k k' then (k', v) :: d' else (k', v') :: dict_set d' k v
  end.

(** [del d[k]] *)
Fixpoint dict_del (d : dict) (k : K) : result dict :=
  match d with
  | [] => Raise KeyError
  | (k', v') :: d' =>
      if K_eq_dec k k' then Return d'
      else match dict_del d' k with
           | Return d'' => Return ((k', v') :: d'')
           | Raise e => Raise e
           end
  end.
End PyDict.

Arguments dict_get {K V} K_eq_dec d k.
Arguments dict_mem {K V} K_eq_dec d k.
Arguments dict_lookup {K V} K_eq_dec d k.
Arguments dict_set {K V} K_eq_dec d k v.
Arguments dict_del {K V} K_eq_dec d k.
Arguments dict_keys {K V} d.
Arguments dict_wf {K V} d.

(** ** constants.py *)

Module constants.
Definition BLOCK_CAPACITY_WU : Z := 4 * 1000 * 1000.
Definition TARGET_BLOCK_TIME_MINUTES : Z := 10.
Definition COIN : Z := 100 * 1000 * 1000.
Definition FLOW_TIMESPAN_MULTIPLIER : Z := 2.
Definition MIN_FEE_RATE : Z := 1.
Definition MAX_FEE_RATE : Z := 10000.
Definition TARGETS_CONFIDENCE : list Q := [1 # 2; 4 # 5; 9 # 10]%Q.
Definition TARGETS_MINUTE : list Z :=
  [30; 60; 60 * 2; 60 * 3; 60 * 6; 60 * 12; 60 * 24].
End constants.

(** [list.sort()] and [list.sort(reverse=True)] on integers. *)
Module AscendingOrder <: TotalLeBool.
Definition t := Z.
Definition leb := Z.leb.
Definition leb_total (x y : Z) : (x <=? y) = true \/ (y <=? x) = true :=
  match Z.leb_spec x y with
  | BoolSpecT _ _ => or_introl eq_refl
  | BoolSpecF _ H => or_intror (proj2 (Z.leb_le y x) (Z.lt_le_incl _ _ H))
  end.
End AscendingOrder.

Module DescendingOrder <: TotalLeBool.
Definition t := Z.
Definition leb := Z.geb.
Definition leb_total (x y : Z) : (x >=? y) = true \/ (y >=? x) = true :=
  match AscendingOrder.leb_total y x with
  | or_introl H => or_introl (eq_trans (Z.geb_leb x y) H)
  | or_intror H => or_intror (eq_trans (Z.geb_leb y x) H)
  end.
End DescendingOrder.

Module Ascending := Sort AscendingOrder.
Module Descending := Sort DescendingOrder.

(** ** flow.py: class FeeBuckets *)

Module FeeBuckets.

(** [self._buckets]: fee rate => WU. *)
Definition t : Type := dict Z Q.

Definition __init__ : t := [].

Definition _normalize (fee_rate : Z) : Z :=
  let fee_rate := Z.min fee_rate constants.MAX_FEE_RATE in
  let fee_rate := Z.max fee_rate constants.MIN_FEE_RATE in
  fee_rate.

Definition sum (self : t) : Q :=
  fold_left (fun value kv => value + snd kv)%Q self 0%Q.

(** [for k in self._buckets: if k >= threshold: value += self._buckets[k]];
    the loop visits each key with the value stored under it. *)
Definition get_aggregate_sup (self : t) (threshold : Z) : Q :=
  fold_left
    (fun value kv => if fst kv >=? threshold then (value + snd kv)%Q else value)
    self 0%Q.

Definition max_fee_rate (self : t) : Z :=
  match dict_keys self with
  | [] => 0
  | k :: keys => fold_left Z.max keys k
  end.

Definition __contains__ (self : t) (fee_rate : Z) : bool :=
  let fee_rate := _normalize fee_rate in
  match dict_get Z.eq_dec self fee_rate with
  | Some v => negb (Qle_bool v 0%Q)
  | None => false
  end.

Definition __getitem__ (self : t) (fee_rate : Z) : Q :=
  let fee_rate := _normalize fee_rate in
  match dict_get Z.eq_dec self fee_rate with
  | Some v => v
  | None => 0%Q
  end.

Definition __setitem__ (self : t) (fee_rate : Z) (value : Q) : result t :=
  let fee_rate := _normalize fee_rate in
  if Qeq_bool value 0%Q then dict_del Z.eq_dec self fee_rate
  else Return (dict_set Z.eq_dec self fee_rate value).

(** [self[fee_rate] += w], that is
    [self.__setitem__(fee_rate, self.__getitem__(fee_rate) + w)]. *)
Definition __iadd__ (self : t) (fee_rate : Z) (w : Q) : result t :=
  __setitem__ self fee_rate (__getitem__ self fee_rate + w)%Q.

(** [for k in other._buckets: self[k] += other[k]] *)
Definition add (self other : t) : result t :=
  fold_left
    (fun acc kv =>
       match acc with
       | Return s => __iadd__ s (fst kv) (__getitem__ other (fst kv))
       | Raise e => Raise e
       end)
    other (Return self).

(** Every key lies in [[MIN_FEE_RATE, MAX_FEE_RATE]]: what [__setitem__]
    maintains. *)
Definition keys_normalized (self : t) : Prop :=
  Forall (fun k => constants.MIN_FEE_RATE <= k <= constants.MAX_FEE_RATE)
         (dict_keys self).

Definition values_positive (self : t) : Prop :=
  Forall (fun kv => (0 < snd kv)%Q) self.

(** [for k in self._buckets: self._buckets[k] /= factor]; the division
    raises at the first key when [factor] is zero. *)
Fixpoint divide (self : t) (factor : Q) : outcome t :=
  match self with
  | [] => Value []
  | (k, v) :: rest =>
      if Qeq_bool factor 0%Q then Failed ZeroDivisionError
      else match divide rest factor with
           | Value rest => Value ((k, (v / factor)%Q) :: rest)
           | Failed e => Failed e
           end
  end.

(** [o._buckets = self._buckets.copy()] *)
Definition clone (self : t) : t := self.

Definition descending_keys (self : t) : list Z :=
  Descending.sort (dict_keys self).

Definition ascending_keys (self : t) : list Z :=
  Ascending.sort (dict_keys self).

(** The invariant of the class: keys are distinct and normalised, and no
    stored value is zero. *)
Definition valid (self : t) : Prop :=
  dict_wf self /\ keys_normalized self /\ Forall (fun kv => ~ (snd kv == 0)%Q) self.

End FeeBuckets.

(** [int(4 * satoshis / weight)]: the quotient truncated toward zero. *)
Definition to_fee_rate (satoshis weight : Z) : outcome Z :=
  if weight =? 0 then Failed ZeroDivisionError
  else Value (Z.quot (4 * satoshis) weight).

(** ** flow.py: block arrival and bucket simulation *)

(** [POSITIVE_INFINITY] or an integer fee rate: what the estimate table
    holds. *)
Inductive estimate : Type :=
| Finite (fee_rate : Z)
| POSITIVE_INFINITY.

Definition estimate_ltb (a b : estimate) : bool :=
  match a, b with
  | Finite x, Finite y => x <? y
  | Finite _, POSITIVE_INFINITY => true
  | POSITIVE_INFINITY, _ => false
  end.

Definition estimate_leb (a b : estimate) : bool := negb (estimate_ltb b a).

(** Python's [min(a, b)]: [b] when [b < a], else [a]. *)
Definition py_min (a b : estimate) : estimate :=
  if estimate_ltb b a then b else a.

(** Python's [max] of a sequence: [ValueError] when it is empty. *)
Definition py_max (l : list Z) : result Z :=
  match l with
  | [] => Raise ValueError
  | x :: xs => Return (fold_left Z.max xs x)
  end.

(** [range(a, b)] *)
Definition range (a b : Z) : list Z :=
  map (fun i => a + Z.of_nat i) (seq 0 (Z.to_nat (b - a))).

(** [scipy.stats.poisson(mu).cdf(k)] for an integer [k >= 0]. *)
Definition poisson_cdf (mu : R) (k : nat) : R :=
  (exp (- mu) * sum_f_R0 (fun i => mu ^ i / INR (fact i)) k)%R.

Definition get_prob_of_min_blocks (minutes : Q) (blocks : nat) : R :=
  let expected := (Q2R minutes / IZR constants.TARGET_BLOCK_TIME_MINUTES)%R in
  (1 - poisson_cdf expected blocks)%R.

(** The [while True] loop of [get_min_expected_blocks], entered with the
    current value of [blocks]; [None] when the fuel runs out before the
    [break]. *)
Fixpoint get_min_expected_blocks_loop
         (fuel : nat) (minutes target_prob : Q) (blocks : nat) : option nat :=
  match fuel with
  | O => None
  | S fuel' =>
      let prob := get_prob_of_min_blocks minutes blocks in
      if Rlt_dec prob (Q2R target_prob) then Some blocks
      else get_min_expected_blocks_loop fuel' minutes target_prob (S blocks)
  end.

Definition get_min_expected_blocks
           (fuel : nat) (minutes target_prob : Q) : option nat :=
  get_min_expected_blocks_loop fuel minutes target_prob 0%nat.

Definition compute_bucket
           (fuel : nat)
           (minutes confidence start_weight weight_incr_rate_per_min : Q)
  : option bool :=
  let decr_weight_per_drain_event := inject_Z constants.BLOCK_CAPACITY_WU in
  let weight_gain_over_interval := (weight_incr_rate_per_min * minutes)%Q in
  match get_min_expected_blocks fuel minutes confidence with
  | None => None
  | Some min_expected_drain_events =>
      let weight_lost_over_interval :=
        (decr_weight_per_drain_event
         * inject_Z (Z.of_nat min_expected_drain_events))%Q in
      let weight_delta_over_interval :=
        (weight_gain_over_interval - weight_lost_over_interval)%Q in
      let end_weight := (start_weight + weight_delta_over_interval)%Q in
      Some (Qle_bool end_weight 0%Q)
  end.

(** ** flow.py: the estimate table *)

(** Leibniz equality on [Q] is decidable; the confidence levels used as
    dictionary keys are written in lowest terms, where it coincides with
    numeric equality. *)
Definition Q_eq_dec (a b : Q) : {a = b} + {a <> b}.
Proof. decide equality; [apply Pos.eq_dec | apply Z.eq_dec]. Defined.

Section Correction.
Variables W C : Type.
Variable W_eq_dec : forall a b : W, {a = b} + {a <> b}.
Variable C_eq_dec : forall a b : C, {a = b} + {a <> b}.

(** Nested dicts: delay -> confidence -> fee rate.  Each row is an object
    of its own, as [compute_estimates_by_minute] creates them. *)
Definition table : Type := dict W (dict C estimate).

(** [estimates[delay][confidence]] as a partial read. *)
Definition entry (estimates : table) (delay : W) (confidence : C)
  : option estimate :=
  match dict_get W_eq_dec estimates delay with
  | Some row => dict_get C_eq_dec row confidence
  | None => None
  end.

(** Body of [for delay in list_windows], on the pair
    [(min_value, estimates)]. *)
Definition correction_step
           (confidence : C) (st : result (estimate * table)) (delay : W)
  : result (estimate * table) :=
  (st <- st ;;
   let '(min_value, estimates) := st in
   row <- dict_lookup W_eq_dec estimates delay ;;
   value <- dict_lookup C_eq_dec row confidence ;;
   let min_value := py_min min_value value in
   Return (min_value,
           dict_set W_eq_dec estimates delay
                    (dict_set C_eq_dec row confidence min_value)))%py.

(** Body of [for confidence in list_confidence]. *)
Definition correction_for_confidence
           (list_windows : list W) (estimates : result table) (confidence : C)
  : result table :=
  (estimates <- estimates ;;
   st <- fold_left (correction_step confidence) list_windows
                   (Return (POSITIVE_INFINITY, estimates)) ;;
   Return (snd st))%py.

Definition correction_decreasing_fees
           (estimates : table) (list_windows : list W) (list_confidence : list C)
  : result table :=
  fold_left (correction_for_confidence list_windows) list_confidence
            (Return estimates).
End Correction.

Definition flows : Type := dict Z FeeBuckets.t.

(** [for fee_rate in range(1, max_fee_rate+2)] of
    [compute_estimates_by_minute], over the fee rates still to try.  The
    outer [option] is [None] when a block search runs out of fuel. *)
Fixpoint search_fee_rate
         (fuel : nat) (mempool : FeeBuckets.t) (flow : flows)
         (minutes : Z) (confidence : Q) (fee_rates : list Z)
         (min_fee_rate_that_works : estimate)
  : option (result estimate) :=
  match fee_rates with
  | [] => Some (Return min_fee_rate_that_works)
  | fee_rate :: rest =>
      match dict_lookup Z.eq_dec flow minutes with
      | Raise e => Some (Raise e)
      | Return flow_minutes =>
          match compute_bucket fuel (inject_Z minutes) confidence
                               (FeeBuckets.get_aggregate_sup mempool fee_rate)
                               (FeeBuckets.get_aggregate_sup flow_minutes fee_rate)
          with
          | None => None
          | Some true =>
              Some (Return (py_min min_fee_rate_that_works (Finite fee_rate)))
          | Some false =>
              search_fee_rate fuel mempool flow minutes confidence rest
                              min_fee_rate_that_works
          end
      end
  end.

(** [for confidence in constants.TARGETS_CONFIDENCE], filling the row
    [output[minutes]]. *)
Fixpoint estimates_for_window
         (fuel : nat) (mempool : FeeBuckets.t) (flow : flows)
         (max_fee_rate minutes : Z) (confidences : list Q) (row : dict Q estimate)
  : option (result (dict Q estimate)) :=
  match confidences with
  | [] => Some (Return row)
  | confidence :: rest =>
      match search_fee_rate fuel mempool flow minutes confidence
                            (range 1 (max_fee_rate + 2)) POSITIVE_INFINITY with
      | None => None
      | Some (Raise e) => Some (Raise e)
      | Some (Return min_fee_rate_that_works) =>
          estimates_for_window fuel mempool flow max_fee_rate minutes rest
            (dict_set Q_eq_dec row confidence min_fee_rate_that_works)
      end
  end.

(** [for minutes in targets_minute], filling [output].  The row
    [output[minutes]] starts empty at every visit of [minutes] and is
    stored once its confidence loop has run. *)
Fixpoint estimates_for_windows
         (fuel : nat) (mempool : FeeBuckets.t) (flow : flows)
         (max_fee_rate : Z) (targets_minute : list Z) (output : table Z Q)
  : option (result (table Z Q)) :=
  match targets_minute with
  | [] => Some (Return output)
  | minutes :: rest =>
      match estimates_for_window fuel mempool flow max_fee_rate minutes
                                 constants.TARGETS_CONFIDENCE [] with
      | None => None
      | Some (Raise e) => Some (Raise e)
      | Some (Return row) =>
          estimates_for_windows fuel mempool flow max_fee_rate rest
                                (dict_set Z.eq_dec output minutes row)
      end
  end.

(** The maximum non-zero fee rate across all flows and the mempool. *)
Definition overall_max_fee_rate (mempool : FeeBuckets.t) (flow : flows)
  : result Z :=
  (max_fee_rate_in_flow <-
     py_max (map (fun x => FeeBuckets.max_fee_rate (snd x)) flow) ;;
   Return (Z.max (FeeBuckets.max_fee_rate mempool) max_fee_rate_in_flow))%py.

(** The table as it stands when the three nested loops end, before
    [correction_decreasing_fees] is applied. *)
Definition estimates_before_correction
           (fuel : nat) (mempool : FeeBuckets.t) (flow : flows)
           (targets_minute : list Z)
  : option (result (table Z Q)) :=
  match overall_max_fee_rate mempool flow with
  | Raise e => Some (Raise e)
  | Return max_fee_rate =>
      estimates_for_windows fuel mempool flow max_fee_rate targets_minute []
  end.

Definition compute_estimates_by_minute
           (fuel : nat) (mempool : FeeBuckets.t) (flow : flows)
           (targets_minute : list Z)
  : option (result (table Z Q)) :=
  match estimates_before_correction fuel mempool flow targets_minute with
  | None => None
  | Some (Raise e) => Some (Raise e)
  | Some (Return output) =>
      Some (correction_decreasing_fees Z.eq_dec Q_eq_dec output targets_minute
                                       constants.TARGETS_CONFIDENCE)
  end.

(** ** State and exceptions of the asynchronous code

    A coroutine is a function of the state it runs in: it yields a value or
    a raised exception, and the state it leaves.  State changes made before
    an exception is raised persist. *)

Section IO.
Variable S : Type.

Definition io (A : Type) : Type := S -> result A * S.

Definition io_ret {A : Type} (a : A) : io A := fun s => (Return a, s).

Definition io_raise {A : Type} (e : exn) : io A := fun s => (Raise e, s).

Definition io_bind {A B : Type} (m : io A) (k : A -> io B) : io B :=
  fun s =>
    match m s with
    | (Return a, s') => k a s'
    | (Raise e, s') => (Raise e, s')
    end.

(** [try: m  except Exception as e: handler(e)] *)
Definition io_try {A : Type} (m : io A) (handler : exn -> io A) : io A :=
  fun s =>
    match m s with
    | (Return a, s') => (Return a, s')
    | (Raise e, s') => handler e s'
    end.

Definition io_of_result {A : Type} (r : result A) : io A := fun s => (r, s).
End IO.

Arguments io_ret {S A} a.
Arguments io_raise {S A} e.
Arguments io_bind {S A B} m k.
Arguments io_try {S A} m handler.
Arguments io_of_result {S A} r.

Notation "x <~ m ;; k" := (io_bind m (fun x => k))
  (at level 61, m at next level, right associativity) : py_scope.

(** ** bitcoind.py *)

(** A decoded transaction as [getrawtransaction] with [verbose=True] gives
    it: JSON objects with the keys the code reads, optional where the code
    tests for them. *)
Record tx_input : Type := {
  in_coinbase : option string;
  in_txid : option string;
  in_vout : option nat
}.

Record tx_output : Type := { out_value : Q }.

Record transaction : Type := {
  tx_vin : list tx_input;
  tx_vout : list tx_output;
  tx_weight : Z
}.

Record rpc_error : Type := { error_code : Z; error_message : string }.

(** What the node answers to one POST. *)
Inductive http_reply : Type :=
| Body (error : option rpc_error) (rpc_result : option transaction)
| Undecodable
| Unreachable.

(** The node, as a function of the requested txid. *)
Definition node : Type := string -> http_reply.

Module BitcoindClient.

Record t : Type := { _request_count : Z }.

Definition _process_http (bitcoind : node) (txid : string)
  : io t (option transaction) :=
  fun self =>
    let self := {| _request_count := _request_count self + 1 |} in
    match bitcoind txid with
    | Unreachable => (Raise ClientError, self)
    | Undecodable => (Raise JSONDecodeError, self)
    | Body error rpc_result =>
        match error with
        | Some error =>
            (Raise (BitcoindHttpException (error_code error)
                                          (error_message error)), self)
        | None => (Return rpc_result, self)
        end
    end.

(** The work queue hands the payload to [_process_http] and delivers its
    value or its exception through the future the caller awaits. *)
Definition _enqueue_http (bitcoind : node) (txid : string)
  : io t (option transaction) :=
  _process_http bitcoind txid.

Definition get_raw_transaction (bitcoind : node) (txid : string)
  : io t (option transaction) :=
  io_try (_enqueue_http bitcoind txid)
         (fun e =>
            match e with
            | BitcoindHttpException code message =>
                if code =? -5 then io_ret None else io_raise e
            | _ => io_raise e
            end).

End BitcoindClient.

(** ** txdb.py *)

Record RecordTransactionSummary : Type := {
  txid : string;
  weight : Z;
  inputs : Z;
  outputs : Z
}.

Definition get_fees (self : RecordTransactionSummary) : Z :=
  inputs self - outputs self.

(** Python's [int(x)] on a number: truncation toward zero. *)
Definition py_int (x : Q) : Z := Z.quot (Qnum x) (Zpos (Qden x)).

Module DbTxSummary.

(** The [tx_summary] collection, keyed by [_id], and the RPC client. *)
Record t : Type := {
  _bitcoind : BitcoindClient.t;
  _collection : dict string RecordTransactionSummary
}.

Definition record_map : Type := dict string (option RecordTransactionSummary).

(** Run a coroutine of the RPC client inside the engine. *)
Definition with_bitcoind {A : Type} (m : io BitcoindClient.t A) : io t A :=
  fun self =>
    let (r, b) := m (_bitcoind self) in
    (r, {| _bitcoind := b; _collection := _collection self |}).

(** [insert_one]: the store refuses a second document with the same
    [_id]. *)
Definition insert_one (doc : RecordTransactionSummary) : io t unit :=
  fun self =>
    if dict_mem string_dec (_collection self) (txid doc)
    then (Raise DuplicateKeyError, self)
    else (Return tt,
          {| _bitcoind := _bitcoind self;
             _collection := dict_set string_dec (_collection self) (txid doc) doc |}).

(** [find({"_id": {"$in": ids}})] *)
Definition find (self : t) (ids : list string) : list RecordTransactionSummary :=
  map snd (filter (fun d => if in_dec string_dec (fst d) ids then true else false)
                  (_collection self)).

(** First loop of [_compute_input_sum]: load every referenced
    transaction. *)
Fixpoint load_inputs (bitcoind : node) (vin : list tx_input)
         (input_txs : dict string (option transaction))
  : io BitcoindClient.t (dict string (option transaction)) :=
  match vin with
  | [] => io_ret input_txs
  | x :: rest =>
      (iid <~ io_of_result
                (match in_txid x with Some i => Return i | None => Raise KeyError end) ;;
       tx <~ BitcoindClient.get_raw_transaction bitcoind iid ;;
       load_inputs bitcoind rest (dict_set string_dec input_txs iid tx))%py
  end.

(** Second loop of [_compute_input_sum]. *)
Fixpoint sum_inputs (vin : list tx_input)
         (input_txs : dict string (option transaction)) (input_sum : Z)
  : result Z :=
  match vin with
  | [] => Return input_sum
  | input :: rest =>
      (iid <- match in_txid input with Some i => Return i | None => Raise KeyError end ;;
       prev <- dict_lookup string_dec input_txs iid ;;
       prev <- match prev with Some p => Return p | None => Raise TypeError end ;;
       n <- match in_vout input with Some n => Return n | None => Raise KeyError end ;;
       out <- match nth_error (tx_vout prev) n with
              | Some o => Return o
              | None => Raise IndexError
              end ;;
       sum_inputs rest input_txs
                  (input_sum + py_int (inject_Z constants.COIN * out_value out)))%py
  end.

Definition _compute_input_sum (bitcoind : node) (tx : transaction)
  : io BitcoindClient.t Z :=
  (input_txs <~ load_inputs bitcoind (tx_vin tx) [] ;;
   io_of_result (sum_inputs (tx_vin tx) input_txs 0))%py.

Definition _compute_output_sum (tx : transaction) : Z :=
  fold_left
    (fun output_sum vout =>
       output_sum + py_int (inject_Z constants.COIN * out_value vout))
    (tx_vout tx) 0.

Definition _is_coinbase (tx : transaction) : result bool :=
  match tx_vin tx with
  | [] => Raise IndexError
  | first :: _ =>
      Return (match in_coinbase first with Some _ => true | None => false end)
  end.

Definition _compute_tx_summary (bitcoind : node) (txid : string)
  : io BitcoindClient.t (option RecordTransactionSummary) :=
  (tx <~ BitcoindClient.get_raw_transaction bitcoind txid ;;
   match tx with
   | None => io_ret None
   | Some tx =>
       let outputs := _compute_output_sum tx in
       is_coinbase <~ io_of_result (_is_coinbase tx) ;;
       inputs <~ (if is_coinbase : bool then io_ret outputs
                  else _compute_input_sum bitcoind tx) ;;
       io_ret (Some {| txid := txid; weight := tx_weight tx;
                       inputs := inputs; outputs := outputs |})
   end)%py.

(** The cache loop of [process]: query the ids in slices of 100000 and
    copy what is found into [records].  Each round consumes at least one
    id, so [length queue_ids_to_load] rounds of fuel are enough. *)
Fixpoint load_from_cache (fuel : nat) (self : t)
         (queue_ids_to_load : list string) (records : record_map) : record_map :=
  match fuel, queue_ids_to_load with
  | _, [] => records
  | O, _ => records
  | Datatypes.S fuel', _ =>
      let cursor := find self (firstn 100000 queue_ids_to_load) in
      let queue_ids_to_load := skipn 100000 queue_ids_to_load in
      load_from_cache fuel' self queue_ids_to_load
        (fold_left (fun records doc => dict_set string_dec records (txid doc) (Some doc))
                   cursor records)
  end.

(** The closure [construct_tx_summary] of [process]; it shares [records]
    with [process], so [records] is part of its state. *)
Definition construct_tx_summary (bitcoind : node) (txid : string)
  : io (t * record_map) (string * option RecordTransactionSummary) :=
  fun st =>
    let (self, records) := st in
    match with_bitcoind (_compute_tx_summary bitcoind txid) self with
    | (Raise e, self) => (Raise e, (self, records))
    | (Return tx_summary, self) =>
        let records := dict_set string_dec records txid tx_summary in
        match tx_summary with
        | None => (Return (txid, tx_summary), (self, records))
        | Some doc =>
            match insert_one doc self with
            | (Raise e, self) => (Raise e, (self, records))
            | (Return _, self) => (Return (txid, tx_summary), (self, records))
            end
        end
    end.

(** A task created by [asyncio.create_task]: the number of the
    construction that created it, and what its coroutine yields once it
    has run. *)
Record task : Type := {
  task_number : nat;
  task_outcome : result (string * option RecordTransactionSummary)
}.

(** When progress of the tasks is observed is up to the event loop:
    [finished n k] tells whether task [k] is done when construction [n]
    is held back.  The admission gate of [process] yields the tasks kept
    in [pending], or [None] when none ever finishes and the polling loop
    does not end. *)
Definition admission (finished : nat -> nat -> bool) (n : nat) (pending : list task)
  : option (list task) :=
  if (1000 <? List.length pending)%nat then
    if existsb (fun t => finished n (task_number t)) pending
    then Some (filter (fun t => negb (finished n (task_number t))) pending)
    else None
  else Some pending.

(** [for txid in txid_to_construct]: the tasks are run in creation
    order. *)
Fixpoint spawn (bitcoind : node) (finished : nat -> nat -> bool)
         (txid_to_construct : list string) (count_constructed_summaries : nat)
         (pending : list task) (st : t * record_map)
  : option (list task * (t * record_map)) :=
  match txid_to_construct with
  | [] => Some (pending, st)
  | txid :: rest =>
      let count_constructed_summaries := Datatypes.S count_constructed_summaries in
      match admission finished count_constructed_summaries pending with
      | None => None
      | Some pending =>
          let (outcome, st) := construct_tx_summary bitcoind txid st in
          spawn bitcoind finished rest count_constructed_summaries
                (pending ++ [{| task_number := count_constructed_summaries;
                                task_outcome := outcome |}])
                st
      end
  end.

(** [await asyncio.gather] over the tasks of [pending]: an exception
    raised by one of the awaited tasks is raised to the caller. *)
Fixpoint gather (pending : list task) : result unit :=
  match pending with
  | [] => Return tt
  | t :: rest =>
      match task_outcome t with
      | Raise e => Raise e
      | Return _ => gather rest
      end
  end.

Definition process (bitcoind : node) (finished : nat -> nat -> bool)
           (txid_list : list string) (self : t)
  : option (result record_map * t) :=
  let records := load_from_cache (List.length txid_list) self txid_list [] in
  let txid_to_construct :=
    filter (fun txid => negb (dict_mem string_dec records txid)) txid_list in
  match spawn bitcoind finished txid_to_construct 0 [] (self, records) with
  | None => None
  | Some (pending, (self, records)) =>
      match gather pending with
      | Raise e => Some (Raise e, self)
      | Return _ => Some (Return records, self)
      end
  end.

End DbTxSummary.

(** ** txdb.py: the log of first sightings *)

Module RecordTransactionLog.
Record t : Type := {
  txid : string;
  timestamp : Z
}.
End RecordTransactionLog.

Module DbTxLog.

(** The [tx_log] collection: [_id] => [time]. *)
Definition t : Type := dict string Z.

(** [UpdateOne({'_id': txid}, {'$min': {'time': timestamp}}, upsert=True)] *)
Definition update_min (self : t) (txid : string) (timestamp : Z) : t :=
  match dict_get string_dec self txid with
  | Some time => dict_set string_dec self txid (Z.min time timestamp)
  | None => dict_set string_dec self txid timestamp
  end.

Definition insert_bulk (self : t) (list_of_records : list RecordTransactionLog.t) : t :=
  fold_left
    (fun self i =>
       update_min self (RecordTransactionLog.txid i) (RecordTransactionLog.timestamp i))
    list_of_records self.

(** [now] is [int(time.time())]. *)
Definition insert (now : Z) (self : t) (txid : string) (timestamp : option Z) : t :=
  let timestamp := match timestamp with None => now | Some timestamp => timestamp end in
  insert_bulk self [{| RecordTransactionLog.txid := txid;
                       RecordTransactionLog.timestamp := timestamp |}].

(** [delete_many({"time": {"$lt": threshold}})]; returns the deleted
    count. *)
Definition trim (now : Z) (self : t) (max_age_seconds : Z) : Z * t :=
  let threshold := now - max_age_seconds in
  (Z.of_nat (List.length (filter (fun doc => snd doc <? threshold) self)),
   filter (fun doc => negb (snd doc <? threshold)) self).

(** [find({'time': {'$gte': threshold}})] *)
Definition fetch (now : Z) (self : t) (max_age : Z) : list RecordTransactionLog.t :=
  let threshold := now - max_age in
  map (fun doc => {| RecordTransactionLog.txid := fst doc;
                     RecordTransactionLog.timestamp := snd doc |})
      (filter (fun doc => snd doc >=? threshold) self).

End DbTxLog.

(** ** main_compute.py *)

Module main_compute.

(** The loop of [make_feebuckets_from_txids]: the weight of every
    transaction that has a summary goes to the bucket of its fee rate. *)
Fixpoint add_weights (list_txid : list string) (summaries : DbTxSummary.record_map)
         (output : FeeBuckets.t) : outcome FeeBuckets.t :=
  match list_txid with
  | [] => Value output
  | txid :: rest =>
      match dict_get string_dec summaries txid with
      | None => add_weights rest summaries output
      | Some None => add_weights rest summaries output
      | Some (Some tx_summary) =>
          let fees := inputs tx_summary - outputs tx_summary in
          match to_fee_rate fees (weight tx_summary) with
          | Failed e => Failed e
          | Value fee_rate =>
              match FeeBuckets.__iadd__ output fee_rate
                                        (inject_Z (weight tx_summary)) with
              | Return output => add_weights rest summaries output
              | Raise e => Failed (Exn e)
              end
          end
      end
  end.

Definition make_feebuckets_from_txids
           (bitcoind : node) (finished : nat -> nat -> bool)
           (list_txid : list string) (db_summaries : DbTxSummary.t)
  : option (outcome FeeBuckets.t * DbTxSummary.t) :=
  match DbTxSummary.process bitcoind finished list_txid db_summaries with
  | None => None
  | Some (Raise e, db_summaries) => Some (Failed (Exn e), db_summaries)
  | Some (Return summaries, db_summaries) =>
      Some (add_weights list_txid summaries FeeBuckets.__init__, db_summaries)
  end.

(** [max_age_seconds] of [main]:
    [max(constants.TARGETS_MINUTE) * 60 * FLOW_TIMESPAN_MULTIPLIER * 2]. *)
Definition max_age_seconds : Z :=
  match constants.TARGETS_MINUTE with
  | [] => 0
  | minutes :: rest =>
      fold_left Z.max rest minutes * 60 * constants.FLOW_TIMESPAN_MULTIPLIER * 2
  end.

End main_compute.

(** ** Vocabulary of the statements *)

(** Sum of a list of weights. *)
Definition Qsum (l : list Q) : Q := fold_right Qplus 0%Q l.

(** The stored values whose key is at least [threshold], summed. *)
Definition sum_from (self : FeeBuckets.t) (threshold : Z) : Q :=
  Qsum (map snd (filter (fun kv => threshold <=? fst kv) self)).

(** Mean number of blocks found in [minutes] minutes. *)
Definition expected_blocks (minutes : Q) : R :=
  (Q2R minutes / IZR constants.TARGET_BLOCK_TIME_MINUTES)%R.

(** Weight left in the bucket of fee rate [fee_rate] after [minutes]
    minutes in which [blocks] blocks are found. *)
Definition end_weight (mempool flow_minutes : FeeBuckets.t)
           (minutes : Z) (blocks : nat) (fee_rate : Z) : Q :=
  (FeeBuckets.get_aggregate_sup mempool fee_rate
   + FeeBuckets.get_aggregate_sup flow_minutes fee_rate * inject_Z minutes
   - inject_Z (Z.of_nat blocks) * inject_Z constants.BLOCK_CAPACITY_WU)%Q.

(** Whether that weight is at most zero. *)
Definition empties (mempool flow_minutes : FeeBuckets.t)
           (minutes : Z) (blocks : nat) (fee_rate : Z) : bool :=
  Qle_bool (end_weight mempool flow_minutes minutes blocks fee_rate) 0%Q.

Definition estimate_le (a b : estimate) : Prop := estimate_leb a b = true.

Section TableVocabulary.
Variables W C : Type.
Variable W_eq_dec : forall a b : W, {a = b} + {a <> b}.
Variable C_eq_dec : forall a b : C, {a = b} + {a <> b}.

(** The entry read at [(delay, confidence)], infinite where there is
    none. *)
Definition entry_or_inf (estimates : table W C) (delay : W) (confidence : C)
  : estimate :=
  match entry W_eq_dec C_eq_dec estimates delay confidence with
  | Some v => v
  | None => POSITIVE_INFINITY
  end.

(** Minimum of the entries of [estimates] at [confidence] over the
    windows of [windows]. *)
Definition running_min (estimates : table W C) (confidence : C)
           (windows : list W) : estimate :=
  fold_left (fun m w => py_min m (entry_or_inf estimates w confidence))
            windows POSITIVE_INFINITY.

(** Every pair of [list_windows] and [list_confidence] has an entry. *)
Definition table_covers (estimates : table W C)
           (list_windows : list W) (list_confidence : list C) : Prop :=
  forall w c, In w list_windows -> In c list_confidence ->
              exists v, entry W_eq_dec C_eq_dec estimates w c = Some v.

(** [m] is the minimum of the entries of [estimates] at [confidence]
    over the windows of [windows]. *)
Definition is_min_entry (estimates : table W C) (confidence : C)
           (windows : list W) (m : estimate) : Prop :=
  (exists w, In w windows /\ entry_or_inf estimates w confidence = m)
  /\ forall w, In w windows -> estimate_le m (entry_or_inf estimates w confidence).

(** Every entry of [estimates] satisfies [P]. *)
Definition all_entries (P : estimate -> Prop) (estimates : table W C) : Prop :=
  forall w c v, entry W_eq_dec C_eq_dec estimates w c = Some v -> P v.

(** [corrected] has an entry exactly where [estimates] has one. *)
Definition same_shape (estimates corrected : table W C) : Prop :=
  forall w c, entry W_eq_dec C_eq_dec corrected w c = None
              <-> entry W_eq_dec C_eq_dec estimates w c = None.
End TableVocabulary.

(** The node answers the request for [txid] with a failure other than
    "not found". *)
Definition node_fails (bitcoind : node) (txid : string) : Prop :=
  match bitcoind txid with
  | Unreachable | Undecodable => True
  | Body (Some error) _ => error_code error <> -5
  | Body None _ => False
  end.

(** Constructing the summary of [txid] raises, whatever the state. *)
Definition construction_raises (bitcoind : node) (txid : string) : Prop :=
  forall st, exists e st',
      DbTxSummary.construct_tx_summary bitcoind txid st = (Raise e, st').

(** The ids [process] constructs: those of the batch not found in the
    cache. *)
Definition txid_to_construct (txid_list : list string) (self : DbTxSummary.t)
  : list string :=
  filter (fun txid =>
            negb (dict_mem string_dec
                           (DbTxSummary.load_from_cache (List.length txid_list) self
                                                        txid_list [])
                           txid))
         txid_list.

(** *** Transactions, batches and the log *)

(** The [txid] field of a summary, for statements that bind a variable
    named [txid]. *)
Abbreviation summary_txid := txid.

(** What [get_raw_transaction] returns for [txid] when it does not raise:
    the decoded result, or [None] for a transaction reported absent. *)
Definition node_returns (bitcoind : node) (txid : string)
  : option (option transaction) :=
  match bitcoind txid with
  | Body None rpc_result => Some rpc_result
  | Body (Some error) _ => if error_code error =? -5 then Some None else None
  | Undecodable => None
  | Unreachable => None
  end.

(** The value in satoshis of the output an input spends, read from the
    node; [None] where an exception arises instead. *)
Definition input_value (bitcoind : node) (input : tx_input) : option Z :=
  match in_txid input, in_vout input with
  | Some iid, Some n =>
      match node_returns bitcoind iid with
      | Some (Some prev) =>
          match nth_error (tx_vout prev) n with
          | Some out => Some (py_int (inject_Z constants.COIN * out_value out))
          | None => None
          end
      | _ => None
      end
  | _, _ => None
  end.

(** The state of the RPC client after [n] more requests. *)
Definition after_requests (self : BitcoindClient.t) (n : Z) : BitcoindClient.t :=
  {| BitcoindClient._request_count := BitcoindClient._request_count self + n |}.

(** The sum [_compute_input_sum] computes, read from the node; [None] where
    an exception arises instead. *)
Fixpoint inputs_total (bitcoind : node) (vin : list tx_input) : option Z :=
  match vin with
  | [] => Some 0
  | input :: rest =>
      match input_value bitcoind input, inputs_total bitcoind rest with
      | Some v, Some total => Some (v + total)
      | _, _ => None
      end
  end.

(** The referenced transaction of [input] can be loaded. *)
Definition loadable (bitcoind : node) (input : tx_input) : bool :=
  match in_txid input with
  | Some iid => match node_returns bitcoind iid with Some _ => true | None => false end
  | None => false
  end.

(** Every transaction held in [input_txs] is the one the node returns. *)
Definition answers_of (bitcoind : node)
           (input_txs : dict string (option transaction)) : Prop :=
  forall iid r, dict_get string_dec input_txs iid = Some r ->
                node_returns bitcoind iid = Some r.

(** The outcome is a value, not an exception. *)
Definition returned {A : Type} (r : result A) : bool :=
  match r with Return _ => true | Raise _ => false end.

(** The constructions of a batch, run one after the other: what each one
    yields, and the engine and the shared [records] at the end. *)
Fixpoint construct_all (bitcoind : node) (txids : list string)
         (st : DbTxSummary.t * DbTxSummary.record_map)
  : list (result (string * option RecordTransactionSummary))
    * (DbTxSummary.t * DbTxSummary.record_map) :=
  match txids with
  | [] => ([], st)
  | txid :: rest =>
      let (outcome, st) := DbTxSummary.construct_tx_summary bitcoind txid st in
      let (outcomes, st) := construct_all bitcoind rest st in
      (outcome :: outcomes, st)
  end.

(** The store holds one document per [_id], and a document's [txid] is
    its [_id]. *)
Definition collection_keyed (self : DbTxSummary.t) : Prop :=
  dict_wf (DbTxSummary._collection self)
  /\ forall k doc, In (k, doc) (DbTxSummary._collection self) -> txid doc = k.

(** [txid] has a document in the store. *)
Definition cached (self : DbTxSummary.t) (txid : string) : bool :=
  dict_mem string_dec (DbTxSummary._collection self) txid.

(** The weight a list of ids brings to the bucket of [fee_rate]: the
    weights of the summaries whose fee rate is normalised to the same
    bucket, an id counting as often as it is listed. *)
Fixpoint weight_at (summaries : DbTxSummary.record_map) (list_txid : list string)
         (fee_rate : Z) : Z :=
  match list_txid with
  | [] => 0
  | txid :: rest =>
      match dict_get string_dec summaries txid with
      | Some (Some tx_summary) =>
          if Z.eq_dec (FeeBuckets._normalize fee_rate)
                      (FeeBuckets._normalize
                         (Z.quot (4 * (inputs tx_summary - outputs tx_summary))
                                 (weight tx_summary)))
          then weight tx_summary + weight_at summaries rest fee_rate
          else weight_at summaries rest fee_rate
      | _ => weight_at summaries rest fee_rate
      end
  end.

(** The earliest of a stored time and a list of timestamps. *)
Definition earliest (time : option Z) (timestamps : list Z) : option Z :=
  fold_left (fun time timestamp =>
               Some (match time with
                     | Some time => Z.min time timestamp
                     | None => timestamp
                     end))
            timestamps time.

(** The timestamps of the records that name [txid]. *)
Definition sightings (list_of_records : list RecordTransactionLog.t) (txid : string)
  : list Z :=
  map RecordTransactionLog.timestamp
      (filter (fun i => if string_dec (RecordTransactionLog.txid i) txid
                        then true else false)
              list_of_records).

(** ** Sample data *)

Definition example_node : node :=
  fun txid =>
    if string_dec txid "gone" then
      Body (Some {| error_code := -5; error_message := "No such mempool transaction" |})
           None
    else if string_dec txid "busy" then
      Body (Some {| error_code := -28; error_message := "Loading block index" |}) None
    else if string_dec txid "mint" then
      Body None
           (Some {| tx_vin := [{| in_coinbase := Some "04ffff001d"; in_txid := None;
                                  in_vout := None |}];
                    tx_vout := [{| out_value := (25 # 2)%Q |}];
                    tx_weight := 800 |})
    else if string_dec txid "spend" then
      Body None
           (Some {| tx_vin := [{| in_coinbase := None; in_txid := Some "mint";
                                  in_vout := Some 0%nat |}];
                    tx_vout := [{| out_value := (12 # 1)%Q |}];
                    tx_weight := 600 |})
    else Unreachable.

Definition example_engine : DbTxSummary.t :=
  {| DbTxSummary._bitcoind := {| BitcoindClient._request_count := 0 |};
     DbTxSummary._collection := [] |}.

(* ====================================================================== *)
(** * Part II: properties *)
(* ====================================================================== *)

(** ** Dictionaries *)

Section PyDictFacts.
Variables K V : Type.
Variable K_eq_dec : forall a b : K, {a = b} + {a <> b}.
Implicit Types (d : dict K V) (k : K) (v : V).

Lemma dict_get_set_same d k v :
  dict_get K_eq_dec (dict_set K_eq_dec d k v) k = Some v.
Proof.
  induction d as [|[k' v'] d IH]; simpl.
  - destruct (K_eq_dec k k); congruence.
  - destruct (K_eq_dec k k') as [E|E]; simpl.
    + destruct (K_eq_dec k k'); congruence.
    + destruct (K_eq_dec k k'); congruence.
Qed.

Lemma dict_get_set_other d k k' v :
  k <> k' ->
  dict_get K_eq_dec (dict_set K_eq_dec d k v) k' = dict_get K_eq_dec d k'.
Proof.
  intros N. induction d as [|[k0 v0] d IH]; simpl.
  - destruct (K_eq_dec k' k); congruence.
  - destruct (K_eq_dec k k0) as [E|E]; simpl.
    + subst. destruct (K_eq_dec k' k0); congruence.
    + destruct (K_eq_dec k' k0); congruence.
Qed.

Lemma dict_get_notin d k :
  dict_get K_eq_dec d k = None <-> ~ In k (dict_keys d).
Proof.
  induction d as [|[k' v'] d IH]; simpl.
  - tauto.
  - destruct (K_eq_dec k k') as [E|E].
    + subst. split; [discriminate | tauto].
    + rewrite IH. split; intros H; [intros [F|F]; [congruence | tauto] | tauto].
Qed.

Lemma dict_get_In d k v :
  dict_get K_eq_dec d k = Some v -> In (k, v) d.
Proof.
  induction d as [|[k' v'] d IH]; simpl; [discriminate|].
  destruct (K_eq_dec k k') as [E|E]; intros H.
  - left. congruence.
  - right. auto.
Qed.

Lemma dict_keys_set d k v k' :
  In k' (dict_keys (dict_set K_eq_dec d k v)) <-> k' = k \/ In k' (dict_keys d).
Proof.
  induction d as [|[k0 v0] d IH]; simpl.
  - intuition congruence.
  - destruct (K_eq_dec k k0) as [E|E]; simpl.
    + subst. intuition congruence.
    + rewrite IH. tauto.
Qed.

Lemma dict_wf_set d k v : dict_wf d -> dict_wf (dict_set K_eq_dec d k v).
Proof.
  unfold dict_wf. induction d as [|[k0 v0] d IH]; simpl; intros H.
  - constructor; [simpl; tauto | constructor].
  - inversion H as [|? ? Hn Hd]; subst.
    destruct (K_eq_dec k k0) as [E|E]; simpl.
    + constructor; assumption.
    + constructor; [|auto].
      intros F. apply (dict_keys_set d k v k0) in F. destruct F; congruence.
Qed.

Lemma dict_del_present d k v :
  dict_get K_eq_dec d k = Some v -> exists d', dict_del K_eq_dec d k = Return d'.
Proof.
  induction d as [|[k0 v0] d IH]; simpl; [discriminate|].
  destruct (K_eq_dec k k0) as [E|E]; intros H.
  - eauto.
  - destruct (IH H) as [d' Hd']. rewrite Hd'. eauto.
Qed.

Lemma dict_del_absent d k :
  dict_get K_eq_dec d k = None -> dict_del K_eq_dec d k = Raise KeyError.
Proof.
  induction d as [|[k0 v0] d IH]; simpl; [reflexivity|].
  destruct (K_eq_dec k k0) as [E|E]; intros H; [discriminate|].
  rewrite (IH H). reflexivity.
Qed.

Lemma dict_del_keys d k d' k' :
  dict_del K_eq_dec d k = Return d' ->
  In k' (dict_keys d') -> In k' (dict_keys d).
Proof.
  revert d'. induction d as [|[k0 v0] d IH]; simpl; intros d' H; [discriminate|].
  destruct (K_eq_dec k k0) as [E|E].
  - injection H as <-. tauto.
  - destruct (dict_del K_eq_dec d k) as [d''|]; [|discriminate].
    injection H as <-. simpl. intros [F|F]; [tauto | right; eapply IH; eauto].
Qed.

Lemma dict_del_In d k d' kv :
  dict_del K_eq_dec d k = Return d' -> In kv d' -> In kv d.
Proof.
  revert d'. induction d as [|[k0 v0] d IH]; simpl; intros d' H; [discriminate|].
  destruct (K_eq_dec k k0) as [E|E].
  - injection H as <-. tauto.
  - destruct (dict_del K_eq_dec d k) as [d''|]; [|discriminate].
    injection H as <-. simpl. intros [F|F]; [tauto | right; eapply IH; eauto].
Qed.

Lemma dict_get_del_same d k d' :
  dict_wf d -> dict_del K_eq_dec d k = Return d' ->
  dict_get K_eq_dec d' k = None.
Proof.
  unfold dict_wf. revert d'.
  induction d as [|[k0 v0] d IH]; simpl; intros d' Hwf H; [discriminate|].
  inversion Hwf as [|? ? Hn Hd]; subst.
  destruct (K_eq_dec k k0) as [E|E].
  - injection H as <-. subst. apply dict_get_notin. assumption.
  - destruct (dict_del K_eq_dec d k) as [d''|] eqn:Hdel; [|discriminate].
    injection H as <-. simpl. destruct (K_eq_dec k k0); [congruence|]. auto.
Qed.

Lemma dict_wf_del d k d' :
  dict_wf d -> dict_del K_eq_dec d k = Return d' -> dict_wf d'.
Proof.
  unfold dict_wf. revert d'.
  induction d as [|[k0 v0] d IH]; simpl; intros d' Hwf H; [discriminate|].
  inversion Hwf as [|? ? Hn Hd]; subst.
  destruct (K_eq_dec k k0) as [E|E].
  - injection H as <-. assumption.
  - destruct (dict_del K_eq_dec d k) as [d''|] eqn:Hdel; [|discriminate].
    injection H as <-. simpl. constructor; [|auto].
    intros F. apply Hn. eapply dict_del_keys; eauto.
Qed.

Lemma dict_set_In d k v kv :
  In kv (dict_set K_eq_dec d k v) -> kv = (k, v) \/ In kv d.
Proof.
  induction d as [|[k0 v0] d IH]; simpl.
  - intros [F|[]]. left. congruence.
  - destruct (K_eq_dec k k0) as [E|E]; simpl.
    + subst. intros [F|F]; [left; congruence | tauto].
    + intros [F|F]; [tauto|]. destruct (IH F); tauto.
Qed.
End PyDictFacts.

(** ** Fee buckets *)

Section FeeBucketsFacts.
Import FeeBuckets.
Implicit Types (self : FeeBuckets.t) (r threshold : Z) (w : Q).

Lemma normalize_range r :
  constants.MIN_FEE_RATE <= _normalize r <= constants.MAX_FEE_RATE.
Proof. unfold _normalize, constants.MIN_FEE_RATE, constants.MAX_FEE_RATE. lia. Qed.

Lemma normalize_fixed r :
  constants.MIN_FEE_RATE <= r <= constants.MAX_FEE_RATE -> _normalize r = r.
Proof. unfold _normalize, constants.MIN_FEE_RATE, constants.MAX_FEE_RATE. lia. Qed.

Lemma aggregate_loop self threshold (value : Q) :
  (fold_left
     (fun value kv => if fst kv >=? threshold then (value + snd kv)%Q else value)
     self value
   == value + sum_from self threshold)%Q.
Proof.
  unfold sum_from. revert value.
  induction self as [|[k v] self IH]; intros value; simpl.
  - ring.
  - rewrite IH, Z.geb_leb. destruct (threshold <=? k); simpl; ring.
Qed.

Lemma sum_loop self (value : Q) :
  (fold_left (fun value kv => (value + snd kv)%Q) self value
   == value + Qsum (map snd self))%Q.
Proof.
  revert value. induction self as [|[k v] self IH]; intros value; simpl.
  - ring.
  - rewrite IH. simpl. ring.
Qed.

Lemma get_aggregate_sup_sum_from self threshold :
  (get_aggregate_sup self threshold == sum_from self threshold)%Q.
Proof. unfold get_aggregate_sup. rewrite aggregate_loop. ring. Qed.

Lemma sum_from_all self threshold :
  (forall k, In k (dict_keys self) -> threshold <= k) ->
  sum_from self threshold = Qsum (map snd self).
Proof.
  unfold sum_from. induction self as [|[k v] self IH]; intros H; simpl.
  - reflexivity.
  - assert (threshold <= k) as Hk by (apply H; simpl; auto).
    apply Z.leb_le in Hk. rewrite Hk. simpl. f_equal.
    apply IH. intros k' Hk'. apply H. simpl. auto.
Qed.

Lemma sum_from_none self threshold :
  (forall k, In k (dict_keys self) -> k < threshold) ->
  sum_from self threshold = 0%Q.
Proof.
  unfold sum_from. induction self as [|[k v] self IH]; intros H; simpl.
  - reflexivity.
  - assert (k < threshold) as Hk by (apply H; simpl; auto).
    apply Z.leb_gt in Hk. rewrite Hk.
    apply IH. intros k' Hk'. apply H. simpl. auto.
Qed.

Lemma sum_from_ext self t1 t2 :
  (forall k, In k (dict_keys self) -> (t1 <=? k) = (t2 <=? k)) ->
  sum_from self t1 = sum_from self t2.
Proof.
  unfold sum_from. induction self as [|[k v] self IH]; intros H; simpl.
  - reflexivity.
  - rewrite (H k) by (simpl; auto).
    assert (IH' := IH (fun k' Hk' => H k' (or_intror Hk'))).
    destruct (t2 <=? k); simpl; rewrite IH'; reflexivity.
Qed.

Lemma max_fee_rate_loop (keys : list Z) (k0 : Z) :
  k0 <= fold_left Z.max keys k0 /\
  forall k, In k keys -> k <= fold_left Z.max keys k0.
Proof.
  revert k0. induction keys as [|k1 keys IH]; intros k0; simpl.
  - split; [lia | tauto].
  - destruct (IH (Z.max k0 k1)) as [H1 H2]. split; [lia|].
    intros k [<-|Hk]; [lia | auto].
Qed.

Lemma max_fee_rate_upper self k :
  In k (dict_keys self) -> k <= max_fee_rate self.
Proof.
  unfold max_fee_rate. destruct (dict_keys self) as [|k0 keys]; simpl; [tauto|].
  destruct (max_fee_rate_loop keys k0) as [H1 H2].
  intros [<-|Hk]; auto.
Qed.

Lemma max_fee_rate_nonneg self :
  keys_normalized self -> 0 <= max_fee_rate self.
Proof.
  unfold keys_normalized, max_fee_rate.
  destruct (dict_keys self) as [|k0 keys]; intros H; [lia|].
  inversion H as [|? ? H0 _]; subst. unfold constants.MIN_FEE_RATE in H0.
  destruct (max_fee_rate_loop keys k0) as [H1 _]. lia.
Qed.

Lemma get_aggregate_sup_above self threshold :
  max_fee_rate self < threshold ->
  (get_aggregate_sup self threshold == 0)%Q.
Proof.
  intros H. rewrite get_aggregate_sup_sum_from, sum_from_none; [reflexivity|].
  intros k Hk. apply max_fee_rate_upper in Hk. lia.
Qed.

(** *** [__setitem__] keeps the representation invariants *)

Lemma setitem_wf self r w self' :
  dict_wf self -> __setitem__ self r w = Return self' -> dict_wf self'.
Proof.
  unfold __setitem__. intros Hwf. destruct (Qeq_bool w 0); intros H.
  - eapply dict_wf_del; eauto.
  - injection H as <-. apply dict_wf_set. assumption.
Qed.

Lemma setitem_keys_normalized self r w self' :
  keys_normalized self -> __setitem__ self r w = Return self' ->
  keys_normalized self'.
Proof.
  unfold __setitem__, keys_normalized. rewrite !Forall_forall.
  intros Hk. destruct (Qeq_bool w 0); intros H k Hin.
  - apply Hk. eapply dict_del_keys; eauto.
  - injection H as <-. apply dict_keys_set in Hin.
    destruct Hin as [->|Hin]; [apply normalize_range | auto].
Qed.

Lemma setitem_values_positive self r w self' :
  values_positive self -> (0 <= w)%Q -> __setitem__ self r w = Return self' ->
  values_positive self'.
Proof.
  unfold __setitem__, values_positive. rewrite !Forall_forall.
  intros Hv Hw. destruct (Qeq_bool w 0) eqn:Hz; intros H kv Hin.
  - apply Hv. eapply dict_del_In; eauto.
  - injection H as <-. apply dict_set_In in Hin.
    destruct Hin as [->|Hin]; [|auto]. simpl.
    apply Qeq_bool_neq in Hz. apply Qle_lteq in Hw.
    destruct Hw as [Hw|Hw]; [assumption|]. symmetry in Hw. contradiction.
Qed.

Lemma getitem_setitem self r w self' :
  dict_wf self -> __setitem__ self r w = Return self' ->
  (__getitem__ self' r == w)%Q.
Proof.
  unfold __setitem__, __getitem__. intros Hwf.
  destruct (Qeq_bool w 0) eqn:Hz; intros H.
  - rewrite (dict_get_del_same Z.eq_dec (_normalize r) Hwf H). apply Qeq_bool_eq in Hz.
    symmetry. assumption.
  - injection H as <-. rewrite dict_get_set_same. reflexivity.
Qed.

Lemma setitem_succeeds self r w :
  ~ (w == 0)%Q \/ dict_mem Z.eq_dec self (_normalize r) = true ->
  exists self', __setitem__ self r w = Return self'.
Proof.
  unfold __setitem__, dict_mem. intros H.
  destruct (Qeq_bool w 0) eqn:Hz; [|eauto].
  apply Qeq_bool_eq in Hz. destruct H as [H|H]; [contradiction|].
  destruct (dict_get Z.eq_dec self (_normalize r)) as [v|] eqn:Hg; [|discriminate].
  eapply dict_del_present; eauto.
Qed.

Lemma iadd_succeeds self r w :
  ~ (w == 0)%Q -> exists self', __iadd__ self r w = Return self'.
Proof.
  intros Hw. unfold __iadd__. apply setitem_succeeds.
  unfold __getitem__, dict_mem.
  destruct (dict_get Z.eq_dec self (_normalize r)) as [v|]; [right; reflexivity|].
  left. intros H. apply Hw. rewrite <- H. ring.
Qed.
End FeeBucketsFacts.

(** Claim C3, as the code has it.  [get_aggregate_sup(threshold)] is the sum
    of the stored values over the keys [>= threshold], the threshold being
    compared as given and not clamped.  On a bucket whose keys are
    normalised this is the sum over the keys [>= _normalize(threshold)] for
    every threshold up to [MAX_FEE_RATE]; a threshold above every key yields
    0 and a threshold at or below every key yields [sum()]. *)
Theorem get_aggregate_sup_threshold (self : FeeBuckets.t) (threshold : Z) :
  (FeeBuckets.get_aggregate_sup self threshold == sum_from self threshold)%Q
  /\ (FeeBuckets.keys_normalized self -> threshold <= constants.MAX_FEE_RATE ->
      (FeeBuckets.get_aggregate_sup self threshold
       == sum_from self (FeeBuckets._normalize threshold))%Q)
  /\ ((forall k, In k (dict_keys self) -> k < threshold) ->
      (FeeBuckets.get_aggregate_sup self threshold == 0)%Q)
  /\ ((forall k, In k (dict_keys self) -> threshold <= k) ->
      (FeeBuckets.get_aggregate_sup self threshold == FeeBuckets.sum self)%Q).
Proof.
  repeat split.
  - apply get_aggregate_sup_sum_from.
  - intros Hk Ht. rewrite get_aggregate_sup_sum_from.
    rewrite (sum_from_ext self threshold (FeeBuckets._normalize threshold));
      [reflexivity|].
    intros k Hin. unfold FeeBuckets.keys_normalized in Hk.
    rewrite Forall_forall in Hk. specialize (Hk k Hin).
    unfold FeeBuckets._normalize, constants.MIN_FEE_RATE, constants.MAX_FEE_RATE in *.
    destruct (threshold <=? k) eqn:E1; destruct (_ <=? k) eqn:E2; try reflexivity;
      rewrite ?Z.leb_le, ?Z.leb_gt in *; lia.
  - intros H. rewrite get_aggregate_sup_sum_from, sum_from_none by assumption.
    reflexivity.
  - intros H. rewrite get_aggregate_sup_sum_from, sum_from_all by assumption.
    unfold FeeBuckets.sum. rewrite sum_loop. ring.
Qed.

Lemma get_aggregate_sup_threshold_witness :
  let self : FeeBuckets.t := [(3, (7 # 1)%Q); (8, (5 # 2)%Q)] in
  (FeeBuckets.get_aggregate_sup self 0 == sum_from self (FeeBuckets._normalize 0))%Q
  /\ (FeeBuckets.get_aggregate_sup self 9 == 0)%Q
  /\ (FeeBuckets.get_aggregate_sup self 2 == FeeBuckets.sum self)%Q.
Proof.
  intros self.
  destruct (get_aggregate_sup_threshold self 0) as (_ & H1 & _).
  destruct (get_aggregate_sup_threshold self 9) as (_ & _ & H2 & _).
  destruct (get_aggregate_sup_threshold self 2) as (_ & _ & _ & H3).
  split; [|split].
  - apply H1.
    + repeat constructor; vm_compute; discriminate.
    + vm_compute; discriminate.
  - apply H2. simpl. intros k [<-|[<-|[]]]; lia.
  - apply H3. simpl. intros k [<-|[<-|[]]]; lia.
Defined.

Lemma get_aggregate_sup_clamp_counterexample :
  FeeBuckets.__iadd__ FeeBuckets.__init__ 10000 (5 # 1)%Q = Return [(10000%Z, (5 # 1)%Q)]
  /\ FeeBuckets.keys_normalized [(10000%Z, (5 # 1)%Q)]
  /\ (FeeBuckets.get_aggregate_sup [(10000%Z, (5 # 1)%Q)] 10001 == 0)%Q
  /\ (sum_from [(10000%Z, (5 # 1)%Q)] (FeeBuckets._normalize 10001) == 5 # 1)%Q
  /\ ~ (FeeBuckets.get_aggregate_sup [(10000%Z, (5 # 1)%Q)] 10001
        == sum_from [(10000%Z, (5 # 1)%Q)] (FeeBuckets._normalize 10001))%Q.
Proof.
  split; [reflexivity|].
  split; [repeat constructor; vm_compute; discriminate|].
  split; [reflexivity|]. split; [reflexivity|].
  vm_compute. discriminate.
Qed.

(** Claim C6, as the code has it.  On a bucket [self] and a fee rate [r]:
    when [self[r] += w] and then [self[r] += w2] both complete, reading
    [self[r]] returns the previous reading plus [w + w2] (hence [w + w2]
    when [r] was not stored), and both complete whenever [w] and [w2] are
    not zero; when the normalised key of [r] is stored, [self[r] = 0]
    removes it and [r in self] is then [False]; and a write of a
    non-negative weight keeps every stored weight strictly positive. *)
Theorem accumulate_then_clear (self : FeeBuckets.t) (r : Z) :
  dict_wf self ->
  (forall w w2 b1 b2,
      FeeBuckets.__iadd__ self r w = Return b1 ->
      FeeBuckets.__iadd__ b1 r w2 = Return b2 ->
      (FeeBuckets.__getitem__ b2 r == FeeBuckets.__getitem__ self r + w + w2)%Q)
  /\ (forall w w2,
         ~ (w == 0)%Q -> ~ (w2 == 0)%Q ->
         exists b1 b2,
           FeeBuckets.__iadd__ self r w = Return b1
           /\ FeeBuckets.__iadd__ b1 r w2 = Return b2)
  /\ (dict_mem Z.eq_dec self (FeeBuckets._normalize r) = true ->
      exists b',
        FeeBuckets.__setitem__ self r 0%Q = Return b'
        /\ dict_mem Z.eq_dec b' (FeeBuckets._normalize r) = false
        /\ FeeBuckets.__contains__ b' r = false)
  /\ (forall v b',
         FeeBuckets.values_positive self -> (0 <= v)%Q ->
         FeeBuckets.__setitem__ self r v = Return b' ->
         FeeBuckets.values_positive b').
Proof.
  intros Hwf. repeat split.
  - intros w w2 b1 b2 H1 H2. unfold FeeBuckets.__iadd__ in *.
    assert (Hwf1 := setitem_wf _ _ Hwf H1).
    rewrite (getitem_setitem _ _ Hwf1 H2), (getitem_setitem _ _ Hwf H1).
    reflexivity.
  - intros w w2 Hw Hw2.
    destruct (iadd_succeeds self r Hw) as [b1 H1].
    destruct (iadd_succeeds b1 r Hw2) as [b2 H2]. eauto.
  - intros Hm.
    destruct (setitem_succeeds self r (w:=0%Q) (or_intror Hm)) as [b' Hb'].
    exists b'. split; [assumption|].
    unfold FeeBuckets.__setitem__ in Hb'. simpl in Hb'.
    assert (Hg := dict_get_del_same Z.eq_dec (FeeBuckets._normalize r) Hwf Hb').
    unfold dict_mem, FeeBuckets.__contains__. rewrite Hg. split; reflexivity.
  - intros v b' Hp Hv Hs. eapply setitem_values_positive; eauto.
Qed.

Lemma accumulate_then_clear_witness :
  (FeeBuckets.__getitem__ [(5%Z, (6 # 1)%Q)] 5
   == FeeBuckets.__getitem__ [(5%Z, (1 # 1)%Q)] 5 + (2 # 1) + (3 # 1))%Q
  /\ exists b', FeeBuckets.__setitem__ [(5%Z, (1 # 1)%Q)] 5 0%Q = Return b'
                /\ dict_mem Z.eq_dec b' (FeeBuckets._normalize 5) = false
                /\ FeeBuckets.__contains__ b' 5 = false.
Proof.
  assert (Hwf : dict_wf (K:=Z) [(5%Z, (1 # 1)%Q)])
    by (repeat constructor; simpl; tauto).
  destruct (accumulate_then_clear 5 Hwf) as (H1 & _ & H3 & _).
  split.
  - apply (H1 (2 # 1)%Q (3 # 1)%Q [(5%Z, (3 # 1)%Q)]); reflexivity.
  - apply H3. reflexivity.
Defined.

Lemma accumulate_counterexample :
  FeeBuckets.__iadd__ [(5%Z, (1 # 1)%Q)] 5 (2 # 1)%Q = Return [(5%Z, (3 # 1)%Q)]
  /\ FeeBuckets.__iadd__ [(5%Z, (3 # 1)%Q)] 5 (3 # 1)%Q = Return [(5%Z, (6 # 1)%Q)]
  /\ FeeBuckets.__getitem__ [(5%Z, (6 # 1)%Q)] 5 = (6 # 1)%Q
  /\ ~ (FeeBuckets.__getitem__ [(5%Z, (6 # 1)%Q)] 5 == (2 # 1) + (3 # 1))%Q
  /\ FeeBuckets.__setitem__ FeeBuckets.__init__ 5 0%Q = Raise KeyError.
Proof.
  split; [reflexivity|]. split; [reflexivity|]. split; [reflexivity|].
  split; [|reflexivity]. vm_compute. discriminate.
Qed.

(** ** Block arrival *)

Section PoissonFacts.
Local Open Scope R_scope.

(** The exponential series in the form [poisson_cdf] sums it. *)
Lemma poisson_series_cv (mu : R) :
  Un_cv (fun n => sum_f_R0 (fun i => mu ^ i / INR (fact i)) n) (exp mu).
Proof.
  assert (H := proj2_sig (exist_exp mu)).
  unfold exp_in, infinite_sum in H. unfold Un_cv, exp.
  intros eps Heps. destruct (H eps Heps) as [N HN]. exists N.
  intros n Hn. specialize (HN n Hn).
  erewrite sum_eq; [exact HN|].
  intros i _. simpl. unfold Rdiv. apply Rmult_comm.
Qed.

Lemma poisson_term_nonneg (mu : R) (i : nat) :
  0 <= mu -> 0 <= mu ^ i / INR (fact i).
Proof.
  intros Hmu. apply Rmult_le_pos; [apply pow_le; assumption|].
  left. apply Rinv_0_lt_compat, INR_fact_lt_0.
Qed.

Lemma poisson_cdf_le_1 (mu : R) (k : nat) : 0 <= mu -> poisson_cdf mu k <= 1.
Proof.
  intros Hmu. unfold poisson_cdf.
  assert (sum_f_R0 (fun i => mu ^ i / INR (fact i)) k <= exp mu) as H.
  { apply sum_incr; [apply poisson_series_cv|].
    intros n. apply poisson_term_nonneg. assumption. }
  assert (0 < exp (- mu)) as Hp by apply exp_pos.
  replace 1 with (exp (- mu) * exp mu).
  - apply Rmult_le_compat_l; lra.
  - rewrite <- exp_plus. replace (- mu + mu) with 0 by ring. apply exp_0.
Qed.

Lemma poisson_cdf_incr (mu : R) (k : nat) :
  0 <= mu -> poisson_cdf mu k <= poisson_cdf mu (S k).
Proof.
  intros Hmu. unfold poisson_cdf. rewrite tech5.
  assert (0 < exp (- mu)) as Hp by apply exp_pos.
  assert (H := poisson_term_nonneg (S k) Hmu).
  apply Rmult_le_compat_l; lra.
Qed.

Lemma poisson_cdf_cv (mu : R) (eps : R) :
  0 < eps -> exists N, forall n, (N <= n)%nat -> 1 - poisson_cdf mu n < eps.
Proof.
  intros Heps.
  assert (0 < exp (- mu)) as Hp by apply exp_pos.
  assert (0 < exp mu) as Hq by apply exp_pos.
  assert (exp (- mu) * exp mu = 1) as H1.
  { rewrite <- exp_plus. replace (- mu + mu) with 0 by ring. apply exp_0. }
  destruct (poisson_series_cv mu (eps := eps * exp mu)) as [N HN].
  { apply Rmult_lt_0_compat; assumption. }
  exists N. intros n Hn. specialize (HN n Hn).
  unfold Rdist in HN. unfold poisson_cdf.
  set (s := sum_f_R0 (fun i => mu ^ i / INR (fact i)) n) in *.
  apply Rabs_def2 in HN. destruct HN as [_ HN].
  assert (exp (- mu) * (exp mu - s) < exp (- mu) * (eps * exp mu)) as H2.
  { apply Rmult_lt_compat_l; lra. }
  replace (exp (- mu) * (eps * exp mu)) with (eps * (exp (- mu) * exp mu)) in H2
    by ring.
  rewrite H1 in H2. lra.
Qed.

Lemma expected_blocks_nonneg (minutes : Q) :
  (0 <= minutes)%Q -> 0 <= expected_blocks minutes.
Proof.
  intros H. apply Qle_Rle in H. unfold expected_blocks.
  replace (Q2R 0) with 0 in H by (unfold Q2R; simpl; lra).
  unfold constants.TARGET_BLOCK_TIME_MINUTES.
  apply Rmult_le_pos; [assumption|]. lra.
Qed.

Lemma prob_nonneg (minutes : Q) (blocks : nat) :
  (0 <= minutes)%Q -> 0 <= get_prob_of_min_blocks minutes blocks.
Proof.
  intros H. unfold get_prob_of_min_blocks.
  assert (H1 := poisson_cdf_le_1 blocks (expected_blocks_nonneg H)).
  unfold expected_blocks in H1. lra.
Qed.

Lemma prob_decreasing (minutes : Q) (blocks : nat) :
  (0 <= minutes)%Q ->
  get_prob_of_min_blocks minutes (S blocks) <= get_prob_of_min_blocks minutes blocks.
Proof.
  intros H. unfold get_prob_of_min_blocks.
  assert (H1 := poisson_cdf_incr blocks (expected_blocks_nonneg H)).
  unfold expected_blocks in H1. lra.
Qed.

Lemma prob_vanishes (minutes : Q) (eps : R) :
  0 < eps ->
  exists N, forall n, (N <= n)%nat -> get_prob_of_min_blocks minutes n < eps.
Proof. intros H. unfold get_prob_of_min_blocks. apply poisson_cdf_cv. assumption. Qed.
End PoissonFacts.

Section BlockSearch.
Variables minutes target_prob : Q.

(** What the loop started at [blocks] returns, when it returns. *)
Lemma loop_sound fuel blocks k :
  get_min_expected_blocks_loop fuel minutes target_prob blocks = Some k ->
  (blocks <= k)%nat
  /\ (get_prob_of_min_blocks minutes k < Q2R target_prob)%R
  /\ forall j, (blocks <= j < k)%nat ->
               ~ (get_prob_of_min_blocks minutes j < Q2R target_prob)%R.
Proof.
  revert blocks. induction fuel as [|fuel IH]; intros blocks; simpl; [discriminate|].
  destruct (Rlt_dec _ _) as [Hlt|Hge]; intros H.
  - injection H as <-. repeat split; [lia | assumption | intros j Hj; lia].
  - destruct (IH _ H) as (H1 & H2 & H3). repeat split; [lia | assumption |].
    intros j Hj. destruct (Nat.eq_dec j blocks) as [->|N]; [assumption|].
    apply H3. lia.
Qed.

(** The loop returns as soon as the fuel reaches a suitable [k]. *)
Lemma loop_complete fuel blocks k :
  (blocks <= k)%nat ->
  (get_prob_of_min_blocks minutes k < Q2R target_prob)%R ->
  (k - blocks < fuel)%nat ->
  exists k', get_min_expected_blocks_loop fuel minutes target_prob blocks = Some k'.
Proof.
  revert blocks. induction fuel as [|fuel IH]; intros blocks Hle Hk Hf; [lia|].
  simpl. destruct (Rlt_dec _ _) as [Hlt|Hge]; [eauto|].
  destruct (Nat.eq_dec blocks k) as [->|N]; [contradiction|].
  apply IH; [lia | assumption | lia].
Qed.

Lemma loop_fuel_mono fuel fuel' blocks k :
  (fuel <= fuel')%nat ->
  get_min_expected_blocks_loop fuel minutes target_prob blocks = Some k ->
  get_min_expected_blocks_loop fuel' minutes target_prob blocks = Some k.
Proof.
  revert fuel' blocks. induction fuel as [|fuel IH]; intros fuel' blocks Hle;
    simpl; [discriminate|].
  destruct fuel' as [|fuel']; [lia|]. simpl.
  destruct (Rlt_dec _ _); [auto|]. apply IH. lia.
Qed.

Lemma loop_never fuel blocks :
  (forall j, ~ (get_prob_of_min_blocks minutes j < Q2R target_prob)%R) ->
  get_min_expected_blocks_loop fuel minutes target_prob blocks = None.
Proof.
  intros H. revert blocks. induction fuel as [|fuel IH]; intros blocks; simpl;
    [reflexivity|].
  destruct (Rlt_dec _ _) as [Hlt|Hge]; [exfalso; eapply H; eauto | apply IH].
Qed.

Lemma block_search_terminates :
  (0 < target_prob)%Q ->
  exists blocks fuel0,
    forall fuel, (fuel0 <= fuel)%nat ->
                 get_min_expected_blocks fuel minutes target_prob = Some blocks.
Proof.
  intros Hc. apply Qlt_Rlt in Hc.
  replace (Q2R 0) with 0%R in Hc by (unfold Q2R; simpl; lra).
  destruct (prob_vanishes minutes Hc) as [N HN].
  destruct (@loop_complete (S N) 0 N) as [k Hk]; [lia | apply HN; lia | lia |].
  exists k, (S N). intros fuel Hf. unfold get_min_expected_blocks.
  eapply loop_fuel_mono; eauto.
Qed.
End BlockSearch.

(** Claim C10.  For [minutes >= 0] the probability of finding more than
    [k] blocks is non-increasing in [k] and eventually below every positive
    bound; hence for [target_prob > 0] the loop of
    [get_min_expected_blocks] returns once it is given enough fuel, and for
    [target_prob <= 0] it never returns, whatever the fuel. *)
Theorem get_min_expected_blocks_termination (minutes target_prob : Q) :
  (0 <= minutes)%Q ->
  (forall k, (get_prob_of_min_blocks minutes (S k)
              <= get_prob_of_min_blocks minutes k)%R)
  /\ (forall eps, (0 < eps)%R ->
        exists N, forall n, (N <= n)%nat ->
                            (0 <= get_prob_of_min_blocks minutes n < eps)%R)
  /\ ((0 < target_prob)%Q ->
      exists blocks fuel0,
        forall fuel, (fuel0 <= fuel)%nat ->
                     get_min_expected_blocks fuel minutes target_prob = Some blocks)
  /\ ((target_prob <= 0)%Q ->
      forall fuel, get_min_expected_blocks fuel minutes target_prob = None).
Proof.
  intros Hm. split; [|split; [|split]].
  - intros k. apply prob_decreasing. assumption.
  - intros eps Heps. destruct (prob_vanishes minutes Heps) as [N HN].
    exists N. intros n Hn. split; [apply prob_nonneg; assumption | auto].
  - apply block_search_terminates.
  - intros Hc fuel. apply loop_never. intros j Hj.
    apply Qle_Rle in Hc.
    replace (Q2R 0) with 0%R in Hc by (unfold Q2R; simpl; lra).
    assert (H := prob_nonneg j Hm). lra.
Qed.

Lemma get_min_expected_blocks_termination_witness :
  (exists blocks fuel0,
      forall fuel, (fuel0 <= fuel)%nat ->
                   get_min_expected_blocks fuel (10 # 1) (1 # 2) = Some blocks)
  /\ forall fuel, get_min_expected_blocks fuel (10 # 1) (0 # 1) = None.
Proof.
  assert (Hm : (0 <= 10 # 1)%Q) by (vm_compute; discriminate).
  split.
  - destruct (get_min_expected_blocks_termination (1 # 2) Hm) as (_ & _ & H & _).
    apply H. reflexivity.
  - destruct (get_min_expected_blocks_termination (0 # 1) Hm) as (_ & _ & _ & H).
    apply H. vm_compute; discriminate.
Defined.

(** ** Confidence and the number of blocks *)

Section OneExpectedBlock.
Local Open Scope R_scope.

Lemma inv_exp_1_bounds : 1 / 3 <= / exp 1 <= 1 / 2.
Proof.
  assert (H3 := exp_le_3). assert (H2 := exp_ineq1_le 1).
  assert (Hp : 0 < exp 1) by apply exp_pos.
  split.
  - unfold Rdiv. rewrite Rmult_1_l. apply Rinv_le_contravar; lra.
  - unfold Rdiv. rewrite Rmult_1_l. apply Rinv_le_contravar; lra.
Qed.

Lemma prob_10_minutes_0_blocks :
  get_prob_of_min_blocks (10 # 1) 0 = 1 - / exp 1.
Proof.
  unfold get_prob_of_min_blocks, poisson_cdf, constants.TARGET_BLOCK_TIME_MINUTES, Q2R.
  simpl. replace (10 * / 1 / 10) with 1 by field. rewrite exp_Ropp. field.
  apply Rgt_not_eq, exp_pos.
Qed.

Lemma prob_10_minutes_1_block :
  get_prob_of_min_blocks (10 # 1) 1 = 1 - 2 * / exp 1.
Proof.
  unfold get_prob_of_min_blocks, poisson_cdf, constants.TARGET_BLOCK_TIME_MINUTES, Q2R.
  simpl. replace (10 * / 1 / 10) with 1 by field. rewrite exp_Ropp. field.
  apply Rgt_not_eq, exp_pos.
Qed.
End OneExpectedBlock.

Lemma get_min_expected_blocks_confidence_counterexample :
  (1 # 2 <= 9 # 10)%Q
  /\ get_min_expected_blocks 2 (10 # 1) (9 # 10) = Some 0%nat
  /\ get_min_expected_blocks 2 (10 # 1) (1 # 2) = Some 1%nat
  /\ ~ (0 >= 1)%nat.
Proof.
  assert (H := inv_exp_1_bounds).
  split; [vm_compute; discriminate|]. split; [|split; [|lia]].
  - unfold get_min_expected_blocks. simpl.
    rewrite prob_10_minutes_0_blocks.
    destruct (Rlt_dec _ _) as [_|N]; [reflexivity|].
    exfalso. apply N. unfold Q2R. simpl. lra.
  - unfold get_min_expected_blocks. simpl.
    rewrite prob_10_minutes_0_blocks, prob_10_minutes_1_block.
    destruct (Rlt_dec _ _) as [L|_].
    + exfalso. unfold Q2R in L. simpl in L. lra.
    + destruct (Rlt_dec _ _) as [_|N]; [reflexivity|].
      exfalso. apply N. unfold Q2R. simpl. lra.
Qed.

(** Claim C2, as the code has it.  For a window [minutes >= 0] and
    confidences [0 < c2 <= c1], both searches return and
    [get_min_expected_blocks(minutes, c1) <= get_min_expected_blocks(minutes, c2)]:
    the function is non-increasing in the confidence.  Each result [k] is
    the least number of blocks with [P(Poisson(minutes / 10) > k) < c]. *)
Theorem get_min_expected_blocks_antitone (minutes c1 c2 : Q) :
  (0 <= minutes)%Q -> (0 < c2)%Q -> (c2 <= c1)%Q ->
  exists k1 k2 fuel0,
    (forall fuel, (fuel0 <= fuel)%nat ->
                  get_min_expected_blocks fuel minutes c1 = Some k1
                  /\ get_min_expected_blocks fuel minutes c2 = Some k2)
    /\ (k1 <= k2)%nat
    /\ ((get_prob_of_min_blocks minutes k1 < Q2R c1)%R
        /\ forall j, (j < k1)%nat -> ~ (get_prob_of_min_blocks minutes j < Q2R c1)%R)
    /\ ((get_prob_of_min_blocks minutes k2 < Q2R c2)%R
        /\ forall j, (j < k2)%nat -> ~ (get_prob_of_min_blocks minutes j < Q2R c2)%R).
Proof.
  intros Hm H2 H12.
  assert (H1 : (0 < c1)%Q) by (eapply Qlt_le_trans; eauto).
  destruct (block_search_terminates minutes H1) as (k1 & f1 & Hk1).
  destruct (block_search_terminates minutes H2) as (k2 & f2 & Hk2).
  exists k1, k2, (Nat.max f1 f2).
  assert (E1 := Hk1 f1 (Nat.le_refl _)). assert (E2 := Hk2 f2 (Nat.le_refl _)).
  apply loop_sound in E1. apply loop_sound in E2.
  destruct E1 as (_ & P1 & L1). destruct E2 as (_ & P2 & L2).
  apply Qle_Rle in H12.
  split; [|split; [|split; split]].
  - intros fuel Hf. split; [apply Hk1 | apply Hk2]; lia.
  - destruct (le_lt_dec k1 k2) as [Hle|Hlt]; [assumption|].
    exfalso. apply (L1 k2); [lia | lra].
  - assumption.
  - intros j Hj. apply L1. lia.
  - assumption.
  - intros j Hj. apply L2. lia.
Qed.

Lemma get_min_expected_blocks_antitone_witness :
  exists k1 k2 fuel0,
    (forall fuel, (fuel0 <= fuel)%nat ->
                  get_min_expected_blocks fuel (60 # 1) (9 # 10) = Some k1
                  /\ get_min_expected_blocks fuel (60 # 1) (1 # 2) = Some k2)
    /\ (k1 <= k2)%nat.
Proof.
  destruct (@get_min_expected_blocks_antitone (60 # 1) (9 # 10) (1 # 2))
    as (k1 & k2 & f & H & Hle & _).
  - vm_compute; discriminate.
  - reflexivity.
  - vm_compute; discriminate.
  - exists k1, k2, f. split; assumption.
Defined.

(** ** Order on estimates *)

Ltac estimate_cases :=
  unfold estimate_le, estimate_leb, py_min, estimate_ltb in *;
  repeat match goal with
         | e : estimate |- _ => destruct e
         end;
  simpl in *;
  repeat match goal with
         | |- context [?x <? ?y] => destruct (Z.ltb_spec x y)
         | H : context [?x <? ?y] |- _ => destruct (Z.ltb_spec x y)
         end;
  simpl in *; try congruence; try lia; try (f_equal; lia).

Lemma estimate_le_refl a : estimate_le a a.
Proof. estimate_cases. Qed.

Lemma estimate_le_trans a b c :
  estimate_le a b -> estimate_le b c -> estimate_le a c.
Proof. intros H1 H2. estimate_cases. Qed.

Lemma estimate_le_inf a : estimate_le a POSITIVE_INFINITY.
Proof. estimate_cases. Qed.

Lemma py_min_le_l a b : estimate_le (py_min a b) a.
Proof. estimate_cases. Qed.

Lemma py_min_le_r a b : estimate_le (py_min a b) b.
Proof. estimate_cases. Qed.

Lemma py_min_absorb a b : estimate_le a b -> py_min a b = a.
Proof. intros H. estimate_cases. Qed.

Lemma py_min_glb a b c :
  estimate_le c a -> estimate_le c b -> estimate_le c (py_min a b).
Proof. intros H1 H2. estimate_cases. Qed.

Lemma py_min_inf_l a : py_min POSITIVE_INFINITY a = a.
Proof. estimate_cases. Qed.

Lemma py_min_cases a b : py_min a b = a \/ py_min a b = b.
Proof. unfold py_min. destruct (estimate_ltb b a); auto. Qed.

(** ** The decreasing-fee correction *)

Section CorrectionFacts.
Variables W C : Type.
Variable W_eq_dec : forall a b : W, {a = b} + {a <> b}.
Variable C_eq_dec : forall a b : C, {a = b} + {a <> b}.

Local Abbreviation ent := (entry W_eq_dec C_eq_dec).
Local Abbreviation ent_inf := (entry_or_inf W_eq_dec C_eq_dec).
Local Abbreviation rmin := (running_min W_eq_dec C_eq_dec).
Local Abbreviation step := (correction_step W_eq_dec C_eq_dec).
Local Abbreviation pass := (correction_for_confidence W_eq_dec C_eq_dec).
Local Abbreviation correct := (correction_decreasing_fees W_eq_dec C_eq_dec).
Local Abbreviation covers := (table_covers W_eq_dec C_eq_dec).

Implicit Types (e est : table W C) (w : W) (c : C) (m v : estimate).

(** One iteration rewrites exactly the entry it visits. *)
Lemma correction_step_entry e w c m v :
  ent e w c = Some v ->
  exists e',
    step c (Return (m, e)) w = Return (py_min m v, e')
    /\ ent e' w c = Some (py_min m v)
    /\ forall w' c', w' <> w \/ c' <> c -> ent e' w' c' = ent e w' c'.
Proof.
  unfold entry, correction_step, dict_lookup. simpl.
  destruct (dict_get W_eq_dec e w) as [row|] eqn:Hrow; [|discriminate].
  simpl. intros Hv. rewrite Hv. simpl. eexists. split; [reflexivity|]. split.
  - rewrite !dict_get_set_same. reflexivity.
  - intros w' c' Hne. destruct (W_eq_dec w' w) as [->|Nw].
    + rewrite dict_get_set_same, Hrow.
      destruct Hne as [Hne|Hne]; [congruence|].
      apply dict_get_set_other. congruence.
    + rewrite dict_get_set_other by congruence. reflexivity.
Qed.

Lemma running_min_snoc est c l w :
  rmin est c (l ++ [w]) = py_min (rmin est c l) (ent_inf est w c).
Proof. unfold running_min. rewrite fold_left_app. reflexivity. Qed.

Lemma running_min_app_le est c l l' :
  estimate_le (rmin est c (l ++ l')) (rmin est c l).
Proof.
  induction l' as [|w l' IH] using rev_ind.
  - rewrite app_nil_r. apply estimate_le_refl.
  - rewrite app_assoc, running_min_snoc.
    eapply estimate_le_trans; [apply py_min_le_l | exact IH].
Qed.

Lemma running_min_le_entry est c l w :
  In w l -> estimate_le (rmin est c l) (ent_inf est w c).
Proof.
  intros Hin. apply in_split in Hin. destruct Hin as (p & s & ->).
  change (p ++ w :: s) with (p ++ [w] ++ s). rewrite app_assoc.
  eapply estimate_le_trans; [apply running_min_app_le|].
  rewrite running_min_snoc. apply py_min_le_r.
Qed.

Lemma running_min_ext est est' c l :
  (forall w, In w l -> ent_inf est' w c = ent_inf est w c) ->
  rmin est' c l = rmin est c l.
Proof.
  induction l as [|w l IH] using rev_ind; intros H; [reflexivity|].
  rewrite !running_min_snoc, IH, H.
  - reflexivity.
  - apply in_or_app. simpl. auto.
  - intros w' Hw'. apply H. apply in_or_app. auto.
Qed.

(** Running minima of running minima are the running minima. *)
Lemma running_min_idem est est' c l :
  (forall p w s, l = p ++ w :: s ->
                 ent_inf est' w c = rmin est c (p ++ [w])) ->
  rmin est' c l = rmin est c l.
Proof.
  induction l as [|w l IH] using rev_ind; intros H; [reflexivity|].
  rewrite (running_min_snoc est'), running_min_snoc, IH.
  2:{ intros p w0 s E. apply (H p w0 (s ++ [w])). subst.
      rewrite <- app_assoc. reflexivity. }
  rewrite (H l w [] eq_refl), running_min_snoc.
  set (a := rmin est c l). set (b := ent_inf est w c).
  clearbody a b. estimate_cases.
Qed.

(** State of the inner loop after the windows of [l], none of them
    visited twice. *)
Lemma correction_windows est c l :
  NoDup l ->
  (forall w, In w l -> exists v, ent est w c = Some v) ->
  exists e,
    fold_left (step c) l (Return (POSITIVE_INFINITY, est))
    = Return (rmin est c l, e)
    /\ (forall w c', ~ In w l \/ c' <> c -> ent e w c' = ent est w c')
    /\ (forall p w s, l = p ++ w :: s ->
                      ent e w c = Some (rmin est c (p ++ [w]))).
Proof.
  induction l as [|w l IH] using rev_ind; intros Hnd Hcov.
  - exists est. split; [reflexivity|]. split; [reflexivity|].
    intros p w s E. destruct p; discriminate.
  - apply NoDup_remove in Hnd. rewrite app_nil_r in Hnd. destruct Hnd as [Hnd Hw].
    destruct IH as (e & Hrun & Hout & Hin); [assumption | |].
    { intros w' Hw'. apply Hcov. apply in_or_app. auto. }
    destruct (Hcov w) as [v Hv]; [apply in_or_app; simpl; auto|].
    assert (ent e w c = Some v) as Hv' by (rewrite Hout; auto).
    destruct (@correction_step_entry e w c (rmin est c l) v Hv')
      as (e' & Hstep & Hnew & Hold).
    assert (py_min (rmin est c l) v = rmin est c (l ++ [w])) as Hm.
    { rewrite running_min_snoc. unfold entry_or_inf. rewrite Hv. reflexivity. }
    rewrite Hm in *.
    exists e'. split; [|split].
    + rewrite fold_left_app, Hrun. exact Hstep.
    + intros w' c' H. rewrite Hold, Hout.
      * reflexivity.
      * destruct H as [H|H]; [left; intros F; apply H; apply in_or_app; auto | auto].
      * destruct H as [H|H]; [left; intros ->; apply H; apply in_or_app; simpl; auto
                             | auto].
    + intros p w0 s E. destruct s as [|x s] using rev_ind.
      * apply app_inj_tail in E. destruct E as [-> ->]. exact Hnew.
      * clear IHs. rewrite app_comm_cons, app_assoc in E.
        apply app_inj_tail in E. destruct E as [-> ->].
        rewrite Hold; [apply (Hin p w0 s); reflexivity|].
        left. intros ->. apply Hw. apply in_or_app. simpl. auto.
Qed.

(** Effect of one pass of the outer loop. *)
Lemma correction_for_confidence_spec est c lw :
  NoDup lw ->
  (forall w, In w lw -> exists v, ent est w c = Some v) ->
  exists e,
    pass lw (Return est) c = Return e
    /\ (forall w c', ~ In w lw \/ c' <> c -> ent e w c' = ent est w c')
    /\ (forall p w s, lw = p ++ w :: s ->
                      ent e w c = Some (rmin est c (p ++ [w]))).
Proof.
  intros Hnd Hcov.
  destruct (@correction_windows est c lw Hnd Hcov) as (e & Hrun & Hout & Hin).
  exists e. unfold correction_for_confidence. simpl. rewrite Hrun. simpl. auto.
Qed.

Lemma running_min_attained est c l :
  l <> [] -> exists w, In w l /\ ent_inf est w c = rmin est c l.
Proof.
  induction l as [|x l IH] using rev_ind; intros Hne; [congruence|].
  rewrite running_min_snoc. destruct l as [|y l].
  - exists x. split; [simpl; auto|]. unfold running_min. simpl.
    symmetry. apply py_min_inf_l.
  - destruct IH as (w' & Hin & Hw'); [discriminate|].
    destruct (py_min_cases (rmin est c (y :: l)) (ent_inf est x c)) as [E|E];
      rewrite E.
    + exists w'. split; [apply in_or_app; auto | assumption].
    + exists x. split; [apply in_or_app; simpl; auto | reflexivity].
Qed.

Lemma running_min_is_min est c l :
  l <> [] -> is_min_entry W_eq_dec C_eq_dec est c l (rmin est c l).
Proof.
  intros Hne. split.
  - apply running_min_attained. assumption.
  - intros w Hin. apply running_min_le_entry. assumption.
Qed.

(** The whole correction, on windows that are pairwise distinct. *)
Lemma correction_decreasing_fees_spec est lw lc :
  NoDup lw -> covers est lw lc ->
  exists e,
    correct est lw lc = Return e
    /\ (forall w c, ~ In w lw \/ ~ In c lc -> ent e w c = ent est w c)
    /\ (forall c, In c lc ->
        forall p w s, lw = p ++ w :: s ->
                      ent e w c = Some (rmin est c (p ++ [w]))).
Proof.
  intros Hnd. unfold correction_decreasing_fees.
  induction lc as [|c lc IH] using rev_ind; intros Hcov.
  - exists est. split; [reflexivity|]. split; [reflexivity|]. intros c [].
  - destruct IH as (e & Hrun & Hout & Hin).
    { intros w c' Hw Hc'. apply Hcov; [assumption | apply in_or_app; auto]. }
    assert (forall w, In w lw -> exists v, ent e w c = Some v) as Hcov'.
    { intros w Hw. destruct (in_dec C_eq_dec c lc) as [Hc|Hc].
      - destruct (in_split _ _ Hw) as (p & s & E). rewrite (Hin c Hc p w s E). eauto.
      - rewrite Hout by auto. apply Hcov; [assumption | apply in_or_app; simpl; auto]. }
    destruct (@correction_for_confidence_spec e c lw Hnd Hcov')
      as (e' & Hpass & Hout' & Hin').
    exists e'. split; [|split].
    + rewrite fold_left_app. simpl. rewrite Hrun. exact Hpass.
    + intros w c' H. rewrite Hout', Hout.
      * reflexivity.
      * destruct H as [H|H]; [auto | right; intros F; apply H; apply in_or_app; auto].
      * destruct H as [H|H]; [auto | right; intros ->; apply H; apply in_or_app; simpl; auto].
    + intros c' Hc' p w s E. destruct (C_eq_dec c' c) as [->|N].
      * rewrite (Hin' p w s E). f_equal.
        destruct (in_dec C_eq_dec c lc) as [Hc|Hc].
        -- apply running_min_idem. intros p' w' s' E'. unfold entry_or_inf.
           rewrite (Hin c Hc p' w' (s' ++ s)); [reflexivity|].
           subst lw. change (p ++ w :: s) with (p ++ [w] ++ s).
           rewrite app_assoc, E', <- app_assoc. reflexivity.
        -- apply running_min_ext. intros w' Hw'. unfold entry_or_inf.
           rewrite Hout by auto. reflexivity.
      * rewrite Hout' by auto.
        apply in_app_or in Hc'. destruct Hc' as [Hc'|[Hc'|[]]]; [|congruence].
        apply (Hin c' Hc' p w s E).
Qed.
End CorrectionFacts.

Section CorrectionPreserves.
Variables W C : Type.
Variable W_eq_dec : forall a b : W, {a = b} + {a <> b}.
Variable C_eq_dec : forall a b : C, {a = b} + {a <> b}.
Variable P : estimate -> Prop.
Hypothesis P_min :
  forall a b, a = POSITIVE_INFINITY \/ P a -> P b -> P (py_min a b).

Local Abbreviation ent := (entry W_eq_dec C_eq_dec).
Local Abbreviation step := (correction_step W_eq_dec C_eq_dec).
Local Abbreviation pass := (correction_for_confidence W_eq_dec C_eq_dec).
Local Abbreviation correct := (correction_decreasing_fees W_eq_dec C_eq_dec).
Local Abbreviation covers := (table_covers W_eq_dec C_eq_dec).

Implicit Types (e est : table W C) (w : W) (c : C) (m v : estimate).

Local Abbreviation all_entries := (all_entries W_eq_dec C_eq_dec P).
Local Abbreviation same_shape := (same_shape W_eq_dec C_eq_dec).

Lemma same_shape_refl est : same_shape est est.
Proof. intros w c. tauto. Qed.

Lemma same_shape_trans e1 e2 e3 :
  same_shape e1 e2 -> same_shape e2 e3 -> same_shape e1 e3.
Proof. intros H1 H2 w c. specialize (H1 w c). specialize (H2 w c). tauto. Qed.

Lemma same_shape_covers est e lw lc :
  same_shape est e -> covers est lw lc -> covers e lw lc.
Proof.
  intros Hs Hc w c Hw Hcc. destruct (Hc w c Hw Hcc) as [v Hv].
  destruct (ent e w c) as [v'|] eqn:E; [eauto|].
  apply Hs in E. congruence.
Qed.

Lemma correction_windows_preserves c l m e :
  m = POSITIVE_INFINITY \/ P m ->
  all_entries e ->
  (forall w, In w l -> exists v, ent e w c = Some v) ->
  exists m' e',
    fold_left (step c) l (Return (m, e)) = Return (m', e')
    /\ all_entries e' /\ same_shape e e'.
Proof.
  revert m e. induction l as [|w l IH]; intros m e Hm Hall Hcov; cbn [fold_left].
  - exists m, e. split; [reflexivity|]. split; [assumption | apply same_shape_refl].
  - destruct (Hcov w) as [v Hv]; [simpl; auto|].
    destruct (@correction_step_entry W C W_eq_dec C_eq_dec e w c m v Hv)
      as (e1 & Hstep & Hnew & Hold).
    rewrite Hstep.
    assert (P (py_min m v)) as Hp by (apply P_min; [assumption | eapply Hall; eauto]).
    assert (all_entries e1) as Hall1.
    { intros w' c' v' H'. destruct (W_eq_dec w' w) as [->|Nw].
      - destruct (C_eq_dec c' c) as [->|Nc].
        + rewrite Hnew in H'. injection H' as <-. assumption.
        + rewrite Hold in H' by auto. eapply Hall; eauto.
      - rewrite Hold in H' by auto. eapply Hall; eauto. }
    assert (same_shape e e1) as Hs1.
    { intros w' c'. destruct (W_eq_dec w' w) as [->|Nw].
      - destruct (C_eq_dec c' c) as [->|Nc].
        + rewrite Hnew, Hv. split; discriminate.
        + rewrite Hold by auto. tauto.
      - rewrite Hold by auto. tauto. }
    destruct (IH (py_min m v) e1) as (m' & e' & Hrun & Hall' & Hs'); auto.
    { intros w' Hw'. destruct (Hcov w') as [v' Hv']; [simpl; auto|].
      destruct (ent e1 w' c) as [v1|] eqn:E; [eauto|].
      apply Hs1 in E. congruence. }
    exists m', e'. split; [assumption|]. split; [assumption|].
    eapply same_shape_trans; eauto.
Qed.

(** The correction never raises on a table that covers its arguments,
    keeps the shape of the table, and keeps every property of the entries
    that minima preserve. *)
Lemma correction_decreasing_fees_preserves est lw lc :
  covers est lw lc -> all_entries est ->
  exists e,
    correct est lw lc = Return e /\ all_entries e /\ same_shape est e.
Proof.
  unfold correction_decreasing_fees. revert est.
  induction lc as [|c lc IH]; intros est Hcov Hall; cbn [fold_left].
  - exists est. split; [reflexivity|]. split; [assumption | apply same_shape_refl].
  - unfold correction_for_confidence at 2. cbn [bind].
    destruct (@correction_windows_preserves c lw POSITIVE_INFINITY est)
      as (m' & e1 & Hrun & Hall1 & Hs1); auto.
    { intros w Hw. apply Hcov; simpl; auto. }
    rewrite Hrun. cbn [bind snd].
    destruct (IH e1) as (e & Hfin & Halle & Hse); auto.
    { apply same_shape_covers with (est := est); [assumption|].
      intros w c' Hw Hc'. apply Hcov; simpl; auto. }
    exists e. split; [assumption|]. split; [assumption|].
    eapply same_shape_trans; eauto.
Qed.
End CorrectionPreserves.

(** Windows listed in ascending order are pairwise distinct. *)
Lemma ascending_windows_distinct (list_windows : list Z) :
  StronglySorted Z.lt list_windows -> NoDup list_windows.
Proof.
  induction 1 as [|w rest Hs IH Hall]; constructor; [|assumption].
  intros Hin. rewrite Forall_forall in Hall. specialize (Hall w Hin). lia.
Qed.

(** The correction on three windows: 5, 7, 3 becomes 5, 5, 3. *)
Example correction_decreasing_fees_run :
  correction_decreasing_fees Z.eq_dec Q_eq_dec
    [(30, [((1 # 2)%Q, Finite 5)]); (60, [((1 # 2)%Q, Finite 7)]);
     (120, [((1 # 2)%Q, Finite 3)])]
    [30; 60; 120] [(1 # 2)%Q]
  = Return [(30, [((1 # 2)%Q, Finite 5)]); (60, [((1 # 2)%Q, Finite 5)]);
            (120, [((1 # 2)%Q, Finite 3)])].
Proof. vm_compute. reflexivity. Qed.

(** Claim C4.  On a table that has an entry for every window of
    [list_windows] and confidence of [list_confidence], the windows being
    pairwise distinct (as an ascending list is), the correction returns a
    table in which, for every such confidence, the entry of a window is the
    minimum of the entries the table had for the windows up to and including
    it; the corrected entries are non-increasing along [list_windows], and
    none exceeds the entry it replaces. *)
Theorem correction_decreasing_fees_running_minimum
        (W C : Type)
        (W_eq_dec : forall a b : W, {a = b} + {a <> b})
        (C_eq_dec : forall a b : C, {a = b} + {a <> b})
        (estimates : table W C) (list_windows : list W) (list_confidence : list C) :
  NoDup list_windows ->
  table_covers W_eq_dec C_eq_dec estimates list_windows list_confidence ->
  exists corrected,
    correction_decreasing_fees W_eq_dec C_eq_dec estimates list_windows list_confidence
    = Return corrected
    /\ forall confidence, In confidence list_confidence ->
       (forall before w after,
           list_windows = before ++ w :: after ->
           exists m,
             entry W_eq_dec C_eq_dec corrected w confidence = Some m
             /\ is_min_entry W_eq_dec C_eq_dec estimates confidence (before ++ [w]) m)
       /\ (forall before w between w' after,
              list_windows = before ++ w :: between ++ w' :: after ->
              estimate_le (entry_or_inf W_eq_dec C_eq_dec corrected w' confidence)
                          (entry_or_inf W_eq_dec C_eq_dec corrected w confidence))
       /\ (forall w, In w list_windows ->
                     estimate_le (entry_or_inf W_eq_dec C_eq_dec corrected w confidence)
                                 (entry_or_inf W_eq_dec C_eq_dec estimates w confidence)).
Proof.
  intros Hnd Hcov.
  destruct (correction_decreasing_fees_spec Hnd Hcov) as (e & Hrun & _ & Hin).
  exists e. split; [assumption|]. intros c Hc. split; [|split].
  - intros p w s E. eexists. split; [apply (Hin c Hc p w s E)|].
    apply running_min_is_min. destruct p; discriminate.
  - intros p w q w' s E. unfold entry_or_inf.
    rewrite (Hin c Hc p w (q ++ w' :: s) E).
    rewrite (Hin c Hc (p ++ w :: q) w' s) by (rewrite E, <- app_assoc; reflexivity).
    replace ((p ++ w :: q) ++ [w']) with ((p ++ [w]) ++ (q ++ [w']))
      by (rewrite <- !app_assoc; reflexivity).
    apply running_min_app_le.
  - intros w Hw. destruct (in_split _ _ Hw) as (p & s & E).
    unfold entry_or_inf at 1. rewrite (Hin c Hc p w s E).
    rewrite running_min_snoc. apply py_min_le_r.
Qed.

Lemma correction_decreasing_fees_running_minimum_witness :
  exists corrected,
    correction_decreasing_fees Z.eq_dec Q_eq_dec
      [(30, [((1 # 2)%Q, Finite 5)]); (60, [((1 # 2)%Q, Finite 7)]);
       (120, [((1 # 2)%Q, Finite 3)])]
      [30; 60; 120] [(1 # 2)%Q]
    = Return corrected
    /\ exists m, entry Z.eq_dec Q_eq_dec corrected 60 (1 # 2)%Q = Some m
                 /\ estimate_le m (Finite 7).
Proof.
  destruct (@correction_decreasing_fees_running_minimum
              Z Q Z.eq_dec Q_eq_dec
              [(30, [((1 # 2)%Q, Finite 5)]); (60, [((1 # 2)%Q, Finite 7)]);
               (120, [((1 # 2)%Q, Finite 3)])]
              [30; 60; 120] [(1 # 2)%Q])
    as (e & Hrun & H).
  - repeat constructor; simpl; intuition discriminate.
  - intros w c [<-|[<-|[<-|[]]]] [<-|[]]; vm_compute; eauto.
  - exists e. split; [exact Hrun|].
    destruct (H (1 # 2)%Q (or_introl eq_refl)) as (H1 & _ & H3).
    destruct (H1 [30] 60 [120] eq_refl) as (m & Hm & _).
    exists m. split; [exact Hm|].
    specialize (H3 60 (or_intror (or_introl eq_refl))).
    unfold entry_or_inf in H3 at 1. rewrite Hm in H3. exact H3.
Defined.

(** ** Ranges *)

Lemma range_nil a b : b <= a -> range a b = [].
Proof.
  intros H. unfold range. replace (Z.to_nat (b - a)) with 0%nat by lia. reflexivity.
Qed.

Lemma range_cons a b : a < b -> range a b = a :: range (a + 1) b.
Proof.
  intros H. unfold range.
  replace (Z.to_nat (b - a)) with (S (Z.to_nat (b - (a + 1)))) by lia.
  simpl. f_equal; [lia|].
  rewrite <- seq_shift, map_map. apply map_ext. intros i. lia.
Qed.

Lemma In_range a b r : In r (range a b) <-> a <= r < b.
Proof.
  unfold range. rewrite in_map_iff. split.
  - intros (i & <- & Hi). apply in_seq in Hi. lia.
  - intros H. exists (Z.to_nat (r - a)). split; [lia|]. apply in_seq. lia.
Qed.

(** The first element of a range that passes a test. *)
Lemma find_range (f : Z -> bool) (n : nat) :
  forall a b, Z.to_nat (b - a) = n ->
    match find f (range a b) with
    | Some r => a <= r < b /\ f r = true /\ forall r', a <= r' < r -> f r' = false
    | None => forall r', a <= r' < b -> f r' = false
    end.
Proof.
  induction n as [|n IH]; intros a b Hn.
  - rewrite range_nil by lia. simpl. intros r' Hr'. lia.
  - rewrite range_cons by lia. simpl. destruct (f a) eqn:Fa.
    + split; [lia|]. split; [assumption|]. intros r' Hr'. lia.
    + specialize (IH (a + 1) b). destruct (find f (range (a + 1) b)) as [r|].
      * destruct IH as (H1 & H2 & H3); [lia|]. split; [lia|]. split; [assumption|].
        intros r' Hr'. destruct (Z.eq_dec r' a) as [->|N]; [assumption|].
        apply H3. lia.
      * intros r' Hr'. destruct (Z.eq_dec r' a) as [->|N]; [assumption|].
        apply IH; lia.
Qed.

(** ** The fee-rate search *)

Section FeeRateSearch.
Variables (fuel : nat) (mempool : FeeBuckets.t) (flow : flows).
Variables (minutes : Z) (confidence : Q) (flow_minutes : FeeBuckets.t) (blocks : nat).
Hypothesis Hflow : dict_get Z.eq_dec flow minutes = Some flow_minutes.
Hypothesis Hblocks :
  get_min_expected_blocks fuel (inject_Z minutes) confidence = Some blocks.

Local Abbreviation empties := (empties mempool flow_minutes minutes blocks).

Lemma compute_bucket_end_weight fee_rate :
  compute_bucket fuel (inject_Z minutes) confidence
                 (FeeBuckets.get_aggregate_sup mempool fee_rate)
                 (FeeBuckets.get_aggregate_sup flow_minutes fee_rate)
  = Some (empties fee_rate).
Proof.
  unfold compute_bucket, empties, end_weight. rewrite Hblocks. f_equal.
  apply eq_true_iff_eq. rewrite !Qle_bool_iff.
  set (x := FeeBuckets.get_aggregate_sup mempool fee_rate).
  set (y := FeeBuckets.get_aggregate_sup flow_minutes fee_rate).
  split; intros H; eapply Qle_trans; try exact H; apply Qle_lteq; right; ring.
Qed.

Lemma search_fee_rate_find fee_rates acc :
  search_fee_rate fuel mempool flow minutes confidence fee_rates acc
  = Some (Return (match find empties fee_rates with
                  | Some r => py_min acc (Finite r)
                  | None => acc
                  end)).
Proof.
  induction fee_rates as [|r rest IH]; simpl; [reflexivity|].
  unfold dict_lookup. rewrite Hflow, compute_bucket_end_weight.
  destruct (empties r); [reflexivity | exact IH].
Qed.

Lemma empties_above top :
  FeeBuckets.max_fee_rate mempool <= top ->
  FeeBuckets.max_fee_rate flow_minutes <= top ->
  empties (top + 1) = true.
Proof.
  intros H1 H2. unfold empties, end_weight. apply Qle_bool_iff.
  rewrite !get_aggregate_sup_above by lia.
  assert (0 <= inject_Z (Z.of_nat blocks) * inject_Z constants.BLOCK_CAPACITY_WU)%Q
    as Hlost.
  { apply Qmult_le_0_compat.
    - unfold Qle. simpl. lia.
    - unfold Qle. simpl. lia. }
  revert Hlost.
  generalize (inject_Z (Z.of_nat blocks) * inject_Z constants.BLOCK_CAPACITY_WU)%Q.
  generalize (inject_Z minutes). intros m lost Hlost. Lqa.lra.
Qed.

(** The search over [range(1, max_fee_rate+2)] finds the least fee rate
    that empties the bucket. *)
Lemma search_fee_rate_least max_fee_rate :
  0 <= max_fee_rate ->
  FeeBuckets.max_fee_rate mempool <= max_fee_rate ->
  FeeBuckets.max_fee_rate flow_minutes <= max_fee_rate ->
  exists r,
    search_fee_rate fuel mempool flow minutes confidence
                    (range 1 (max_fee_rate + 2)) POSITIVE_INFINITY
    = Some (Return (Finite r))
    /\ 1 <= r <= max_fee_rate + 1
    /\ empties r = true
    /\ forall r', 1 <= r' -> empties r' = true -> r <= r'.
Proof.
  intros H0 H1 H2. rewrite search_fee_rate_find.
  assert (Hf := @find_range empties _ 1 (max_fee_rate + 2) eq_refl).
  destruct (find empties (range 1 (max_fee_rate + 2))) as [r|].
  - destruct Hf as (Hr & He & Hfirst). exists r.
    split; [rewrite py_min_inf_l; reflexivity|].
    split; [lia|]. split; [assumption|].
    intros r' Hr' He'. destruct (Z_lt_le_dec r' r) as [Hlt|Hle]; [|assumption].
    rewrite Hfirst in He' by lia. discriminate.
  - assert (E := empties_above H1 H2).
    rewrite (Hf (max_fee_rate + 1)) in E by lia. discriminate.
Qed.
End FeeRateSearch.

(** ** Building the table *)

Lemma fuel_for_block_searches (l : list (Q * Q)) :
  (forall mc, In mc l -> (0 < snd mc)%Q) ->
  exists fuel0,
    forall fuel, (fuel0 <= fuel)%nat ->
    forall mc, In mc l ->
    exists blocks, get_min_expected_blocks fuel (fst mc) (snd mc) = Some blocks.
Proof.
  induction l as [|[m c] l IH]; intros H.
  - exists 0%nat. intros fuel _ mc [].
  - destruct IH as [f1 H1]; [intros mc Hmc; apply H; simpl; auto|].
    destruct (@block_search_terminates m c) as (blocks & f2 & H2).
    { apply (H (m, c)). simpl. auto. }
    exists (Nat.max f1 f2). intros fuel Hf mc [<-|Hmc].
    + exists blocks. apply H2. lia.
    + apply H1; [lia | assumption].
Qed.

Lemma targets_confidence_positive c :
  In c constants.TARGETS_CONFIDENCE -> (0 < c <= 1)%Q.
Proof.
  unfold constants.TARGETS_CONFIDENCE. simpl.
  intros [<-|[<-|[<-|[]]]]; split; try reflexivity; vm_compute; discriminate.
Qed.

Lemma fuel_for_targets (targets_minute : list Z) :
  exists fuel0,
    forall fuel, (fuel0 <= fuel)%nat ->
    forall m c, In m targets_minute -> In c constants.TARGETS_CONFIDENCE ->
    exists blocks, get_min_expected_blocks fuel (inject_Z m) c = Some blocks.
Proof.
  destruct (@fuel_for_block_searches
              (list_prod (map inject_Z targets_minute) constants.TARGETS_CONFIDENCE))
    as [fuel0 H].
  - intros [m c] Hmc. apply in_prod_iff in Hmc.
    apply targets_confidence_positive. apply Hmc.
  - exists fuel0. intros fuel Hf m c Hm Hc.
    apply (H fuel Hf (inject_Z m, c)). apply in_prod; [apply in_map|]; assumption.
Qed.

Section TableLoops.
Variables (fuel : nat) (mempool : FeeBuckets.t) (flow : flows) (max_fee_rate : Z).

Local Abbreviation search minutes confidence :=
  (search_fee_rate fuel mempool flow minutes confidence
                   (range 1 (max_fee_rate + 2)) POSITIVE_INFINITY).

Lemma estimates_for_window_spec minutes confidences :
  forall row,
    (forall c, In c confidences -> exists v, search minutes c = Some (Return v)) ->
    exists row',
      estimates_for_window fuel mempool flow max_fee_rate minutes confidences row
      = Some (Return row')
      /\ (forall c v, In c confidences -> search minutes c = Some (Return v) ->
                      dict_get Q_eq_dec row' c = Some v)
      /\ (forall c, ~ In c confidences ->
                    dict_get Q_eq_dec row' c = dict_get Q_eq_dec row c).
Proof.
  induction confidences as [|c0 rest IH]; intros row H;
    cbn [estimates_for_window].
  - exists row. split; [reflexivity|]. split; [intros c v []|reflexivity].
  - destruct (H c0) as [v0 Hv0]; [simpl; auto|]. rewrite Hv0.
    destruct (IH (dict_set Q_eq_dec row c0 v0)) as (row' & Hrun & Hin & Hout).
    { intros c Hc. apply H. simpl. auto. }
    exists row'. split; [assumption|]. split.
    + intros c v [<-|Hc] Hv.
      * destruct (in_dec Q_eq_dec c0 rest) as [Hr|Hr]; [auto|].
        rewrite Hout by assumption. rewrite dict_get_set_same. congruence.
      * auto.
    + intros c Hc. rewrite Hout by (intros F; apply Hc; simpl; auto).
      apply dict_get_set_other. intros ->. apply Hc. simpl. auto.
Qed.

Local Abbreviation window_row minutes :=
  (estimates_for_window fuel mempool flow max_fee_rate minutes
                        constants.TARGETS_CONFIDENCE []).

Lemma estimates_for_windows_spec targets_minute :
  forall output,
    (forall m, In m targets_minute -> exists row, window_row m = Some (Return row)) ->
    exists output',
      estimates_for_windows fuel mempool flow max_fee_rate targets_minute output
      = Some (Return output')
      /\ (forall m row, In m targets_minute -> window_row m = Some (Return row) ->
                        dict_get Z.eq_dec output' m = Some row)
      /\ (forall m, ~ In m targets_minute ->
                    dict_get Z.eq_dec output' m = dict_get Z.eq_dec output m).
Proof.
  induction targets_minute as [|m0 rest IH]; intros output H;
    cbn [estimates_for_windows].
  - exists output. split; [reflexivity|]. split; [intros m row []|reflexivity].
  - destruct (H m0) as [row0 Hrow0]; [simpl; auto|]. rewrite Hrow0.
    destruct (IH (dict_set Z.eq_dec output m0 row0)) as (output' & Hrun & Hin & Hout).
    { intros m Hm. apply H. simpl. auto. }
    exists output'. split; [assumption|]. split.
    + intros m row [<-|Hm] Hrow.
      * destruct (in_dec Z.eq_dec m0 rest) as [Hr|Hr]; [auto|].
        rewrite Hout by assumption. rewrite dict_get_set_same. congruence.
      * auto.
    + intros m Hm. rewrite Hout by (intros F; apply Hm; simpl; auto).
      apply dict_get_set_other. intros ->. apply Hm. simpl. auto.
Qed.
End TableLoops.

Lemma overall_max_fee_rate_bounds (mempool : FeeBuckets.t) (flow : flows) :
  flow <> [] ->
  exists max_fee_rate,
    overall_max_fee_rate mempool flow = Return max_fee_rate
    /\ FeeBuckets.max_fee_rate mempool <= max_fee_rate
    /\ forall m fb, dict_get Z.eq_dec flow m = Some fb ->
                    FeeBuckets.max_fee_rate fb <= max_fee_rate.
Proof.
  intros Hne. unfold overall_max_fee_rate, py_max.
  destruct flow as [|[m0 fb0] rest]; [congruence|].
  exists (Z.max (FeeBuckets.max_fee_rate mempool)
                (fold_left Z.max (map (fun x => FeeBuckets.max_fee_rate (snd x)) rest)
                           (FeeBuckets.max_fee_rate fb0))).
  split; [reflexivity|]. split; [lia|].
  intros m fb Hget. apply dict_get_In in Hget.
  destruct (max_fee_rate_loop (map (fun x => FeeBuckets.max_fee_rate (snd x)) rest)
                              (FeeBuckets.max_fee_rate fb0)) as [H1 H2].
  destruct Hget as [E|Hin].
  - injection E as _ <-. lia.
  - assert (FeeBuckets.max_fee_rate fb
            <= fold_left Z.max (map (fun x => FeeBuckets.max_fee_rate (snd x)) rest)
                         (FeeBuckets.max_fee_rate fb0)); [|lia].
    apply H2. apply in_map_iff. exists (m, fb). auto.
Qed.

(** The table before the correction: it has an entry exactly for the
    target windows and confidence levels, and each one is the least fee rate
    that empties its bucket. *)
Lemma estimates_before_correction_spec
      (mempool : FeeBuckets.t) (flow : flows) (targets_minute : list Z) :
  FeeBuckets.keys_normalized mempool ->
  flow <> [] ->
  (forall m, In m targets_minute -> exists fl, dict_get Z.eq_dec flow m = Some fl) ->
  exists max_fee_rate fuel0,
    overall_max_fee_rate mempool flow = Return max_fee_rate
    /\ FeeBuckets.max_fee_rate mempool <= max_fee_rate
    /\ (forall m fb, dict_get Z.eq_dec flow m = Some fb ->
                     FeeBuckets.max_fee_rate fb <= max_fee_rate)
    /\ forall fuel, (fuel0 <= fuel)%nat ->
       exists output,
         estimates_before_correction fuel mempool flow targets_minute
         = Some (Return output)
         /\ (forall m c, In m targets_minute -> In c constants.TARGETS_CONFIDENCE ->
             exists fl blocks r,
               dict_get Z.eq_dec flow m = Some fl
               /\ get_min_expected_blocks fuel (inject_Z m) c = Some blocks
               /\ entry Z.eq_dec Q_eq_dec output m c = Some (Finite r)
               /\ 1 <= r <= max_fee_rate + 1
               /\ empties mempool fl m blocks r = true
               /\ forall r', 1 <= r' -> empties mempool fl m blocks r' = true -> r <= r')
         /\ (forall m c v, entry Z.eq_dec Q_eq_dec output m c = Some v ->
                           In m targets_minute /\ In c constants.TARGETS_CONFIDENCE).
Proof.
  intros Hnorm Hne Hcov.
  destruct (overall_max_fee_rate_bounds mempool Hne) as (mx & Hmx & Hmem & Hfl).
  destruct (fuel_for_targets targets_minute) as [fuel0 Hfuel].
  assert (0 <= mx) as Hpos by (apply max_fee_rate_nonneg in Hnorm; lia).
  exists mx, fuel0. split; [assumption|]. split; [assumption|]. split; [assumption|].
  intros fuel Hf. unfold estimates_before_correction. rewrite Hmx.
  assert (forall m c, In m targets_minute -> In c constants.TARGETS_CONFIDENCE ->
            exists fl blocks r,
              dict_get Z.eq_dec flow m = Some fl
              /\ get_min_expected_blocks fuel (inject_Z m) c = Some blocks
              /\ search_fee_rate fuel mempool flow m c (range 1 (mx + 2)) POSITIVE_INFINITY
                 = Some (Return (Finite r))
              /\ 1 <= r <= mx + 1
              /\ empties mempool fl m blocks r = true
              /\ forall r', 1 <= r' -> empties mempool fl m blocks r' = true -> r <= r')
    as Hsearch.
  { intros m c Hm Hc. destruct (Hcov m Hm) as [fl Hflm].
    destruct (Hfuel fuel Hf m c Hm Hc) as [blocks Hb].
    destruct (@search_fee_rate_least fuel mempool flow m c fl blocks Hflm Hb mx)
      as (r & H1 & H2 & H3 & H4); [assumption | assumption | eapply Hfl; eauto |].
    exists fl, blocks, r. auto 10. }
  assert (forall m, In m targets_minute ->
            exists row,
              estimates_for_window fuel mempool flow mx m constants.TARGETS_CONFIDENCE []
              = Some (Return row)
              /\ (forall c v, In c constants.TARGETS_CONFIDENCE ->
                    search_fee_rate fuel mempool flow m c (range 1 (mx + 2))
                                    POSITIVE_INFINITY = Some (Return v) ->
                    dict_get Q_eq_dec row c = Some v)
              /\ (forall c, ~ In c constants.TARGETS_CONFIDENCE ->
                            dict_get Q_eq_dec row c = None)) as Hrows.
  { intros m Hm.
    destruct (@estimates_for_window_spec fuel mempool flow mx m
                                         constants.TARGETS_CONFIDENCE [])
      as (row & Hrun & Hin & Hout).
    - intros c Hc. destruct (Hsearch m c Hm Hc) as (fl & blocks & r & _ & _ & H & _).
      eauto.
    - exists row. split; [assumption|]. split; [assumption|].
      intros c Hc. rewrite Hout by assumption. reflexivity. }
  destruct (@estimates_for_windows_spec fuel mempool flow mx targets_minute [])
    as (output & Hrun & Hin & Hout).
  { intros m Hm. destruct (Hrows m Hm) as (row & H & _). eauto. }
  exists output. split; [assumption|]. split.
  - intros m c Hm Hc.
    destruct (Hsearch m c Hm Hc) as (fl & blocks & r & H1 & H2 & H3 & H4 & H5 & H6).
    destruct (Hrows m Hm) as (row & Hrow & Hrin & _).
    exists fl, blocks, r. repeat (split; [assumption|]).
    split; [|auto]. unfold entry. rewrite (Hin m row Hm Hrow). apply Hrin; assumption.
  - intros m c v. unfold entry.
    destruct (in_dec Z.eq_dec m targets_minute) as [Hm|Hm].
    + destruct (Hrows m Hm) as (row & Hrow & _ & Hrout).
      rewrite (Hin m row Hm Hrow).
      destruct (in_dec Q_eq_dec c constants.TARGETS_CONFIDENCE) as [Hc|Hc]; [auto|].
      rewrite Hrout by assumption. discriminate.
    + rewrite Hout by assumption. simpl. discriminate.
Qed.

(** Claim C1.  For a mempool bucket with normalised keys, a flow mapping
    with a bucket for every target window (each window [>= 0]), a window [m]
    of the targets and a confidence [c] of [TARGETS_CONFIDENCE] (all of them
    in [(0, 1]]): with enough fuel for the block searches, the table before
    the correction holds at [(m, c)] a finite fee rate [r >= 1] with
    [mempool.get_aggregate_sup(r) + flow[m].get_aggregate_sup(r) * m
     - get_min_expected_blocks(m, c) * BLOCK_CAPACITY_WU <= 0], and no fee
    rate [r' >= 1] below [r] satisfies that inequality. *)
Theorem estimate_is_least_emptying_fee_rate
        (mempool : FeeBuckets.t) (flow : flows) (targets_minute : list Z)
        (m : Z) (c : Q) :
  FeeBuckets.keys_normalized mempool ->
  (forall m', In m' targets_minute ->
              0 <= m' /\ exists fl, dict_get Z.eq_dec flow m' = Some fl) ->
  In m targets_minute ->
  In c constants.TARGETS_CONFIDENCE ->
  (0 < c <= 1)%Q
  /\ exists fuel0,
      forall fuel, (fuel0 <= fuel)%nat ->
      exists output flow_m blocks r,
        estimates_before_correction fuel mempool flow targets_minute
        = Some (Return output)
        /\ dict_get Z.eq_dec flow m = Some flow_m
        /\ get_min_expected_blocks fuel (inject_Z m) c = Some blocks
        /\ entry Z.eq_dec Q_eq_dec output m c = Some (Finite r)
        /\ 1 <= r
        /\ (end_weight mempool flow_m m blocks r <= 0)%Q
        /\ (forall r', 1 <= r' ->
                       (end_weight mempool flow_m m blocks r' <= 0)%Q -> r <= r')
        /\ compute_bucket fuel (inject_Z m) c
                          (FeeBuckets.get_aggregate_sup mempool r)
                          (FeeBuckets.get_aggregate_sup flow_m r) = Some true
        /\ (forall r', 1 <= r' < r ->
                       compute_bucket fuel (inject_Z m) c
                                      (FeeBuckets.get_aggregate_sup mempool r')
                                      (FeeBuckets.get_aggregate_sup flow_m r')
                       = Some false).
Proof.
  intros Hnorm Hcov Hm Hc. split; [apply targets_confidence_positive; assumption|].
  assert (flow <> []) as Hne.
  { destruct (Hcov m Hm) as (_ & fl & Hfl). intros ->. discriminate. }
  destruct (@estimates_before_correction_spec mempool flow targets_minute)
    as (mx & fuel0 & _ & _ & _ & H); [assumption | assumption | |].
  { intros m' Hm'. apply Hcov. assumption. }
  exists fuel0. intros fuel Hf. destruct (H fuel Hf) as (output & Hrun & Hin & _).
  destruct (Hin m c Hm Hc) as (fl & blocks & r & H1 & H2 & H3 & H4 & H5 & H6).
  exists output, fl, blocks, r. repeat (split; [assumption|]).
  split; [lia|]. split; [|split; [|split]].
  - apply Qle_bool_iff. exact H5.
  - intros r' Hr' He. apply H6; [assumption|]. apply Qle_bool_iff. exact He.
  - rewrite (@compute_bucket_end_weight fuel mempool m c fl blocks H2 r).
    f_equal. exact H5.
  - intros r' Hr'.
    rewrite (@compute_bucket_end_weight fuel mempool m c fl blocks H2 r').
    f_equal. destruct (empties mempool fl m blocks r') eqn:E; [|reflexivity].
    apply H6 in E; lia.
Qed.

Lemma estimate_is_least_emptying_fee_rate_witness :
  exists fuel0,
    forall fuel, (fuel0 <= fuel)%nat ->
    exists output flow_m blocks r,
      estimates_before_correction fuel [(5, (1000000 # 1)%Q)] [(60, [])] [60]
      = Some (Return output)
      /\ dict_get Z.eq_dec [(60, [])] 60 = Some flow_m
      /\ get_min_expected_blocks fuel (inject_Z 60) (1 # 2) = Some blocks
      /\ entry Z.eq_dec Q_eq_dec output 60 (1 # 2)%Q = Some (Finite r)
      /\ 1 <= r
      /\ (end_weight [(5%Z, 1000000 # 1)] flow_m 60%Z blocks r <= 0)%Q
      /\ forall r', 1 <= r' ->
                    (end_weight [(5%Z, 1000000 # 1)] flow_m 60%Z blocks r' <= 0)%Q ->
                    r <= r'.
Proof.
  destruct (@estimate_is_least_emptying_fee_rate
              [(5, (1000000 # 1)%Q)] [(60, [])] [60] 60 (1 # 2)%Q) as (_ & fuel0 & H).
  - repeat constructor; vm_compute; discriminate.
  - intros m' [<-|[]]. split; [lia|]. simpl. eauto.
  - simpl. auto.
  - simpl. auto.
  - exists fuel0. intros fuel Hf.
    destruct (H fuel Hf)
      as (output & flow_m & blocks & r & H1 & H2 & H3 & H4 & H5 & H6 & H7 & _).
    exists output, flow_m, blocks, r. auto 10.
Defined.

(** Claim C9.  For a mempool bucket with normalised keys and a non-empty
    flow mapping with a bucket for every target window (each window
    [>= 0]): both aggregate sums are 0 at [max_fee_rate + 1] and
    [compute_bucket] yields [True] there; with enough fuel
    [compute_estimates_by_minute] returns a table that has an entry for
    every target window and confidence, and every entry of it is a finite
    fee rate between 1 and [max_fee_rate + 1]. *)
Theorem compute_estimates_by_minute_finite
        (mempool : FeeBuckets.t) (flow : flows) (targets_minute : list Z) :
  FeeBuckets.keys_normalized mempool ->
  flow <> [] ->
  (forall m, In m targets_minute ->
             0 <= m /\ exists fl, dict_get Z.eq_dec flow m = Some fl) ->
  exists max_fee_rate fuel0,
    overall_max_fee_rate mempool flow = Return max_fee_rate
    /\ (forall fuel m c fl blocks,
           dict_get Z.eq_dec flow m = Some fl ->
           get_min_expected_blocks fuel (inject_Z m) c = Some blocks ->
           (FeeBuckets.get_aggregate_sup mempool (max_fee_rate + 1) == 0)%Q
           /\ (FeeBuckets.get_aggregate_sup fl (max_fee_rate + 1) == 0)%Q
           /\ compute_bucket fuel (inject_Z m) c
                             (FeeBuckets.get_aggregate_sup mempool (max_fee_rate + 1))
                             (FeeBuckets.get_aggregate_sup fl (max_fee_rate + 1))
              = Some true)
    /\ forall fuel, (fuel0 <= fuel)%nat ->
       exists output,
         compute_estimates_by_minute fuel mempool flow targets_minute
         = Some (Return output)
         /\ (forall m c, In m targets_minute -> In c constants.TARGETS_CONFIDENCE ->
                         exists r, entry Z.eq_dec Q_eq_dec output m c = Some (Finite r))
         /\ (forall m c v, entry Z.eq_dec Q_eq_dec output m c = Some v ->
                           exists r, v = Finite r /\ 1 <= r <= max_fee_rate + 1).
Proof.
  intros Hnorm Hne Hcov.
  destruct (@estimates_before_correction_spec mempool flow targets_minute)
    as (mx & fuel0 & Hmx & Hmem & Hfl & H); [assumption | assumption | |].
  { intros m Hm. apply Hcov. assumption. }
  exists mx, fuel0. split; [assumption|]. split.
  - intros fuel m c fl blocks Hflm Hb.
    split; [apply get_aggregate_sup_above; lia|].
    split; [apply get_aggregate_sup_above; specialize (Hfl m fl Hflm); lia|].
    rewrite (@compute_bucket_end_weight fuel mempool m c fl blocks Hb (mx + 1)). f_equal.
    apply empties_above; [assumption | eapply Hfl; eauto].
  - intros fuel Hf. destruct (H fuel Hf) as (raw & Hraw & Hin & Hkeys).
    unfold compute_estimates_by_minute. rewrite Hraw.
    set (P := fun v => exists r, v = Finite r /\ 1 <= r <= mx + 1).
    destruct (@correction_decreasing_fees_preserves
                Z Q Z.eq_dec Q_eq_dec P) with
        (est := raw) (lw := targets_minute) (lc := constants.TARGETS_CONFIDENCE)
      as (e & Hrun & Hall & Hshape).
    + intros a b Ha (rb & -> & Hrb). unfold P.
      destruct Ha as [->|(ra & -> & Hra)].
      * rewrite py_min_inf_l. eauto.
      * destruct (py_min_cases (Finite ra) (Finite rb)) as [E|E]; rewrite E; eauto.
    + intros m c Hm Hc.
      destruct (Hin m c Hm Hc) as (fl & blocks & r & _ & _ & He & _). eauto.
    + intros m c v Hv. destruct (Hkeys m c v Hv) as [Hm Hc].
      destruct (Hin m c Hm Hc) as (fl & blocks & r & _ & _ & He & Hr & _).
      exists r. split; [congruence | assumption].
    + exists e. split; [rewrite Hrun; reflexivity|]. split.
      * intros m c Hm Hc.
        destruct (Hin m c Hm Hc) as (fl & blocks & r & _ & _ & He & _).
        destruct (entry Z.eq_dec Q_eq_dec e m c) as [v|] eqn:E.
        -- destruct (Hall m c v E) as (r' & -> & _). eauto.
        -- apply Hshape in E. congruence.
      * exact Hall.
Qed.

Lemma compute_estimates_by_minute_finite_witness :
  exists max_fee_rate fuel0,
    overall_max_fee_rate [(5, (1000000 # 1)%Q)] [(60, [(7, (20 # 1)%Q)])]
    = Return max_fee_rate
    /\ forall fuel, (fuel0 <= fuel)%nat ->
       exists output,
         compute_estimates_by_minute fuel [(5, (1000000 # 1)%Q)]
                                     [(60, [(7, (20 # 1)%Q)])] [60]
         = Some (Return output)
         /\ forall m c v, entry Z.eq_dec Q_eq_dec output m c = Some v ->
                          exists r, v = Finite r /\ 1 <= r <= max_fee_rate + 1.
Proof.
  destruct (@compute_estimates_by_minute_finite
              [(5, (1000000 # 1)%Q)] [(60, [(7, (20 # 1)%Q)])] [60])
    as (mx & fuel0 & Hmx & _ & H).
  - repeat constructor; vm_compute; discriminate.
  - discriminate.
  - intros m [<-|[]]. split; [lia|]. simpl. eauto.
  - exists mx, fuel0. split; [exact Hmx|]. intros fuel Hf.
    destruct (H fuel Hf) as (output & Hrun & _ & Hall). eauto.
Defined.

(** ** The RPC gateway *)

(** Claim C7.  When the response to [getrawtransaction] carries a non-null
    error, [get_raw_transaction] returns [None] if the error code is -5 and
    otherwise raises [BitcoindHttpException] with the code and message of
    that error. *)
Theorem get_raw_transaction_error_codes
        (bitcoind : node) (txid : string) (self : BitcoindClient.t)
        (error : rpc_error) (rpc_result : option transaction) :
  bitcoind txid = Body (Some error) rpc_result ->
  (error_code error = -5 ->
   fst (BitcoindClient.get_raw_transaction bitcoind txid self) = Return None)
  /\ (error_code error <> -5 ->
      fst (BitcoindClient.get_raw_transaction bitcoind txid self)
      = Raise (BitcoindHttpException (error_code error) (error_message error))).
Proof.
  intros Hreply.
  unfold BitcoindClient.get_raw_transaction, BitcoindClient._enqueue_http,
    BitcoindClient._process_http, io_try, io_ret, io_raise.
  rewrite Hreply. simpl. split; intros Hcode.
  - rewrite Hcode. reflexivity.
  - apply Z.eqb_neq in Hcode. rewrite Hcode. reflexivity.
Qed.

Lemma get_raw_transaction_error_codes_witness :
  fst (BitcoindClient.get_raw_transaction example_node "gone"
                                          {| BitcoindClient._request_count := 0 |})
  = Return None
  /\ fst (BitcoindClient.get_raw_transaction example_node "busy"
                                             {| BitcoindClient._request_count := 0 |})
     = Raise (BitcoindHttpException (-28) "Loading block index").
Proof.
  split.
  - apply (@get_raw_transaction_error_codes
             example_node "gone" {| BitcoindClient._request_count := 0 |}
             {| error_code := -5; error_message := "No such mempool transaction" |} None
             eq_refl).
    reflexivity.
  - apply (@get_raw_transaction_error_codes
             example_node "busy" {| BitcoindClient._request_count := 0 |}
             {| error_code := -28; error_message := "Loading block index" |} None
             eq_refl).
    discriminate.
Defined.

(** ** Transaction summaries *)

(** Claim C8.  When the node returns a transaction whose first input has a
    [coinbase] key, [_compute_tx_summary] returns a summary whose [inputs]
    equal its [outputs], whatever the outputs are, so [get_fees] is 0; and
    it has sent exactly one request, the one for the transaction itself. *)
Theorem coinbase_summary_inputs_equal_outputs
        (bitcoind : node) (txid : string) (self : BitcoindClient.t)
        (tx : transaction) (first : tx_input) (rest : list tx_input)
        (script : string) :
  bitcoind txid = Body None (Some tx) ->
  tx_vin tx = first :: rest ->
  in_coinbase first = Some script ->
  exists summary,
    DbTxSummary._compute_tx_summary bitcoind txid self
    = (Return (Some summary),
       {| BitcoindClient._request_count := BitcoindClient._request_count self + 1 |})
    /\ inputs summary = outputs summary
    /\ outputs summary = DbTxSummary._compute_output_sum tx
    /\ get_fees summary = 0.
Proof.
  intros Hreply Hvin Hcb.
  unfold DbTxSummary._compute_tx_summary, io_bind,
    BitcoindClient.get_raw_transaction, BitcoindClient._enqueue_http,
    BitcoindClient._process_http, io_try, io_of_result, DbTxSummary._is_coinbase.
  rewrite Hreply, Hvin, Hcb. simpl.
  eexists. split; [reflexivity|]. simpl. unfold get_fees. simpl.
  repeat split. lia.
Qed.

Lemma coinbase_summary_inputs_equal_outputs_witness :
  exists summary,
    DbTxSummary._compute_tx_summary example_node "mint"
                                    {| BitcoindClient._request_count := 0 |}
    = (Return (Some summary), {| BitcoindClient._request_count := 0 + 1 |})
    /\ inputs summary = outputs summary
    /\ outputs summary = 1250000000
    /\ get_fees summary = 0.
Proof.
  apply (@coinbase_summary_inputs_equal_outputs
           example_node "mint" {| BitcoindClient._request_count := 0 |}
           {| tx_vin := [{| in_coinbase := Some "04ffff001d"; in_txid := None;
                            in_vout := None |}];
              tx_vout := [{| out_value := (25 # 2)%Q |}];
              tx_weight := 800 |}
           {| in_coinbase := Some "04ffff001d"; in_txid := None; in_vout := None |}
           [] "04ffff001d" eq_refl eq_refl eq_refl).
Defined.

(** A transaction that spends an output costs one more request per
    input. *)
Example spend_summary_requests :
  DbTxSummary._compute_tx_summary example_node "spend"
                                  {| BitcoindClient._request_count := 0 |}
  = (Return (Some {| txid := "spend"; weight := 600;
                     inputs := 1250000000; outputs := 1200000000 |}),
     {| BitcoindClient._request_count := 2 |}).
Proof. vm_compute. reflexivity. Qed.

(** ** The summary cache engine *)

Section ProcessFacts.
Variable bitcoind : node.
Variable finished : nat -> nat -> bool.

Lemma node_fails_get_raw_transaction txid self :
  node_fails bitcoind txid ->
  exists e self',
    BitcoindClient.get_raw_transaction bitcoind txid self = (Raise e, self').
Proof.
  unfold node_fails, BitcoindClient.get_raw_transaction,
    BitcoindClient._enqueue_http, BitcoindClient._process_http, io_try, io_raise.
  destruct (bitcoind txid) as [[error|] r| |]; simpl; intros H; eauto; [|tauto].
  apply Z.eqb_neq in H. rewrite H. eauto.
Qed.

Lemma node_fails_construction_raises txid :
  node_fails bitcoind txid -> construction_raises bitcoind txid.
Proof.
  intros H [self records].
  destruct (node_fails_get_raw_transaction txid (DbTxSummary._bitcoind self) H)
    as (e & b' & Hget).
  unfold DbTxSummary.construct_tx_summary, DbTxSummary.with_bitcoind,
    DbTxSummary._compute_tx_summary, io_bind.
  rewrite Hget. eauto.
Qed.

Lemma admission_below_limit n pending :
  (List.length pending <= 1000)%nat ->
  DbTxSummary.admission finished n pending = Some pending.
Proof.
  intros H. unfold DbTxSummary.admission.
  destruct (Nat.ltb_spec 1000 (List.length pending)); [lia | reflexivity].
Qed.

(** Below the admission limit every construction is started and every
    task is still in [pending] at the end. *)
Lemma spawn_below_limit todo :
  forall count pending st,
    (List.length pending + List.length todo <= 1001)%nat ->
    exists created st',
      DbTxSummary.spawn bitcoind finished todo count pending st
      = Some (pending ++ created, st')
      /\ forall txid, In txid todo -> construction_raises bitcoind txid ->
                      exists t e, In t created
                                  /\ DbTxSummary.task_outcome t = Raise e.
Proof.
  induction todo as [|txid0 rest IH]; intros count pending st Hlen;
    cbn [DbTxSummary.spawn].
  - exists [], st. rewrite app_nil_r. split; [reflexivity | intros txid []].
  - simpl in Hlen. rewrite admission_below_limit by lia.
    destruct (DbTxSummary.construct_tx_summary bitcoind txid0 st)
      as [outcome st1] eqn:Hrun.
    set (t0 := {| DbTxSummary.task_number := S count;
                  DbTxSummary.task_outcome := outcome |}).
    destruct (IH (S count) (pending ++ [t0]) st1) as (created & st' & Hsp & Hraise).
    { rewrite length_app. simpl. lia. }
    exists (t0 :: created), st'. split.
    + rewrite Hsp, <- app_assoc. reflexivity.
    + intros txid [<-|Hin] Hr.
      * destruct (Hr st) as (e & st'' & He). rewrite Hrun in He.
        injection He as -> _. exists t0, e. simpl. auto.
      * destruct (Hraise txid Hin Hr) as (t & e & Ht & He).
        exists t, e. simpl. auto.
Qed.

Lemma gather_raises pending t e :
  In t pending -> DbTxSummary.task_outcome t = Raise e ->
  exists e', DbTxSummary.gather pending = Raise e'.
Proof.
  induction pending as [|t0 rest IH]; simpl; [tauto|].
  intros [->|Hin] He.
  - rewrite He. eauto.
  - destruct (DbTxSummary.task_outcome t0); [auto | eauto].
Qed.
End ProcessFacts.

(** Claim C5, as the code has it.  In a batch that needs at most 1001
    constructions (so that no task leaves [pending] before [gather]), if
    the construction of one of the ids raises, [process] raises as well and
    returns no mapping, whatever the other ids are.  A failure of the node
    other than "not found" (no connection, an undecodable body, an error
    with a code other than -5) makes the construction raise. *)
Theorem process_propagates_construction_failure
        (bitcoind : node) (finished : nat -> nat -> bool)
        (txid_list : list string) (self : DbTxSummary.t) (txid : string) :
  (List.length (txid_to_construct txid_list self) <= 1001)%nat ->
  In txid (txid_to_construct txid_list self) ->
  (node_fails bitcoind txid -> construction_raises bitcoind txid)
  /\ (construction_raises bitcoind txid ->
      exists e self',
        DbTxSummary.process bitcoind finished txid_list self = Some (Raise e, self')).
Proof.
  intros Hlen Hin. split; [apply node_fails_construction_raises|].
  intros Hr. unfold DbTxSummary.process. fold (txid_to_construct txid_list self).
  destruct (@spawn_below_limit bitcoind finished (txid_to_construct txid_list self)
              0%nat []
              (self, DbTxSummary.load_from_cache (List.length txid_list) self txid_list []))
    as (created & [self' records'] & Hsp & Hraise); [simpl; lia|].
  rewrite Hsp. simpl.
  destruct (Hraise txid Hin Hr) as (t & e & Ht & He).
  destruct (gather_raises created t Ht He) as [e' He']. rewrite He'. eauto.
Qed.

Lemma process_propagates_construction_failure_witness :
  exists e self',
    DbTxSummary.process example_node (fun _ _ => true) ["mint"; "busy"; "spend"]
                        example_engine
    = Some (Raise e, self').
Proof.
  destruct (@process_propagates_construction_failure
              example_node (fun _ _ => true) ["mint"; "busy"; "spend"]
              example_engine "busy") as [H1 H2].
  - vm_compute. lia.
  - vm_compute. auto.
  - apply H2, H1. vm_compute. discriminate.
Defined.

(** One failing id aborts the batch; an id the node reports absent does
    not. *)
Lemma process_isolation_counterexample :
  option_map fst
    (DbTxSummary.process example_node (fun _ _ => true) ["mint"; "busy"; "spend"]
                         example_engine)
  = Some (Raise (BitcoindHttpException (-28) "Loading block index"))
  /\ option_map fst
       (DbTxSummary.process example_node (fun _ _ => true) ["mint"; "gone"; "spend"]
                            example_engine)
     = Some (Return [("mint", Some {| txid := "mint"; weight := 800;
                                      inputs := 1250000000; outputs := 1250000000 |});
                     ("gone", None);
                     ("spend", Some {| txid := "spend"; weight := 600;
                                       inputs := 1250000000; outputs := 1200000000 |})]).
Proof. split; vm_compute; reflexivity. Qed.

(* ====================================================================== *)
(** * Part III: further properties *)
(* ====================================================================== *)

(** ** More on dictionaries *)

Section PyDictMoreFacts.
Variables K V : Type.
Variable K_eq_dec : forall a b : K, {a = b} + {a <> b}.
Implicit Types (d : dict K V) (k : K) (v : V).

Lemma dict_get_del_other d k k' d' :
  k <> k' -> dict_del K_eq_dec d k = Return d' ->
  dict_get K_eq_dec d' k' = dict_get K_eq_dec d k'.
Proof.
  intros N. revert d'. induction d as [|[k0 v0] d IH]; simpl; intros d' H;
    [discriminate|].
  destruct (K_eq_dec k k0) as [E|E].
  - injection H as <-. subst. destruct (K_eq_dec k' k0); congruence.
  - destruct (dict_del K_eq_dec d k) as [d''|] eqn:Hdel; [|discriminate].
    injection H as <-. simpl. destruct (K_eq_dec k' k0); [reflexivity | auto].
Qed.

Lemma dict_mem_get d k :
  dict_mem K_eq_dec d k = true <-> exists v, dict_get K_eq_dec d k = Some v.
Proof.
  unfold dict_mem. destruct (dict_get K_eq_dec d k) as [v|].
  - split; eauto.
  - split; [discriminate | intros [v H]; discriminate].
Qed.

Lemma dict_mem_set d k v k' :
  dict_mem K_eq_dec (dict_set K_eq_dec d k v) k'
  = if K_eq_dec k k' then true else dict_mem K_eq_dec d k'.
Proof.
  unfold dict_mem. destruct (K_eq_dec k k') as [<-|N].
  - rewrite dict_get_set_same. reflexivity.
  - rewrite dict_get_set_other by assumption. reflexivity.
Qed.
End PyDictMoreFacts.

(** ** More on fee buckets *)

Section FeeBucketsMoreFacts.
Import FeeBuckets.
Implicit Types (self other : FeeBuckets.t) (r threshold : Z) (w v : Q).

Lemma normalize_idempotent r : _normalize (_normalize r) = _normalize r.
Proof. apply normalize_fixed, normalize_range. Qed.

Lemma getitem_setitem_other self r v self' r' :
  _normalize r' <> _normalize r ->
  __setitem__ self r v = Return self' ->
  __getitem__ self' r' = __getitem__ self r'.
Proof.
  unfold __setitem__, __getitem__. intros N.
  destruct (Qeq_bool v 0); intros H.
  - rewrite (@dict_get_del_other Z Q Z.eq_dec self (_normalize r) (_normalize r') self')
      by (congruence || assumption).
    reflexivity.
  - injection H as <-. rewrite dict_get_set_other by congruence. reflexivity.
Qed.

Lemma setitem_nonzero self r v self' :
  Forall (fun kv => ~ (snd kv == 0)%Q) self ->
  __setitem__ self r v = Return self' ->
  Forall (fun kv => ~ (snd kv == 0)%Q) self'.
Proof.
  unfold __setitem__. rewrite !Forall_forall. intros Hnz.
  destruct (Qeq_bool v 0) eqn:Hz; intros H kv Hin.
  - apply Hnz. eapply dict_del_In; eauto.
  - injection H as <-. apply dict_set_In in Hin.
    destruct Hin as [->|Hin]; [|auto]. simpl. apply Qeq_bool_neq. assumption.
Qed.

Lemma setitem_valid self r v self' :
  FeeBuckets.valid self -> __setitem__ self r v = Return self' -> FeeBuckets.valid self'.
Proof.
  intros (H1 & H2 & H3) H. repeat split.
  - eapply setitem_wf; eauto.
  - eapply setitem_keys_normalized; eauto.
  - eapply setitem_nonzero; eauto.
Qed.
End FeeBucketsMoreFacts.

(** Property X1.  After [self[r] = v] has completed on a bucket with
    distinct keys, reading any fee rate that is normalised to the same
    bucket as [r] returns [v] (so 0 after a deletion), and reading any
    other fee rate returns what it returned before. *)
Theorem setitem_then_getitem
        (self self' : FeeBuckets.t) (r : Z) (v : Q) :
  dict_wf self ->
  FeeBuckets.__setitem__ self r v = Return self' ->
  (forall r', FeeBuckets._normalize r' = FeeBuckets._normalize r ->
              (FeeBuckets.__getitem__ self' r' == v)%Q)
  /\ (forall r', FeeBuckets._normalize r' <> FeeBuckets._normalize r ->
                 FeeBuckets.__getitem__ self' r' = FeeBuckets.__getitem__ self r').
Proof.
  intros Hwf H. split.
  - intros r' E. unfold FeeBuckets.__getitem__. rewrite E.
    apply (getitem_setitem _ _ Hwf H).
  - intros r' N. eapply getitem_setitem_other; eauto.
Qed.

Lemma setitem_then_getitem_witness :
  Qeq (FeeBuckets.__getitem__ [(3, (7 # 1)%Q); (10000, (4 # 1)%Q)] 20000) (4 # 1)%Q
  /\ FeeBuckets.__getitem__ [(3, (7 # 1)%Q); (10000, (4 # 1)%Q)] 3
     = FeeBuckets.__getitem__ [(3, (7 # 1)%Q)] 3.
Proof.
  assert (Hwf : dict_wf (K:=Z) [(3, (7 # 1)%Q)]) by (repeat constructor; simpl; tauto).
  destruct (@setitem_then_getitem
              [(3, (7 # 1)%Q)] [(3, (7 # 1)%Q); (10000, (4 # 1)%Q)] 12000 (4 # 1)%Q
              Hwf eq_refl) as [H1 H2].
  split.
  - apply H1. reflexivity.
  - apply H2. vm_compute. discriminate.
Defined.

(** Property X2.  The invariant of the class: a new [FeeBuckets] has
    distinct keys, all within [[MIN_FEE_RATE, MAX_FEE_RATE]], and no zero
    value, and every completed [self[r] = v] and [self[r] += v] preserves
    this. *)
Theorem feebuckets_invariant (self self' : FeeBuckets.t) (r : Z) (v : Q) :
  FeeBuckets.valid FeeBuckets.__init__
  /\ (FeeBuckets.valid self ->
      FeeBuckets.__setitem__ self r v = Return self' -> FeeBuckets.valid self')
  /\ (FeeBuckets.valid self ->
      FeeBuckets.__iadd__ self r v = Return self' -> FeeBuckets.valid self').
Proof.
  split; [|split].
  - repeat split; constructor.
  - apply setitem_valid.
  - unfold FeeBuckets.__iadd__. apply setitem_valid.
Qed.

Lemma feebuckets_invariant_witness :
  FeeBuckets.valid [(10000, (5 # 1)%Q)].
Proof.
  destruct (@feebuckets_invariant FeeBuckets.__init__ [(10000, (5 # 1)%Q)]
                                  12000 (5 # 1)%Q) as (H0 & H1 & _).
  apply H1; [exact H0 | reflexivity].
Defined.

Section FeeBucketsOrderFacts.
Import FeeBuckets.
Implicit Types (self other : FeeBuckets.t) (r threshold : Z) (w v : Q).

Lemma Qsum_nonneg (l : list Q) : Forall (fun v => (0 <= v)%Q) l -> (0 <= Qsum l)%Q.
Proof.
  induction 1 as [|v l Hv _ IH]; simpl; [apply Qle_refl|].
  apply Qle_trans with (0 + 0)%Q; [apply Qle_refl|]. apply Qplus_le_compat; assumption.
Qed.

Lemma sum_from_antitone self t1 t2 :
  values_positive self -> t1 <= t2 ->
  (0 <= sum_from self t2 /\ sum_from self t2 <= sum_from self t1
   /\ sum_from self t1 <= Qsum (map snd self))%Q.
Proof.
  unfold values_positive, sum_from. intros Hv Ht.
  induction Hv as [|[k v] self Hk _ IH]; simpl in *.
  - repeat split; apply Qle_refl.
  - destruct IH as (I0 & I1 & I2).
    assert (0 <= v)%Q as Hv0 by (apply Qlt_le_weak; assumption).
    destruct (Z.leb_spec t2 k) as [H2|H2]; destruct (Z.leb_spec t1 k) as [H1|H1];
      simpl; try (exfalso; lia); repeat split; try Lqa.lra.
Qed.

Lemma fold_max_attained (keys : list Z) (k0 : Z) :
  In (fold_left Z.max keys k0) (k0 :: keys).
Proof.
  revert k0. induction keys as [|k1 keys IH]; intros k0; simpl; [auto|].
  destruct (IH (Z.max k0 k1)) as [H|H]; [|auto].
  destruct (Z.max_spec k0 k1) as [[_ E]|[_ E]]; rewrite E in *; auto.
Qed.

Lemma getitem_stored self k v :
  keys_normalized self -> In (k, v) self -> dict_wf self ->
  __getitem__ self k = v.
Proof.
  unfold keys_normalized, dict_wf, __getitem__. intros Hn Hin Hwf.
  assert (_normalize k = k) as ->.
  { apply normalize_fixed. rewrite Forall_forall in Hn. apply Hn.
    apply in_map_iff. exists (k, v). auto. }
  induction self as [|[k0 v0] self IH]; simpl in *; [tauto|].
  inversion Hwf as [|? ? Hnin Hnd]; subst. inversion Hn; subst.
  destruct (Z.eq_dec k k0) as [->|N].
  - destruct Hin as [E|Hin]; [congruence|].
    exfalso. apply Hnin. apply in_map_iff. exists (k0, v). auto.
  - destruct Hin as [E|Hin]; [congruence|]. auto.
Qed.
End FeeBucketsOrderFacts.

(** Property X3.  On a bucket whose stored values are positive,
    [get_aggregate_sup] is non-negative, does not increase when the
    threshold increases, and never exceeds [sum()]. *)
Theorem get_aggregate_sup_antitone (self : FeeBuckets.t) (t1 t2 : Z) :
  FeeBuckets.values_positive self -> t1 <= t2 ->
  (0 <= FeeBuckets.get_aggregate_sup self t2)%Q
  /\ (FeeBuckets.get_aggregate_sup self t2 <= FeeBuckets.get_aggregate_sup self t1)%Q
  /\ (FeeBuckets.get_aggregate_sup self t1 <= FeeBuckets.sum self)%Q.
Proof.
  intros Hv Ht. destruct (sum_from_antitone Hv Ht) as (H0 & H1 & H2).
  rewrite !get_aggregate_sup_sum_from. unfold FeeBuckets.sum. rewrite sum_loop.
  repeat split; try assumption. Lqa.lra.
Qed.

Lemma get_aggregate_sup_antitone_witness :
  Qle (FeeBuckets.get_aggregate_sup [(3, (7 # 1)%Q); (8, (5 # 2)%Q)] 8)
      (FeeBuckets.get_aggregate_sup [(3, (7 # 1)%Q); (8, (5 # 2)%Q)] 2).
Proof.
  apply (@get_aggregate_sup_antitone [(3, (7 # 1)%Q); (8, (5 # 2)%Q)] 2 8).
  - repeat constructor.
  - lia.
Defined.

(** Property X4.  [max_fee_rate()] is 0 on an empty bucket; otherwise it is
    a stored key, no stored key exceeds it, and on a bucket satisfying the
    class invariant the value read at it is not zero. *)
Theorem max_fee_rate_is_largest_key (self : FeeBuckets.t) :
  (self = [] -> FeeBuckets.max_fee_rate self = 0)
  /\ (self <> [] -> In (FeeBuckets.max_fee_rate self) (dict_keys self))
  /\ (forall k, In k (dict_keys self) -> k <= FeeBuckets.max_fee_rate self)
  /\ (self <> [] -> FeeBuckets.valid self ->
      ~ (FeeBuckets.__getitem__ self (FeeBuckets.max_fee_rate self) == 0)%Q).
Proof.
  assert (self <> [] -> In (FeeBuckets.max_fee_rate self) (dict_keys self)) as Hin.
  { unfold FeeBuckets.max_fee_rate. destruct self as [|[k v] rest]; [congruence|].
    intros _. simpl. apply fold_max_attained. }
  split; [intros ->; reflexivity|]. split; [exact Hin|].
  split; [intros k; apply max_fee_rate_upper|].
  intros Hne (Hwf & Hn & Hnz). specialize (Hin Hne).
  apply in_map_iff in Hin. destruct Hin as ([k v] & E & Hkv). simpl in E. subst k.
  rewrite (@getitem_stored self _ v Hn Hkv Hwf). rewrite Forall_forall in Hnz.
  apply (Hnz _ Hkv).
Qed.

Lemma max_fee_rate_is_largest_key_witness :
  In (FeeBuckets.max_fee_rate [(3, (7 # 1)%Q); (8, (5 # 2)%Q)])
     (dict_keys (V:=Q) [(3, (7 # 1)%Q); (8, (5 # 2)%Q)]).
Proof.
  destruct (@max_fee_rate_is_largest_key [(3, (7 # 1)%Q); (8, (5 # 2)%Q)])
    as (_ & H & _).
  apply H. discriminate.
Defined.

Section FeeBucketsMergeFacts.
Import FeeBuckets.
Implicit Types (self other : FeeBuckets.t) (r threshold : Z) (w v : Q).

Lemma getitem_normalize self r :
  __getitem__ self (_normalize r) = __getitem__ self r.
Proof. unfold __getitem__. rewrite normalize_idempotent. reflexivity. Qed.

Lemma getitem_absent self r :
  ~ In (_normalize r) (dict_keys self) -> __getitem__ self r = 0%Q.
Proof.
  intros H. apply (dict_get_notin Z.eq_dec) in H. unfold __getitem__.
  rewrite H. reflexivity.
Qed.

Lemma getitem_iadd self r w self' r' :
  dict_wf self -> __iadd__ self r w = Return self' ->
  (__getitem__ self' r'
   == __getitem__ self r' + (if Z.eq_dec (_normalize r') (_normalize r) then w else 0))%Q.
Proof.
  intros Hwf H. unfold __iadd__ in H.
  destruct (Z.eq_dec (_normalize r') (_normalize r)) as [E|N].
  - rewrite <- (getitem_normalize self' r'), <- (getitem_normalize self r'), E,
      !getitem_normalize.
    rewrite (getitem_setitem _ _ Hwf H). reflexivity.
  - rewrite (@getitem_setitem_other self r _ self' r' N H). ring.
Qed.

(** The loop of [add] over the items still to merge. *)
Lemma add_loop other (items : list (Z * Q)) :
  forall self,
    dict_wf self ->
    NoDup (map fst items) ->
    (forall kv, In kv items ->
                _normalize (fst kv) = fst kv /\ ~ (__getitem__ other (fst kv) == 0)%Q) ->
    exists self',
      fold_left
        (fun acc kv =>
           match acc with
           | Return s => __iadd__ s (fst kv) (__getitem__ other (fst kv))
           | Raise e => Raise e
           end)
        items (Return self) = Return self'
      /\ dict_wf self'
      /\ forall r,
          (__getitem__ self' r
           == __getitem__ self r
              + (if in_dec Z.eq_dec (_normalize r) (map fst items)
                 then __getitem__ other r else 0))%Q.
Proof.
  induction items as [|[k v] items IH]; intros self Hwf Hnd Hitems; cbn [fold_left].
  - exists self. split; [reflexivity|]. split; [assumption|]. intros r. simpl. ring.
  - destruct (Hitems (k, v)) as [Hk Hv]; [simpl; auto|]. simpl fst in *.
    destruct (iadd_succeeds self k Hv) as [s1 Hs1]. rewrite Hs1.
    assert (dict_wf s1) as Hwf1 by exact (setitem_wf _ _ Hwf Hs1).
    inversion Hnd as [|? ? Hnin Hnd']; subst.
    destruct (IH s1 Hwf1 Hnd') as (self' & Hrun & Hwf' & Hget).
    { intros kv Hkv. apply Hitems. simpl. auto. }
    exists self'. split; [assumption|]. split; [assumption|].
    intros r. rewrite Hget, (@getitem_iadd self k _ s1 r Hwf Hs1). rewrite Hk. simpl map.
    destruct (Z.eq_dec (_normalize r) k) as [E|N].
    + destruct (in_dec Z.eq_dec (_normalize r) (map fst items)) as [F|F];
        [rewrite E in F; contradiction|].
      destruct (in_dec Z.eq_dec (_normalize r) (k :: map fst items)) as [G|G];
        [|exfalso; apply G; simpl; auto].
      rewrite <- (getitem_normalize other r), E. ring.
    + destruct (in_dec Z.eq_dec (_normalize r) (map fst items)) as [F|F];
        destruct (in_dec Z.eq_dec (_normalize r) (k :: map fst items)) as [G|G];
        try ring.
      * exfalso. apply G. simpl. auto.
      * exfalso. destruct G as [G|G]; [congruence | contradiction].
Qed.

Lemma divide_nonzero self factor :
  ~ (factor == 0)%Q ->
  FeeBuckets.divide self factor = Value (map (fun kv => (fst kv, (snd kv / factor)%Q)) self).
Proof.
  intros H. induction self as [|[k v] self IH]; simpl; [reflexivity|].
  destruct (Qeq_bool factor 0) eqn:E; [apply Qeq_bool_eq in E; contradiction|].
  rewrite IH. reflexivity.
Qed.

Lemma Qsum_scale (l : list Q) (factor : Q) :
  (Qsum (map (fun v => v / factor) l) == Qsum l / factor)%Q.
Proof.
  induction l as [|v l IH]; simpl.
  - unfold Qdiv. ring.
  - rewrite IH. unfold Qdiv. ring.
Qed.
End FeeBucketsMergeFacts.

(** Property X5.  [self.add(other)], for [self] with distinct keys and
    [other] satisfying the class invariant, completes, and afterwards every
    fee rate reads the sum of what it read in [self] and in [other]. *)
Theorem add_is_pointwise_sum (self other : FeeBuckets.t) :
  dict_wf self -> FeeBuckets.valid other ->
  exists self',
    FeeBuckets.add self other = Return self'
    /\ dict_wf self'
    /\ forall r, (FeeBuckets.__getitem__ self' r
                  == FeeBuckets.__getitem__ self r + FeeBuckets.__getitem__ other r)%Q.
Proof.
  intros Hwf (Hwfo & Hno & Hnz).
  destruct (@add_loop other other self Hwf Hwfo) as (self' & Hrun & Hwf' & Hget).
  - intros [k v] Hkv. simpl.
    assert (FeeBuckets._normalize k = k) as Hk.
    { apply normalize_fixed. unfold FeeBuckets.keys_normalized in Hno.
      rewrite Forall_forall in Hno. apply Hno. apply in_map_iff. exists (k, v). auto. }
    split; [assumption|]. rewrite (@getitem_stored other k v Hno Hkv Hwfo).
    rewrite Forall_forall in Hnz. apply (Hnz _ Hkv).
  - exists self'. split; [exact Hrun|]. split; [assumption|].
    intros r. rewrite Hget.
    destruct (in_dec Z.eq_dec (FeeBuckets._normalize r) (map fst other)) as [F|F].
    + reflexivity.
    + rewrite (getitem_absent other r F). reflexivity.
Qed.

Lemma add_is_pointwise_sum_witness :
  exists self',
    FeeBuckets.add [(3, (7 # 1)%Q)] [(3, (1 # 1)%Q); (8, (5 # 2)%Q)] = Return self'
    /\ Qeq (FeeBuckets.__getitem__ self' 3)
           (Qplus (FeeBuckets.__getitem__ [(3, (7 # 1)%Q)] 3)
                  (FeeBuckets.__getitem__ [(3, (1 # 1)%Q); (8, (5 # 2)%Q)] 3)).
Proof.
  destruct (@add_is_pointwise_sum [(3, (7 # 1)%Q)] [(3, (1 # 1)%Q); (8, (5 # 2)%Q)])
    as (self' & Hrun & _ & Hget).
  - repeat constructor; simpl; tauto.
  - repeat split.
    + repeat constructor; simpl; intuition discriminate.
    + repeat constructor; vm_compute; discriminate.
    + repeat constructor; vm_compute; discriminate.
  - exists self'. split; [exact Hrun | apply Hget].
Defined.

(** Property X6.  [divide(factor)] raises [ZeroDivisionError] on a
    non-empty bucket when [factor] is zero; for a non-zero [factor] it keeps
    the keys and divides by [factor] every reading, the total [sum()] and
    every [get_aggregate_sup(threshold)]. *)
Theorem divide_scales (self : FeeBuckets.t) (factor : Q) :
  ((factor == 0)%Q -> self <> [] -> FeeBuckets.divide self factor = Failed ZeroDivisionError)
  /\ (~ (factor == 0)%Q ->
      exists self',
        FeeBuckets.divide self factor = Value self'
        /\ dict_keys self' = dict_keys self
        /\ (forall r, (FeeBuckets.__getitem__ self' r
                       == FeeBuckets.__getitem__ self r / factor)%Q)
        /\ (FeeBuckets.sum self' == FeeBuckets.sum self / factor)%Q
        /\ (forall threshold,
               (FeeBuckets.get_aggregate_sup self' threshold
                == FeeBuckets.get_aggregate_sup self threshold / factor)%Q)).
Proof.
  split.
  - intros Hz Hne. destruct self as [|[k v] rest]; [congruence|]. simpl.
    apply Qeq_bool_iff in Hz. rewrite Hz. reflexivity.
  - intros Hnz. rewrite (divide_nonzero self Hnz). eexists. split; [reflexivity|].
    split; [|split; [|split]].
    + unfold dict_keys. rewrite map_map. reflexivity.
    + intros r. unfold FeeBuckets.__getitem__.
      generalize (FeeBuckets._normalize r). intros k.
      induction self as [|[k0 v0] self IH]; simpl.
      * unfold Qdiv. ring.
      * destruct (Z.eq_dec k k0); [reflexivity | exact IH].
    + unfold FeeBuckets.sum. rewrite !sum_loop, map_map. simpl.
      rewrite <- (map_map snd (fun v => (v / factor)%Q)), Qsum_scale.
      unfold Qdiv. ring.
    + intros threshold. rewrite !get_aggregate_sup_sum_from. unfold sum_from.
      induction self as [|[k0 v0] self IH]; simpl.
      * unfold Qdiv. ring.
      * destruct (threshold <=? k0); simpl; [rewrite IH; unfold Qdiv; ring | exact IH].
Qed.

Lemma divide_scales_witness :
  exists self',
    FeeBuckets.divide [(3, (7 # 1)%Q); (8, (5 # 2)%Q)] (2 # 1)%Q = Value self'
    /\ Qeq (FeeBuckets.sum self')
           (Qdiv (FeeBuckets.sum [(3, (7 # 1)%Q); (8, (5 # 2)%Q)]) (2 # 1)%Q).
Proof.
  destruct (@divide_scales [(3, (7 # 1)%Q); (8, (5 # 2)%Q)] (2 # 1)%Q) as [_ H].
  destruct H as (self' & Hrun & _ & _ & Hsum & _).
  - vm_compute. discriminate.
  - exists self'. split; [exact Hrun | exact Hsum].
Defined.

(** Property X7.  [to_fee_rate(satoshis, weight)] raises
    [ZeroDivisionError] for a zero weight; for a positive weight it is the
    quotient [4 * satoshis / weight] truncated toward zero: rounded down
    for non-negative fees and up for negative ones (the division being
    exact, not rounded to a float). *)
Theorem to_fee_rate_truncates (satoshis weight : Z) :
  (weight = 0 -> to_fee_rate satoshis weight = Failed ZeroDivisionError)
  /\ (0 < weight ->
      exists fee_rate,
        to_fee_rate satoshis weight = Value fee_rate
        /\ (0 <= satoshis ->
            0 <= fee_rate
            /\ fee_rate * weight <= 4 * satoshis < (fee_rate + 1) * weight)
        /\ (satoshis <= 0 ->
            fee_rate <= 0
            /\ (fee_rate - 1) * weight < 4 * satoshis <= fee_rate * weight)).
Proof.
  unfold to_fee_rate. split.
  - intros ->. reflexivity.
  - intros Hw. destruct (Z.eqb_spec weight 0) as [E|_]; [lia|].
    eexists. split; [reflexivity|].
    split; intros Hs.
    + assert (H := Z.quot_rem' (4 * satoshis) weight).
      assert (R := Z.rem_bound_pos (4 * satoshis) weight ltac:(lia) Hw).
      assert (0 <= Z.quot (4 * satoshis) weight) by (apply Z.quot_pos; lia).
      nia.
    + replace (4 * satoshis) with (- (4 * - satoshis)) by lia.
      rewrite Z.quot_opp_l by lia.
      assert (H := Z.quot_rem' (4 * - satoshis) weight).
      assert (R := Z.rem_bound_pos (4 * - satoshis) weight ltac:(lia) Hw).
      assert (0 <= Z.quot (4 * - satoshis) weight) by (apply Z.quot_pos; lia).
      nia.
Qed.

Lemma to_fee_rate_truncates_witness :
  exists fee_rate,
    to_fee_rate 1000 565 = Value fee_rate
    /\ fee_rate * 565 <= 4 * 1000 < (fee_rate + 1) * 565.
Proof.
  destruct (@to_fee_rate_truncates 1000 565) as [_ H].
  destruct H as (fee_rate & Hrun & Hpos & _); [lia|].
  exists fee_rate. split; [exact Hrun|]. apply Hpos. lia.
Defined.

(** ** Sorted keys *)

Section SortedLists.
Variable A : Type.

Lemma StronglySorted_weaken (R1 R2 : A -> A -> Prop) (l : list A) :
  (forall x y, R1 x y -> R2 x y) -> StronglySorted R1 l -> StronglySorted R2 l.
Proof.
  intros H. induction 1 as [|x l Hs IH Hall]; constructor; [assumption|].
  rewrite Forall_forall in *. auto.
Qed.

Lemma StronglySorted_snoc (R : A -> A -> Prop) (l : list A) (x : A) :
  StronglySorted R l -> Forall (fun y => R y x) l -> StronglySorted R (l ++ [x]).
Proof.
  induction 1 as [|y l Hs IH Hall]; intros Hx; simpl.
  - constructor; constructor.
  - inversion Hx; subst. constructor; [auto|].
    apply Forall_app. split; [assumption | constructor; [assumption | constructor]].
Qed.

Lemma StronglySorted_rev (R : A -> A -> Prop) (l : list A) :
  StronglySorted R l -> StronglySorted (fun x y => R y x) (rev l).
Proof.
  induction 1 as [|x l Hs IH Hall]; simpl; [constructor|].
  apply StronglySorted_snoc; [assumption|].
  apply Forall_rev. assumption.
Qed.
End SortedLists.

Lemma descending_unique (l1 l2 : list Z) :
  StronglySorted Z.ge l1 -> StronglySorted Z.ge l2 -> Permutation l1 l2 -> l1 = l2.
Proof.
  intros H1. revert l2. induction H1 as [|x l1 Hs IH Hall]; intros l2 H2 Hp.
  - apply Permutation_nil in Hp. congruence.
  - destruct H2 as [|y l2 Hs2 Hall2].
    + apply Permutation_sym, Permutation_nil in Hp. discriminate.
    + rewrite Forall_forall in Hall, Hall2.
      assert (x = y) as ->.
      { assert (In x (y :: l2)) as Hx by (eapply Permutation_in; eauto; simpl; auto).
        assert (In y (x :: l1)) as Hy
            by (eapply Permutation_in; [apply Permutation_sym; eauto | simpl; auto]).
        destruct Hx as [->|Hx]; [reflexivity|].
        destruct Hy as [->|Hy]; [reflexivity|].
        specialize (Hall y Hy). specialize (Hall2 x Hx). lia. }
      f_equal. apply IH; [assumption|]. eapply Permutation_cons_inv; eauto.
Qed.

Lemma ascending_sort_sorted (l : list Z) : StronglySorted Z.le (Ascending.sort l).
Proof.
  apply StronglySorted_weaken with (R1 := fun x y => is_true (x <=? y)).
  - intros x y H. apply Z.leb_le. exact H.
  - apply Ascending.StronglySorted_sort.
    intros x y z Hxy Hyz. unfold is_true, AscendingOrder.leb in *.
    rewrite Z.leb_le in *. lia.
Qed.

Lemma descending_sort_sorted (l : list Z) : StronglySorted Z.ge (Descending.sort l).
Proof.
  apply StronglySorted_weaken with (R1 := fun x y => is_true (x >=? y)).
  - intros x y H. apply Z.geb_le in H. lia.
  - apply Descending.StronglySorted_sort.
    intros x y z Hxy Hyz. unfold is_true, DescendingOrder.leb in *.
    rewrite Z.geb_le in *. lia.
Qed.

(** Property X8.  [ascending_keys()] and [descending_keys()] are
    rearrangements of the stored keys in non-decreasing and in
    non-increasing order; each is the reverse of the other, and the first
    descending key (0 when there is none) is [max_fee_rate()]. *)
Theorem keys_in_order (self : FeeBuckets.t) :
  Permutation (dict_keys self) (FeeBuckets.ascending_keys self)
  /\ StronglySorted Z.le (FeeBuckets.ascending_keys self)
  /\ Permutation (dict_keys self) (FeeBuckets.descending_keys self)
  /\ StronglySorted Z.ge (FeeBuckets.descending_keys self)
  /\ FeeBuckets.descending_keys self = rev (FeeBuckets.ascending_keys self)
  /\ hd 0 (FeeBuckets.descending_keys self) = FeeBuckets.max_fee_rate self.
Proof.
  unfold FeeBuckets.ascending_keys, FeeBuckets.descending_keys.
  assert (Pa := Ascending.Permuted_sort (dict_keys self)).
  assert (Pd := Descending.Permuted_sort (dict_keys self)).
  assert (Sa := ascending_sort_sorted (dict_keys self)).
  assert (Sd := descending_sort_sorted (dict_keys self)).
  repeat (split; [assumption|]). split.
  - apply descending_unique; [assumption | |].
    + apply StronglySorted_weaken with (R1 := fun x y => y <= x);
        [intros x y H; lia | apply StronglySorted_rev; assumption].
    + eapply Permutation_trans; [apply Permutation_sym; exact Pd|].
      eapply Permutation_trans; [exact Pa | apply Permutation_rev].
  - destruct (Descending.sort (dict_keys self)) as [|x l] eqn:Es.
    + apply Permutation_sym, Permutation_nil in Pd.
      destruct self; [reflexivity | discriminate].
    + assert (In (FeeBuckets.max_fee_rate self) (dict_keys self)) as Hmax.
      { destruct self as [|[k v] rest].
        - apply Permutation_nil in Pd. discriminate.
        - unfold FeeBuckets.max_fee_rate. simpl. apply fold_max_attained. }
      simpl. inversion Sd as [|? ? _ Hall]; subst. rewrite Forall_forall in Hall.
      assert (In x (dict_keys self)) as Hx
          by (eapply Permutation_in; [apply Permutation_sym; exact Pd | simpl; auto]).
      apply max_fee_rate_upper in Hx.
      apply (Permutation_in _ Pd) in Hmax. destruct Hmax as [->|Hmax]; [reflexivity|].
      specialize (Hall _ Hmax). lia.
Qed.

Example keys_in_order_run :
  FeeBuckets.ascending_keys [(8, (5 # 2)%Q); (3, (7 # 1)%Q); (10000, (1 # 1)%Q)] = [3; 8; 10000]
  /\ FeeBuckets.descending_keys [(8, (5 # 2)%Q); (3, (7 # 1)%Q); (10000, (1 # 1)%Q)]
     = [10000; 8; 3].
Proof. split; vm_compute; reflexivity. Qed.

(** ** Edge cases of the block search *)

Lemma prob_0_blocks_lt_1 (minutes : Q) :
  (get_prob_of_min_blocks minutes 0 < 1)%R.
Proof.
  unfold get_prob_of_min_blocks, poisson_cdf. simpl.
  assert (H := exp_pos (- (Q2R minutes / IZR constants.TARGET_BLOCK_TIME_MINUTES))).
  lra.
Qed.


Lemma block_search_certain (minutes target_prob : Q) (fuel : nat) :
  (1 <= target_prob)%Q ->
  get_min_expected_blocks (S fuel) minutes target_prob = Some 0%nat.
Proof.
  intros H. unfold get_min_expected_blocks. simpl.
  destruct (Rlt_dec _ _) as [_|N]; [reflexivity|]. exfalso. apply N.
  apply Qle_Rle in H. replace (Q2R 1) with 1%R in H by (unfold Q2R; simpl; lra).
  assert (H1 := prob_0_blocks_lt_1 minutes). lra.
Qed.



(** ** Monotonicity of the simulation *)

(** Property X10.  [compute_bucket] is monotone: for a non-negative
    window, if it answers [True] for a starting weight and an inflow, it
    answers [True] for every smaller starting weight and smaller
    inflow. *)
Theorem compute_bucket_monotone
        (fuel : nat) (minutes confidence : Q)
        (start_weight start_weight' rate rate' : Q) :
  (0 <= minutes)%Q ->
  (start_weight' <= start_weight)%Q -> (rate' <= rate)%Q ->
  compute_bucket fuel minutes confidence start_weight rate = Some true ->
  compute_bucket fuel minutes confidence start_weight' rate' = Some true.
Proof.
  intros Hm Hs Hr. unfold compute_bucket.
  destruct (get_min_expected_blocks fuel minutes confidence) as [n|]; [|discriminate].
  intros H. injection H as H. f_equal. rewrite Qle_bool_iff in *.
  assert (rate' * minutes <= rate * minutes)%Q by (apply Qmult_le_compat_r; assumption).
  Lqa.lra.
Qed.

Lemma compute_bucket_monotone_witness :
  compute_bucket 1 (60 # 1) (1 # 1) (- (5 # 1)) (0 # 1) = Some true.
Proof.
  apply (@compute_bucket_monotone 1 (60 # 1) (1 # 1) (0 # 1) (- (5 # 1)) (0 # 1) (0 # 1)).
  - vm_compute. discriminate.
  - vm_compute. discriminate.
  - vm_compute. discriminate.
  - unfold compute_bucket.
    rewrite (@block_search_certain (60 # 1) (1 # 1) 0).
    + reflexivity.
    + vm_compute. discriminate.
Defined.

(** Property X11.  With positive stored weights in the mempool and in the
    flow, the fee rates at which the simulation empties the bucket are
    upward closed: if [compute_bucket] answers [True] at the aggregates of
    [fee_rate], it does so at those of every larger fee rate.  This is what
    lets the search of [compute_estimates_by_minute] stop at the first
    hit. *)
Theorem emptying_fee_rates_upward_closed
        (fuel : nat) (mempool flow_minutes : FeeBuckets.t)
        (minutes : Z) (confidence : Q) (fee_rate fee_rate' : Z) :
  FeeBuckets.values_positive mempool ->
  FeeBuckets.values_positive flow_minutes ->
  0 <= minutes ->
  fee_rate <= fee_rate' ->
  compute_bucket fuel (inject_Z minutes) confidence
                 (FeeBuckets.get_aggregate_sup mempool fee_rate)
                 (FeeBuckets.get_aggregate_sup flow_minutes fee_rate) = Some true ->
  compute_bucket fuel (inject_Z minutes) confidence
                 (FeeBuckets.get_aggregate_sup mempool fee_rate')
                 (FeeBuckets.get_aggregate_sup flow_minutes fee_rate') = Some true.
Proof.
  intros Hv1 Hv2 Hm Hr. unfold compute_bucket.
  destruct (get_min_expected_blocks fuel (inject_Z minutes) confidence) as [n|];
    [|discriminate].
  intros H. injection H as H. f_equal. rewrite Qle_bool_iff in *.
  destruct (sum_from_antitone Hv1 Hr) as (_ & H1 & _).
  destruct (sum_from_antitone Hv2 Hr) as (_ & H2 & _).
  rewrite <- !get_aggregate_sup_sum_from in H1, H2.
  assert (0 <= inject_Z minutes)%Q as Hq by (unfold Qle; simpl; lia).
  assert (FeeBuckets.get_aggregate_sup flow_minutes fee_rate' * inject_Z minutes
          <= FeeBuckets.get_aggregate_sup flow_minutes fee_rate * inject_Z minutes)%Q
    by (apply Qmult_le_compat_r; assumption).
  Lqa.lra.
Qed.

Lemma emptying_fee_rates_upward_closed_witness :
  compute_bucket 1 (inject_Z 60) (1 # 1)
                 (FeeBuckets.get_aggregate_sup [(5, (1000000 # 1)%Q)] 9)
                 (FeeBuckets.get_aggregate_sup [] 9) = Some true.
Proof.
  apply (@emptying_fee_rates_upward_closed 1 [(5, (1000000 # 1)%Q)] [] 60 (1 # 1) 6 9).
  - repeat constructor.
  - constructor.
  - lia.
  - lia.
  - unfold compute_bucket.
    rewrite (@block_search_certain (inject_Z 60) (1 # 1) 0).
    + reflexivity.
    + vm_compute. discriminate.
Defined.

(** ** More on the decreasing-fee correction *)

Section CorrectionErrors.
Variables W C : Type.
Variable W_eq_dec : forall a b : W, {a = b} + {a <> b}.
Variable C_eq_dec : forall a b : C, {a = b} + {a <> b}.

Local Abbreviation ent := (entry W_eq_dec C_eq_dec).
Local Abbreviation step := (correction_step W_eq_dec C_eq_dec).
Local Abbreviation pass := (correction_for_confidence W_eq_dec C_eq_dec).
Local Abbreviation correct := (correction_decreasing_fees W_eq_dec C_eq_dec).

Implicit Types (e est : table W C) (w : W) (c : C) (m v : estimate).

Lemma correction_step_missing e w c m :
  ent e w c = None -> step c (Return (m, e)) w = Raise KeyError.
Proof.
  unfold entry, correction_step, dict_lookup. simpl.
  destruct (dict_get W_eq_dec e w) as [row|]; [|reflexivity].
  simpl. intros ->. reflexivity.
Qed.

Lemma correction_windows_raised c l x :
  fold_left (step c) l (Raise x) = Raise x.
Proof. induction l as [|w l IH]; simpl; [reflexivity | exact IH]. Qed.

Lemma correction_passes_raised lw lc x :
  fold_left (pass lw) lc (Raise x) = Raise x.
Proof. induction lc as [|c lc IH]; simpl; [reflexivity | exact IH]. Qed.

(** A window without an entry stops the inner loop with [KeyError]. *)
Lemma correction_windows_missing c l :
  forall m e w,
    In w l -> ent e w c = None ->
    fold_left (step c) l (Return (m, e)) = Raise KeyError.
Proof.
  induction l as [|w0 l IH]; intros m e w Hin Hnone; [destruct Hin|].
  cbn [fold_left].
  destruct (ent e w0 c) as [v|] eqn:Hv.
  - destruct (@correction_step_entry W C W_eq_dec C_eq_dec e w0 c m v Hv)
      as (e' & Hstep & Hnew & Hold).
    rewrite Hstep. destruct Hin as [->|Hin]; [congruence|].
    apply (IH _ e' w Hin).
    destruct (W_eq_dec w w0) as [->|N]; [congruence|].
    rewrite Hold by auto. assumption.
  - rewrite (@correction_step_missing e w0 c m Hv). apply correction_windows_raised.
Qed.

Lemma correction_app est lw lc1 lc2 :
  correct est lw (lc1 ++ lc2)
  = match correct est lw lc1 with
    | Return e => correct e lw lc2
    | Raise x => Raise x
    end.
Proof.
  unfold correction_decreasing_fees. rewrite fold_left_app.
  destruct (fold_left (pass lw) lc1 (Return est)) as [e|x]; [reflexivity|].
  apply correction_passes_raised.
Qed.
End CorrectionErrors.

(** Property X12.  [correction_decreasing_fees] raises [KeyError] when the
    table has no entry for one of the listed windows under the first
    listed confidence. *)
Theorem correction_decreasing_fees_missing_entry
        (W C : Type)
        (W_eq_dec : forall a b : W, {a = b} + {a <> b})
        (C_eq_dec : forall a b : C, {a = b} + {a <> b})
        (estimates : table W C) (list_windows : list W)
        (confidence : C) (list_confidence : list C) (w : W) :
  In w list_windows ->
  entry W_eq_dec C_eq_dec estimates w confidence = None ->
  correction_decreasing_fees W_eq_dec C_eq_dec estimates list_windows
                             (confidence :: list_confidence)
  = Raise KeyError.
Proof.
  intros Hin Hnone. unfold correction_decreasing_fees. cbn [fold_left].
  unfold correction_for_confidence at 2. cbn [bind].
  rewrite (@correction_windows_missing W C W_eq_dec C_eq_dec confidence list_windows
             POSITIVE_INFINITY estimates w Hin Hnone).
  cbn [bind]. apply correction_passes_raised.
Qed.

Lemma correction_decreasing_fees_missing_entry_witness :
  correction_decreasing_fees Z.eq_dec Q_eq_dec
    [(30, [((1 # 2)%Q, Finite 5)]); (60, [((4 # 5)%Q, Finite 7)])]
    [30; 60] [(1 # 2)%Q; (4 # 5)%Q]
  = Raise KeyError.
Proof.
  apply (@correction_decreasing_fees_missing_entry
           Z Q Z.eq_dec Q_eq_dec
           [(30, [((1 # 2)%Q, Finite 5)]); (60, [((4 # 5)%Q, Finite 7)])]
           [30; 60] (1 # 2)%Q [(4 # 5)%Q] 60).
  - simpl. auto.
  - reflexivity.
Defined.

(** Property X13.  For pairwise distinct windows and a table with an entry
    for every listed window and confidence, [correction_decreasing_fees]
    is idempotent (correcting the corrected table changes no entry) and
    leaves every entry outside the listed windows and confidences as it
    was. *)
Theorem correction_decreasing_fees_idempotent
        (W C : Type)
        (W_eq_dec : forall a b : W, {a = b} + {a <> b})
        (C_eq_dec : forall a b : C, {a = b} + {a <> b})
        (estimates : table W C) (list_windows : list W) (list_confidence : list C) :
  NoDup list_windows ->
  table_covers W_eq_dec C_eq_dec estimates list_windows list_confidence ->
  exists corrected again,
    correction_decreasing_fees W_eq_dec C_eq_dec estimates list_windows list_confidence
    = Return corrected
    /\ correction_decreasing_fees W_eq_dec C_eq_dec corrected list_windows list_confidence
       = Return again
    /\ (forall w c, entry W_eq_dec C_eq_dec again w c
                    = entry W_eq_dec C_eq_dec corrected w c)
    /\ (forall w c, ~ In w list_windows \/ ~ In c list_confidence ->
                    entry W_eq_dec C_eq_dec corrected w c
                    = entry W_eq_dec C_eq_dec estimates w c).
Proof.
  intros Hnd Hcov.
  destruct (correction_decreasing_fees_spec Hnd Hcov) as (e1 & Hrun1 & Hout1 & Hin1).
  assert (table_covers W_eq_dec C_eq_dec estimates list_windows
                       (list_confidence ++ list_confidence)) as Hcov2.
  { intros w c Hw Hc. apply Hcov; [assumption|]. apply in_app_or in Hc. tauto. }
  destruct (correction_decreasing_fees_spec Hnd Hcov2) as (e2 & Hrun2 & Hout2 & Hin2).
  rewrite correction_app, Hrun1 in Hrun2.
  exists e1, e2. split; [assumption|]. split; [assumption|]. split; [|exact Hout1].
  intros w c.
  destruct (in_dec W_eq_dec w list_windows) as [Hw|Hw].
  - destruct (in_dec C_eq_dec c list_confidence) as [Hc|Hc].
    + destruct (in_split _ _ Hw) as (p & s & E).
      rewrite (Hin1 c Hc p w s E), (Hin2 c (in_or_app _ _ _ (or_introl Hc)) p w s E).
      reflexivity.
    + rewrite Hout1, Hout2; auto.
      right. intros F. apply in_app_or in F. tauto.
  - rewrite Hout1, Hout2; auto.
Qed.

Lemma correction_decreasing_fees_idempotent_witness :
  exists corrected again,
    correction_decreasing_fees Z.eq_dec Q_eq_dec
      [(30, [((1 # 2)%Q, Finite 5)]); (60, [((1 # 2)%Q, Finite 7)])]
      [30; 60] [(1 # 2)%Q]
    = Return corrected
    /\ correction_decreasing_fees Z.eq_dec Q_eq_dec corrected [30; 60] [(1 # 2)%Q]
       = Return again
    /\ entry Z.eq_dec Q_eq_dec again 60 (1 # 2)%Q
       = entry Z.eq_dec Q_eq_dec corrected 60 (1 # 2)%Q.
Proof.
  destruct (@correction_decreasing_fees_idempotent
              Z Q Z.eq_dec Q_eq_dec
              [(30, [((1 # 2)%Q, Finite 5)]); (60, [((1 # 2)%Q, Finite 7)])]
              [30; 60] [(1 # 2)%Q])
    as (e1 & e2 & H1 & H2 & H3 & _).
  - repeat constructor; simpl; intuition discriminate.
  - intros w c [<-|[<-|[]]] [<-|[]]; vm_compute; eauto.
  - exists e1, e2. auto.
Defined.

(** ** Errors of the estimation *)

Section MissingFlow.
Variables (fuel : nat) (mempool : FeeBuckets.t) (flow : flows) (max_fee_rate : Z).
Hypothesis Hmax : 0 <= max_fee_rate.
Hypothesis Hmempool : FeeBuckets.max_fee_rate mempool <= max_fee_rate.
Hypothesis Hflows :
  forall m fb, dict_get Z.eq_dec flow m = Some fb ->
               FeeBuckets.max_fee_rate fb <= max_fee_rate.



End MissingFlow.



(** ** The corrected table *)

(** The table [compute_estimates_by_minute] returns, on target windows that
    are pairwise distinct: the running minima of the table before the
    correction. *)
Lemma compute_estimates_by_minute_spec
      (mempool : FeeBuckets.t) (flow : flows) (targets_minute : list Z) :
  FeeBuckets.keys_normalized mempool ->
  (forall m, In m targets_minute -> exists fl, dict_get Z.eq_dec flow m = Some fl) ->
  targets_minute <> [] ->
  NoDup targets_minute ->
  exists fuel0,
    forall fuel, (fuel0 <= fuel)%nat ->
    exists raw final,
      estimates_before_correction fuel mempool flow targets_minute = Some (Return raw)
      /\ compute_estimates_by_minute fuel mempool flow targets_minute
         = Some (Return final)
      /\ (forall m c, In m targets_minute -> In c constants.TARGETS_CONFIDENCE ->
          exists fl blocks r,
            dict_get Z.eq_dec flow m = Some fl
            /\ get_min_expected_blocks fuel (inject_Z m) c = Some blocks
            /\ entry Z.eq_dec Q_eq_dec raw m c = Some (Finite r)
            /\ 1 <= r
            /\ forall r', 1 <= r' -> empties mempool fl m blocks r' = true -> r <= r')
      /\ (forall c, In c constants.TARGETS_CONFIDENCE ->
          forall p w s, targets_minute = p ++ w :: s ->
                        entry Z.eq_dec Q_eq_dec final w c
                        = Some (running_min Z.eq_dec Q_eq_dec raw c (p ++ [w]))).
Proof.
  intros Hnorm Hcov Hne Hnd.
  assert (flow <> []) as Hfne.
  { destruct targets_minute as [|m0 rest]; [congruence|].
    destruct (Hcov m0) as [fl Hfl]; [simpl; auto|]. intros ->. discriminate. }
  destruct (@estimates_before_correction_spec mempool flow targets_minute Hnorm Hfne Hcov)
    as (mx & fuel0 & _ & _ & _ & H).
  exists fuel0. intros fuel Hf. destruct (H fuel Hf) as (raw & Hraw & Hin & _).
  destruct (@correction_decreasing_fees_spec
              Z Q Z.eq_dec Q_eq_dec raw targets_minute constants.TARGETS_CONFIDENCE Hnd)
    as (final & Hrun & _ & Hfin).
  { intros m c Hm Hc. destruct (Hin m c Hm Hc) as (fl & blocks & r & _ & _ & He & _).
    eauto. }
  exists raw, final. split; [assumption|]. split.
  { unfold compute_estimates_by_minute. rewrite Hraw, Hrun. reflexivity. }
  split; [|exact Hfin].
  intros m c Hm Hc.
  destruct (Hin m c Hm Hc) as (fl & blocks & r & H1 & H2 & H3 & H4 & _ & H6).
  exists fl, blocks, r. repeat (split; [assumption|]). split; [lia | exact H6].
Qed.

(** Property X15.  For distinct non-negative target windows that all have
    a flow, the table [compute_estimates_by_minute] returns keeps the raw
    estimate of the first window, is non-increasing along the list of
    windows for every confidence, and never exceeds the raw estimates. *)
Theorem estimates_decrease_with_window
        (mempool : FeeBuckets.t) (flow : flows) (targets_minute : list Z) :
  FeeBuckets.keys_normalized mempool ->
  (forall m, In m targets_minute ->
             0 <= m /\ exists fl, dict_get Z.eq_dec flow m = Some fl) ->
  targets_minute <> [] ->
  NoDup targets_minute ->
  exists fuel0,
    forall fuel, (fuel0 <= fuel)%nat ->
    exists raw final,
      estimates_before_correction fuel mempool flow targets_minute = Some (Return raw)
      /\ compute_estimates_by_minute fuel mempool flow targets_minute
         = Some (Return final)
      /\ forall c, In c constants.TARGETS_CONFIDENCE ->
         (forall w rest, targets_minute = w :: rest ->
                         entry Z.eq_dec Q_eq_dec final w c
                         = entry Z.eq_dec Q_eq_dec raw w c)
         /\ (forall p w q w' s,
                targets_minute = p ++ w :: q ++ w' :: s ->
                estimate_le (entry_or_inf Z.eq_dec Q_eq_dec final w' c)
                            (entry_or_inf Z.eq_dec Q_eq_dec final w c))
         /\ (forall w, In w targets_minute ->
                       estimate_le (entry_or_inf Z.eq_dec Q_eq_dec final w c)
                                   (entry_or_inf Z.eq_dec Q_eq_dec raw w c)).
Proof.
  intros Hnorm Hcov Hne Hnd.
  destruct (@compute_estimates_by_minute_spec mempool flow targets_minute Hnorm)
    as [fuel0 H]; [intros m Hm; apply Hcov; assumption | assumption | assumption |].
  exists fuel0. intros fuel Hf.
  destruct (H fuel Hf) as (raw & final & Hraw & Hfinal & Hin & Hfin).
  exists raw, final. split; [assumption|]. split; [assumption|].
  intros c Hc. split; [|split].
  - intros w rest E. rewrite (Hfin c Hc [] w rest E).
    destruct (Hin w c) as (fl & blocks & r & _ & _ & He & _);
      [rewrite E; simpl; auto | assumption |].
    unfold running_min, entry_or_inf. simpl. rewrite He, py_min_inf_l. reflexivity.
  - intros p w q w' s E. unfold entry_or_inf.
    rewrite (Hfin c Hc p w (q ++ w' :: s) E).
    rewrite (Hfin c Hc (p ++ w :: q) w' s) by (rewrite E, <- app_assoc; reflexivity).
    replace ((p ++ w :: q) ++ [w']) with ((p ++ [w]) ++ (q ++ [w']))
      by (rewrite <- !app_assoc; reflexivity).
    apply running_min_app_le.
  - intros w Hw. destruct (in_split _ _ Hw) as (p & s & E).
    unfold entry_or_inf at 1. rewrite (Hfin c Hc p w s E).
    rewrite running_min_snoc. apply py_min_le_r.
Qed.

Lemma estimates_decrease_with_window_witness :
  exists fuel0,
    forall fuel, (fuel0 <= fuel)%nat ->
    exists raw final,
      estimates_before_correction fuel [(5, (1000000 # 1)%Q)]
                                  [(30, []); (60, [])] [30; 60]
      = Some (Return raw)
      /\ compute_estimates_by_minute fuel [(5, (1000000 # 1)%Q)]
                                     [(30, []); (60, [])] [30; 60]
         = Some (Return final)
      /\ estimate_le (entry_or_inf Z.eq_dec Q_eq_dec final 60 (1 # 2)%Q)
                     (entry_or_inf Z.eq_dec Q_eq_dec final 30 (1 # 2)%Q).
Proof.
  destruct (@estimates_decrease_with_window
              [(5, (1000000 # 1)%Q)] [(30, []); (60, [])] [30; 60]) as [fuel0 H].
  - repeat constructor; vm_compute; discriminate.
  - intros m [<-|[<-|[]]]; (split; [lia | simpl; eauto]).
  - discriminate.
  - repeat constructor; simpl; intuition discriminate.
  - exists fuel0. intros fuel Hf.
    destruct (H fuel Hf) as (raw & final & H1 & H2 & H3).
    exists raw, final. split; [assumption|]. split; [assumption|].
    destruct (H3 (1 # 2)%Q) as (_ & Hdec & _); [simpl; auto|].
    apply (Hdec [] 30 [] 60 []). reflexivity.
Defined.

Lemma aggregate_from_min_is_sum (self : FeeBuckets.t) :
  FeeBuckets.keys_normalized self ->
  (FeeBuckets.get_aggregate_sup self 1 == FeeBuckets.sum self)%Q.
Proof.
  intros Hn. rewrite get_aggregate_sup_sum_from, sum_from_all.
  - unfold FeeBuckets.sum. rewrite sum_loop. ring.
  - intros k Hk. unfold FeeBuckets.keys_normalized in Hn. rewrite Forall_forall in Hn.
    specialize (Hn k Hk). unfold constants.MIN_FEE_RATE in Hn. lia.
Qed.

(** Property X16.  When the whole mempool and the whole inflow of the
    window fit in the blocks expected for the window and confidence, the
    returned estimate is [MIN_FEE_RATE]. *)
Theorem estimate_is_minimum_fee_when_all_fits
        (mempool : FeeBuckets.t) (flow : flows) (targets_minute : list Z)
        (m : Z) (c : Q) (flow_m : FeeBuckets.t) :
  FeeBuckets.keys_normalized mempool ->
  FeeBuckets.keys_normalized flow_m ->
  (forall m', In m' targets_minute ->
              0 <= m' /\ exists fl, dict_get Z.eq_dec flow m' = Some fl) ->
  NoDup targets_minute ->
  In m targets_minute ->
  In c constants.TARGETS_CONFIDENCE ->
  dict_get Z.eq_dec flow m = Some flow_m ->
  exists fuel0,
    forall fuel, (fuel0 <= fuel)%nat ->
    exists blocks,
      get_min_expected_blocks fuel (inject_Z m) c = Some blocks
      /\ ((FeeBuckets.sum mempool + FeeBuckets.sum flow_m * inject_Z m
           <= inject_Z (Z.of_nat blocks) * inject_Z constants.BLOCK_CAPACITY_WU)%Q ->
          exists final,
            compute_estimates_by_minute fuel mempool flow targets_minute
            = Some (Return final)
            /\ entry Z.eq_dec Q_eq_dec final m c = Some (Finite constants.MIN_FEE_RATE)).
Proof.
  intros Hnorm Hnfl Hcov Hnd Hm Hc Hfl.
  destruct (@compute_estimates_by_minute_spec mempool flow targets_minute Hnorm)
    as [fuel0 H]; [intros m' Hm'; apply Hcov; assumption | | assumption |].
  { intros ->. destruct Hm. }
  exists fuel0. intros fuel Hf.
  destruct (H fuel Hf) as (raw & final & Hraw & Hfinal & Hin & Hfin).
  destruct (Hin m c Hm Hc) as (fl & blocks & r & H1 & H2 & H3 & H4 & H5).
  assert (fl = flow_m) as -> by congruence.
  exists blocks. split; [assumption|]. intros Hfits.
  exists final. split; [assumption|].
  assert (r = 1) as ->.
  { assert (r <= 1); [|lia]. apply H5; [lia|].
    unfold empties, end_weight. apply Qle_bool_iff.
    rewrite !aggregate_from_min_is_sum by assumption. Lqa.lra. }
  destruct (in_split _ _ Hm) as (p & s & E).
  rewrite (Hfin c Hc p m s E). f_equal.
  destruct (@running_min_attained Z Q Z.eq_dec Q_eq_dec raw c (p ++ [m]))
    as (w & Hw & Hatt); [destruct p; discriminate|].
  assert (In w targets_minute) as Hwt.
  { rewrite E. apply in_app_or in Hw. apply in_or_app.
    destruct Hw as [Hw|[<-|[]]]; [auto | right; simpl; auto]. }
  destruct (Hin w c Hwt Hc) as (flw & bw & rw & _ & _ & Hew & Hrw & _).
  assert (Hle := @running_min_le_entry Z Q Z.eq_dec Q_eq_dec raw c (p ++ [m]) m
                   ltac:(apply in_or_app; simpl; auto)).
  rewrite <- Hatt in *. unfold entry_or_inf in *. rewrite Hew, ?H3 in *.
  unfold estimate_le, estimate_leb, estimate_ltb in Hle. simpl in Hle.
  unfold constants.MIN_FEE_RATE. f_equal.
  destruct (Z.ltb_spec 1 rw); [discriminate | lia].
Qed.

Lemma one_hour_expects_a_block (fuel blocks : nat) :
  get_min_expected_blocks fuel (inject_Z 60) (1 # 2) = Some blocks -> (1 <= blocks)%nat.
Proof.
  intros H. apply loop_sound in H. destruct H as (_ & Hp & _).
  destruct blocks as [|n]; [|lia]. exfalso.
  unfold get_prob_of_min_blocks, poisson_cdf, constants.TARGET_BLOCK_TIME_MINUTES, Q2R
    in Hp.
  simpl in Hp.
  assert (exp (- (60 * / 1 / 10)) < exp (- (1)))%R as H1
      by (apply exp_increasing; lra).
  rewrite (exp_Ropp 1) in H1. assert (H2 := inv_exp_1_bounds). lra.
Qed.

Lemma estimate_is_minimum_fee_when_all_fits_witness :
  exists fuel0,
    forall fuel, (fuel0 <= fuel)%nat ->
    exists final,
      compute_estimates_by_minute fuel [(5, (1000000 # 1)%Q)] [(60, [])] [60]
      = Some (Return final)
      /\ entry Z.eq_dec Q_eq_dec final 60 (1 # 2)%Q = Some (Finite 1).
Proof.
  destruct (@estimate_is_minimum_fee_when_all_fits
              [(5, (1000000 # 1)%Q)] [(60, [])] [60] 60 (1 # 2)%Q []) as [fuel0 H].
  - repeat constructor; vm_compute; discriminate.
  - constructor.
  - intros m' [<-|[]]. split; [lia | simpl; eauto].
  - repeat constructor; simpl; tauto.
  - simpl. auto.
  - simpl. auto.
  - reflexivity.
  - exists fuel0. intros fuel Hf. destruct (H fuel Hf) as (blocks & Hb & Hfits).
    apply Hfits. apply one_hour_expects_a_block in Hb.
    unfold Qle. simpl. unfold constants.BLOCK_CAPACITY_WU. lia.
Defined.

(** ** Requests of the RPC gateway *)

Lemma get_raw_transaction_spec (bitcoind : node) (txid : string)
      (self : BitcoindClient.t) :
  snd (BitcoindClient.get_raw_transaction bitcoind txid self) = after_requests self 1
  /\ match node_returns bitcoind txid with
     | Some r => fst (BitcoindClient.get_raw_transaction bitcoind txid self) = Return r
     | None => exists e,
         fst (BitcoindClient.get_raw_transaction bitcoind txid self) = Raise e
     end.
Proof.
  unfold BitcoindClient.get_raw_transaction, BitcoindClient._enqueue_http,
    BitcoindClient._process_http, io_try, io_ret, io_raise, node_returns,
    after_requests.
  destruct (bitcoind txid) as [[error|] r| |]; simpl; eauto.
  destruct (error_code error =? -5); simpl; eauto.
Qed.

Lemma get_raw_transaction_run (bitcoind : node) (txid : string)
      (self : BitcoindClient.t) :
  exists outcome,
    BitcoindClient.get_raw_transaction bitcoind txid self
    = (outcome, after_requests self 1)
    /\ match node_returns bitcoind txid with
       | Some r => outcome = Return r
       | None => exists e, outcome = Raise e
       end.
Proof.
  destruct (get_raw_transaction_spec bitcoind txid self) as [H1 H2].
  destruct (BitcoindClient.get_raw_transaction bitcoind txid self) as [o s].
  simpl in *. subst s. exists o. split; [reflexivity | exact H2].
Qed.

Lemma after_requests_add (self : BitcoindClient.t) (a b : Z) :
  after_requests (after_requests self a) b = after_requests self (a + b).
Proof. unfold after_requests. simpl. f_equal. lia. Qed.

(** Property X17.  Every call of [get_raw_transaction] sends exactly one
    request, whatever its outcome; an unreachable node gives the client
    error, an undecodable body gives [JSONDecodeError], and a response
    without error gives its result. *)
Theorem get_raw_transaction_one_request
        (bitcoind : node) (txid : string) (self : BitcoindClient.t) :
  BitcoindClient._request_count
    (snd (BitcoindClient.get_raw_transaction bitcoind txid self))
  = BitcoindClient._request_count self + 1
  /\ (bitcoind txid = Unreachable ->
      fst (BitcoindClient.get_raw_transaction bitcoind txid self) = Raise ClientError)
  /\ (bitcoind txid = Undecodable ->
      fst (BitcoindClient.get_raw_transaction bitcoind txid self)
      = Raise JSONDecodeError)
  /\ (forall rpc_result,
         bitcoind txid = Body None rpc_result ->
         fst (BitcoindClient.get_raw_transaction bitcoind txid self)
         = Return rpc_result).
Proof.
  unfold BitcoindClient.get_raw_transaction, BitcoindClient._enqueue_http,
    BitcoindClient._process_http, io_try, io_ret, io_raise.
  split.
  - destruct (bitcoind txid) as [[error|] r| |]; simpl; try reflexivity.
    destruct (error_code error =? -5); reflexivity.
  - repeat split; [intros -> | intros -> | intros r ->]; reflexivity.
Qed.

Lemma get_raw_transaction_one_request_witness :
  fst (BitcoindClient.get_raw_transaction example_node "nowhere"
                                          {| BitcoindClient._request_count := 7 |})
  = Raise ClientError.
Proof.
  destruct (@get_raw_transaction_one_request
              example_node "nowhere" {| BitcoindClient._request_count := 7 |})
    as (_ & H & _).
  apply H. reflexivity.
Defined.

(** ** Input sums *)

Section InputSum.
Variable bitcoind : node.

Lemma load_inputs_loadable vin :
  forallb (loadable bitcoind) vin = true ->
  forall input_txs self,
    answers_of bitcoind input_txs ->
    exists input_txs',
      DbTxSummary.load_inputs bitcoind vin input_txs self
      = (Return input_txs', after_requests self (Z.of_nat (List.length vin)))
      /\ answers_of bitcoind input_txs'
      /\ forall input iid, In input vin -> in_txid input = Some iid ->
                           exists r, dict_get string_dec input_txs' iid = Some r.
Proof.
  induction vin as [|x rest IH]; intros Hall input_txs self Hcons.
  - exists input_txs. simpl. unfold io_ret, after_requests. simpl.
    split; [destruct self; simpl; do 2 f_equal; lia|].
    split; [assumption | intros input iid []].
  - simpl in Hall. apply andb_true_iff in Hall. destruct Hall as [Hx Hrest].
    unfold loadable in Hx.
    destruct (in_txid x) as [iid0|] eqn:Hid; [|discriminate].
    destruct (node_returns bitcoind iid0) as [r0|] eqn:Hr0; [|discriminate].
    cbn [DbTxSummary.load_inputs]. unfold io_bind, io_of_result. rewrite Hid.
    destruct (get_raw_transaction_run bitcoind iid0 self) as (o & Hrun & Ho).
    rewrite Hrun, Hr0 in *. subst o.
    destruct (IH Hrest (dict_set string_dec input_txs iid0 r0) (after_requests self 1))
      as (txs' & Hload & Hcons' & Hpres).
    { intros iid r. destruct (string_dec iid0 iid) as [<-|N].
      - rewrite dict_get_set_same. congruence.
      - rewrite dict_get_set_other by assumption. apply Hcons. }
    exists txs'. split; [|split; [assumption|]].
    + rewrite Hload, after_requests_add. do 2 f_equal.
      change (List.length (x :: rest)) with (S (List.length rest)). lia.
    + intros input iid [<-|Hin] Hi.
      * assert (iid = iid0) as -> by congruence.
        destruct (in_dec string_dec iid0
                         (flat_map (fun i => match in_txid i with
                                             | Some k => [k] | None => [] end) rest))
          as [F|F].
        -- apply in_flat_map in F. destruct F as (i & Hi' & Hk).
           destruct (in_txid i) as [k|] eqn:Ek; [|destruct Hk].
           destruct Hk as [->|[]]. apply (Hpres i iid0 Hi' Ek).
        -- clear Hpres IH.
           assert (forall vin txs s txs' s',
                      DbTxSummary.load_inputs bitcoind vin txs s = (Return txs', s') ->
                      forall k r, dict_get string_dec txs k = Some r ->
                                  exists r', dict_get string_dec txs' k = Some r') as Hkeep.
           { clear. induction vin as [|y vin IHv]; intros txs s txs' s' H k r Hk.
             - simpl in H. unfold io_ret in H. injection H as <- _. eauto.
             - cbn [DbTxSummary.load_inputs] in H. unfold io_bind, io_of_result in H.
               destruct (in_txid y) as [j|]; [|discriminate].
               destruct (BitcoindClient.get_raw_transaction bitcoind j s) as [[rj|e] s1];
                 [|discriminate].
               destruct (string_dec j k) as [<-|N].
               + eapply (IHv _ _ _ _ H j). apply dict_get_set_same.
               + eapply (IHv _ _ _ _ H k). rewrite dict_get_set_other by assumption.
                 exact Hk. }
           eapply Hkeep; [exact Hload | apply dict_get_set_same].
      * apply (Hpres input iid Hin Hi).
Qed.

Lemma load_inputs_not_loadable vin :
  forallb (loadable bitcoind) vin = false ->
  forall input_txs self,
    exists e self',
      DbTxSummary.load_inputs bitcoind vin input_txs self = (Raise e, self').
Proof.
  induction vin as [|x rest IH]; intros Hall input_txs self; [discriminate|].
  simpl in Hall. cbn [DbTxSummary.load_inputs]. unfold io_bind, io_of_result.
  unfold loadable in Hall at 1.
  destruct (in_txid x) as [iid0|] eqn:Hid; [|eauto].
  destruct (get_raw_transaction_run bitcoind iid0 self) as (o & Hrun & Ho).
  rewrite Hrun.
  destruct (node_returns bitcoind iid0) as [r0|] eqn:Hr0.
  - subst o. simpl in Hall. apply (IH Hall).
  - destruct Ho as [e ->]. eauto.
Qed.

Lemma sum_inputs_spec vin input_txs :
  answers_of bitcoind input_txs ->
  (forall input iid, In input vin -> in_txid input = Some iid ->
                     exists r, dict_get string_dec input_txs iid = Some r) ->
  forall input_sum,
    match inputs_total bitcoind vin with
    | Some total =>
        DbTxSummary.sum_inputs vin input_txs input_sum = Return (input_sum + total)
    | None => exists e, DbTxSummary.sum_inputs vin input_txs input_sum = Raise e
    end.
Proof.
  intros Hcons. induction vin as [|x rest IH]; intros Hpres input_sum.
  - simpl. f_equal. lia.
  - cbn [inputs_total DbTxSummary.sum_inputs]. unfold input_value.
    destruct (in_txid x) as [iid|] eqn:Hid; [|simpl; eauto].
    destruct (Hpres x iid (or_introl eq_refl) Hid) as [r Hr].
    rewrite (Hcons iid r Hr). cbn [bind]. unfold dict_lookup. rewrite Hr. cbn [bind].
    destruct r as [prev|]; [|destruct (in_vout x); simpl; eauto].
    cbn [bind].
    destruct (in_vout x) as [n|]; [|simpl; eauto]. cbn [bind].
    destruct (nth_error (tx_vout prev) n) as [out|]; [|simpl; eauto]. cbn [bind].
    assert (Hrest := IH (fun i k Hi => Hpres i k (or_intror Hi))
                        (input_sum + py_int (inject_Z constants.COIN * out_value out))).
    destruct (inputs_total bitcoind rest) as [total|].
    + rewrite Hrest. f_equal. lia.
    + exact Hrest.
Qed.

Lemma inputs_total_loadable vin total :
  inputs_total bitcoind vin = Some total -> forallb (loadable bitcoind) vin = true.
Proof.
  revert total. induction vin as [|x rest IH]; intros total H; [reflexivity|].
  simpl in *. unfold input_value, loadable in *.
  destruct (in_txid x) as [iid|]; [|discriminate].
  destruct (in_vout x) as [n|]; [|discriminate].
  destruct (node_returns bitcoind iid) as [[prev|]|]; try discriminate.
  destruct (nth_error (tx_vout prev) n); [|discriminate].
  destruct (inputs_total bitcoind rest) as [total'|]; [|discriminate].
  simpl. eapply IH. reflexivity.
Qed.

Lemma compute_input_sum_spec (tx : transaction) (self : BitcoindClient.t) :
  match inputs_total bitcoind (tx_vin tx) with
  | Some total =>
      DbTxSummary._compute_input_sum bitcoind tx self
      = (Return total, after_requests self (Z.of_nat (List.length (tx_vin tx))))
  | None =>
      exists e self',
        DbTxSummary._compute_input_sum bitcoind tx self = (Raise e, self')
  end.
Proof.
  unfold DbTxSummary._compute_input_sum, io_bind, io_of_result.
  destruct (forallb (loadable bitcoind) (tx_vin tx)) eqn:Hl.
  - destruct (@load_inputs_loadable (tx_vin tx) Hl [] self) as (txs & Hload & Hc & Hp).
    { intros iid r H. discriminate. }
    rewrite Hload. assert (Hs := @sum_inputs_spec (tx_vin tx) txs Hc Hp 0).
    destruct (inputs_total bitcoind (tx_vin tx)) as [total|].
    + rewrite Hs. reflexivity.
    + destruct Hs as [e ->]. eauto.
  - destruct (@load_inputs_not_loadable (tx_vin tx) Hl [] self) as (e & self' & Hload).
    rewrite Hload.
    destruct (inputs_total bitcoind (tx_vin tx)) as [total|] eqn:Ht; [|eauto].
    apply inputs_total_loadable in Ht. congruence.
Qed.
End InputSum.

(** ** Summaries of spending transactions *)

Lemma compute_tx_summary_spec (bitcoind : node) (txid : string)
      (self : BitcoindClient.t) :
  match node_returns bitcoind txid with
  | None =>
      exists e, DbTxSummary._compute_tx_summary bitcoind txid self
                = (Raise e, after_requests self 1)
  | Some None =>
      DbTxSummary._compute_tx_summary bitcoind txid self
      = (Return None, after_requests self 1)
  | Some (Some tx) =>
      match tx_vin tx with
      | [] =>
          DbTxSummary._compute_tx_summary bitcoind txid self
          = (Raise IndexError, after_requests self 1)
      | first :: _ =>
          match in_coinbase first with
          | Some _ =>
              DbTxSummary._compute_tx_summary bitcoind txid self
              = (Return (Some {| txid := txid; weight := tx_weight tx;
                                 inputs := DbTxSummary._compute_output_sum tx;
                                 outputs := DbTxSummary._compute_output_sum tx |}),
                 after_requests self 1)
          | None =>
              match inputs_total bitcoind (tx_vin tx) with
              | Some total =>
                  DbTxSummary._compute_tx_summary bitcoind txid self
                  = (Return (Some {| txid := txid; weight := tx_weight tx;
                                     inputs := total;
                                     outputs := DbTxSummary._compute_output_sum tx |}),
                     after_requests self (1 + Z.of_nat (List.length (tx_vin tx))))
              | None =>
                  exists e self',
                    DbTxSummary._compute_tx_summary bitcoind txid self = (Raise e, self')
              end
          end
      end
  end.
Proof.
  unfold DbTxSummary._compute_tx_summary, io_bind.
  destruct (get_raw_transaction_run bitcoind txid self) as (o & Hrun & Ho).
  rewrite Hrun.
  destruct (node_returns bitcoind txid) as [[tx|]|].
  - subst o. unfold DbTxSummary._is_coinbase, io_of_result, io_ret.
    destruct (tx_vin tx) as [|first rest] eqn:Hvin; [reflexivity|].
    destruct (in_coinbase first) as [script|]; [reflexivity|].
    assert (Hsum := compute_input_sum_spec bitcoind tx (after_requests self 1)).
    rewrite Hvin in Hsum.
    destruct (inputs_total bitcoind (first :: rest)) as [total|].
    + rewrite Hsum, after_requests_add. reflexivity.
    + destruct Hsum as (e & self' & ->). eauto.
  - subst o. reflexivity.
  - destruct Ho as [e ->]. eauto.
Qed.

(** Property X18.  The summary of a transaction that is not a coinbase:
    when every input refers to an output the node knows, [inputs] is the
    sum of the referenced outputs in satoshis, [outputs] the sum of its own
    outputs, and the client has sent one request for the transaction and
    one for each input; otherwise the computation raises. *)
Theorem spending_summary_reads_referenced_outputs
        (bitcoind : node) (txid : string) (self : BitcoindClient.t)
        (tx : transaction) (first : tx_input) (rest : list tx_input) :
  node_returns bitcoind txid = Some (Some tx) ->
  tx_vin tx = first :: rest ->
  in_coinbase first = None ->
  (forall total,
      inputs_total bitcoind (tx_vin tx) = Some total ->
      DbTxSummary._compute_tx_summary bitcoind txid self
      = (Return (Some {| txid := txid; weight := tx_weight tx;
                         inputs := total;
                         outputs := DbTxSummary._compute_output_sum tx |}),
         after_requests self (1 + Z.of_nat (List.length (tx_vin tx)))))
  /\ (inputs_total bitcoind (tx_vin tx) = None ->
      exists e self',
        DbTxSummary._compute_tx_summary bitcoind txid self = (Raise e, self')).
Proof.
  intros Hnode Hvin Hcb.
  assert (H := compute_tx_summary_spec bitcoind txid self).
  rewrite Hnode, Hvin, Hcb in H. rewrite Hvin.
  split.
  - intros total Ht. rewrite Ht in H. exact H.
  - intros Ht. rewrite Ht in H. exact H.
Qed.

Lemma spending_summary_reads_referenced_outputs_witness :
  DbTxSummary._compute_tx_summary example_node "spend"
                                  {| BitcoindClient._request_count := 0 |}
  = (Return (Some {| txid := "spend"; weight := 600;
                     inputs := 1250000000; outputs := 1200000000 |}),
     {| BitcoindClient._request_count := 2 |}).
Proof.
  destruct (@spending_summary_reads_referenced_outputs
              example_node "spend" {| BitcoindClient._request_count := 0 |}
              {| tx_vin := [{| in_coinbase := None; in_txid := Some "mint";
                               in_vout := Some 0%nat |}];
                 tx_vout := [{| out_value := (12 # 1)%Q |}];
                 tx_weight := 600 |}
              {| in_coinbase := None; in_txid := Some "mint"; in_vout := Some 0%nat |}
              [] eq_refl eq_refl eq_refl) as [H _].
  apply (H 1250000000). reflexivity.
Defined.

(** Property X19.  Edge cases of [_compute_tx_summary]: a transaction
    the node reports absent gives [None] after one request; a transaction
    without inputs raises [IndexError]; and a transaction whose first input
    spends from a transaction the node reports absent, the other inputs
    being loadable, raises [TypeError]. *)
Theorem summary_edge_cases
        (bitcoind : node) (txid : string) (self : BitcoindClient.t) :
  (node_returns bitcoind txid = Some None ->
   DbTxSummary._compute_tx_summary bitcoind txid self
   = (Return None, after_requests self 1))
  /\ (forall tx,
         node_returns bitcoind txid = Some (Some tx) -> tx_vin tx = [] ->
         DbTxSummary._compute_tx_summary bitcoind txid self
         = (Raise IndexError, after_requests self 1))
  /\ (forall tx first rest iid,
         node_returns bitcoind txid = Some (Some tx) ->
         tx_vin tx = first :: rest ->
         in_coinbase first = None ->
         in_txid first = Some iid ->
         node_returns bitcoind iid = Some None ->
         forallb (loadable bitcoind) rest = true ->
         fst (DbTxSummary._compute_tx_summary bitcoind txid self) = Raise TypeError).
Proof.
  assert (H := compute_tx_summary_spec bitcoind txid self).
  split; [|split].
  - intros Hn. rewrite Hn in H. exact H.
  - intros tx Hn Hvin. rewrite Hn, Hvin in H. exact H.
  - intros tx first rest iid Hn Hvin Hcb Hid Habsent Hrest. clear H.
    unfold DbTxSummary._compute_tx_summary, io_bind.
    destruct (get_raw_transaction_run bitcoind txid self) as (o & Hrun & Ho).
    rewrite Hrun, Hn in *. subst o.
    unfold DbTxSummary._is_coinbase, io_of_result. rewrite Hvin, Hcb.
    unfold DbTxSummary._compute_input_sum, io_bind, io_of_result. rewrite Hvin.
    destruct (@load_inputs_loadable bitcoind (first :: rest)) with
        (input_txs := @nil (string * option transaction))
        (self := after_requests self 1) as (txs & Hload & Hc & Hp).
    + simpl. unfold loadable at 1. rewrite Hid, Habsent. exact Hrest.
    + intros k r Hk. discriminate.
    + rewrite Hload. cbn [DbTxSummary.sum_inputs]. rewrite Hid. cbn [bind].
      destruct (Hp first iid (or_introl eq_refl) Hid) as [r Hr].
      assert (r = None) as -> by (apply Hc in Hr; congruence).
      unfold dict_lookup. rewrite Hr. reflexivity.
Qed.

Lemma summary_edge_cases_witness :
  DbTxSummary._compute_tx_summary example_node "gone"
                                  {| BitcoindClient._request_count := 0 |}
  = (Return None, {| BitcoindClient._request_count := 1 |}).
Proof.
  destruct (@summary_edge_cases example_node "gone"
                                {| BitcoindClient._request_count := 0 |}) as [H _].
  apply H. reflexivity.
Defined.

(** ** The cache of summaries *)

Lemma dict_In_get (K V : Type) (K_eq_dec : forall a b : K, {a = b} + {a <> b})
      (d : dict K V) (k : K) (v : V) :
  dict_wf d -> In (k, v) d -> dict_get K_eq_dec d k = Some v.
Proof.
  unfold dict_wf. induction d as [|[k0 v0] d IH]; simpl; [tauto|].
  intros Hwf [E|Hin].
  - injection E as -> ->. destruct (K_eq_dec k k); congruence.
  - inversion Hwf as [|? ? Hnotin Hwf']; subst.
    destruct (K_eq_dec k k0) as [->|_]; [|auto].
    exfalso. apply Hnotin. change k0 with (fst (k0, v)). apply in_map, Hin.
Qed.

Lemma find_In (self : DbTxSummary.t) (ids : list string)
      (doc : RecordTransactionSummary) :
  In doc (DbTxSummary.find self ids)
  <-> exists k, In (k, doc) (DbTxSummary._collection self) /\ In k ids.
Proof.
  unfold DbTxSummary.find. rewrite in_map_iff. split.
  - intros ([k d] & E & Hin). simpl in E. subst d.
    apply filter_In in Hin. destruct Hin as [Hin Hk]. simpl in Hk.
    destruct (in_dec string_dec k ids); [eauto | discriminate].
  - intros (k & Hin & Hk). exists (k, doc). split; [reflexivity|].
    apply filter_In. split; [exact Hin|]. simpl.
    destruct (in_dec string_dec k ids); [reflexivity | contradiction].
Qed.

Lemma cache_fold_get (cursor : list RecordTransactionSummary)
      (k : string) (d0 : RecordTransactionSummary) :
  (forall doc, In doc cursor -> txid doc = k -> doc = d0) ->
  forall records : DbTxSummary.record_map,
    dict_get string_dec
             (fold_left (fun records doc =>
                           dict_set string_dec records (txid doc) (Some doc))
                        cursor records) k
    = if existsb (fun doc => if string_dec (txid doc) k then true else false) cursor
      then Some (Some d0)
      else dict_get string_dec records k.
Proof.
  induction cursor as [|doc rest IH]; intros Huniq records; [reflexivity|].
  cbn [fold_left existsb].
  rewrite IH by (intros; apply Huniq; simpl; auto).
  destruct (existsb _ rest); [rewrite orb_true_r; reflexivity|].
  rewrite orb_false_r.
  destruct (string_dec (txid doc) k) as [E|N].
  - rewrite <- (Huniq doc (or_introl eq_refl) E), E.
    apply dict_get_set_same.
  - apply dict_get_set_other. exact N.
Qed.

Lemma cache_round_get (self : DbTxSummary.t) (ids : list string)
      (records : DbTxSummary.record_map) (k : string) :
  collection_keyed self ->
  dict_get string_dec
           (fold_left (fun records doc =>
                         dict_set string_dec records (txid doc) (Some doc))
                      (DbTxSummary.find self ids) records) k
  = match dict_get string_dec (DbTxSummary._collection self) k with
    | Some doc => if in_dec string_dec k ids then Some (Some doc)
                  else dict_get string_dec records k
    | None => dict_get string_dec records k
    end.
Proof.
  intros [Hwf Hkey].
  destruct (dict_get string_dec (DbTxSummary._collection self) k) as [d|] eqn:Hget.
  - rewrite (@cache_fold_get _ k d).
    + destruct (in_dec string_dec k ids) as [Hin|Hout].
      * replace (existsb _ _) with true; [reflexivity|].
        symmetry. apply existsb_exists. exists d. split.
        -- apply find_In. exists k. split; [apply dict_get_In with (1 := Hget) | exact Hin].
        -- rewrite (Hkey k d (dict_get_In _ _ _ Hget)).
           destruct (string_dec k k); congruence.
      * replace (existsb _ _) with false; [reflexivity|].
        symmetry. apply not_true_is_false. intros H.
        apply existsb_exists in H. destruct H as (doc & Hdoc & Hk).
        apply find_In in Hdoc. destruct Hdoc as (k' & Hin & Hids).
        destruct (string_dec (txid doc) k) as [E|]; [|discriminate].
        rewrite (Hkey k' doc Hin) in E. congruence.
    + intros doc Hdoc E. apply find_In in Hdoc. destruct Hdoc as (k' & Hin & _).
      assert (k' = k) as -> by (rewrite <- (Hkey k' doc Hin); exact E).
      rewrite (@dict_In_get _ _ string_dec _ _ _ Hwf Hin) in Hget. congruence.
  - rewrite (@cache_fold_get _ k {| txid := k; weight := 0; inputs := 0; outputs := 0 |}).
    + replace (existsb _ _) with false; [reflexivity|].
      symmetry. apply not_true_is_false. intros H.
      apply existsb_exists in H. destruct H as (doc & Hdoc & Hk).
      apply find_In in Hdoc. destruct Hdoc as (k' & Hin & _).
      destruct (string_dec (txid doc) k) as [E|]; [|discriminate].
      rewrite (Hkey k' doc Hin) in E. subst k'.
      rewrite (@dict_In_get _ _ string_dec _ _ _ Hwf Hin) in Hget. discriminate.
    + intros doc Hdoc E. apply find_In in Hdoc. destruct Hdoc as (k' & Hin & _).
      rewrite (Hkey k' doc Hin) in E. subst k'.
      rewrite (@dict_In_get _ _ string_dec _ _ _ Hwf Hin) in Hget. discriminate.
Qed.

Lemma load_from_cache_get (self : DbTxSummary.t) (k : string) :
  collection_keyed self ->
  forall (fuel : nat) (ids : list string) (records : DbTxSummary.record_map),
    (List.length ids <= fuel)%nat ->
    dict_get string_dec (DbTxSummary.load_from_cache fuel self ids records) k
    = match dict_get string_dec (DbTxSummary._collection self) k with
      | Some doc => if in_dec string_dec k ids then Some (Some doc)
                    else dict_get string_dec records k
      | None => dict_get string_dec records k
      end.
Proof.
  intros Hkeyed. induction fuel as [|fuel IH]; intros ids records Hlen.
  - destruct ids; [|simpl in Hlen; lia]. simpl.
    destruct (dict_get string_dec (DbTxSummary._collection self) k); reflexivity.
  - destruct ids as [|x ids'] eqn:Hids.
    { simpl. destruct (dict_get string_dec (DbTxSummary._collection self) k); reflexivity. }
    rewrite <- Hids in *.
    assert (Hstep :
              DbTxSummary.load_from_cache (S fuel) self ids records
              = DbTxSummary.load_from_cache
                  fuel self (skipn 100000 ids)
                  (fold_left (fun records doc =>
                                dict_set string_dec records (txid doc) (Some doc))
                             (DbTxSummary.find self (firstn 100000 ids)) records)).
    { rewrite Hids. reflexivity. }
    rewrite Hstep. clear Hstep.
    set (n := 100000%nat).
    assert (Hn : (0 < n)%nat) by (apply Nat.ltb_lt; vm_compute; reflexivity).
    clearbody n.
    assert (Hsplit : forall k', In k' ids <-> In k' (firstn n ids) \/ In k' (skipn n ids)).
    { intros k'. rewrite <- in_app_iff, firstn_skipn. tauto. }
    rewrite IH.
    2:{ rewrite length_skipn.
        assert (0 < List.length ids)%nat by (rewrite Hids; simpl; lia). lia. }
    rewrite cache_round_get by exact Hkeyed.
    destruct (dict_get string_dec (DbTxSummary._collection self) k) as [d|];
      [|reflexivity].
    destruct (in_dec string_dec k (skipn n ids)) as [H1|H1];
      destruct (in_dec string_dec k (firstn n ids)) as [H2|H2];
      destruct (in_dec string_dec k ids) as [H3|H3];
      try reflexivity; exfalso; rewrite Hsplit in H3; tauto.
Qed.

(** ** The constructions of a batch *)

Section Batch.
Variable bitcoind : node.
Variable finished : nat -> nat -> bool.

Lemma spawn_construct_all (todo : list string) :
  forall count pending st,
    (List.length pending + List.length todo <= 1001)%nat ->
    exists created,
      DbTxSummary.spawn bitcoind finished todo count pending st
      = Some (pending ++ created, snd (construct_all bitcoind todo st))
      /\ map DbTxSummary.task_outcome created = fst (construct_all bitcoind todo st).
Proof.
  induction todo as [|txid0 rest IH]; intros count pending st Hlen;
    cbn [DbTxSummary.spawn construct_all].
  - exists []. rewrite app_nil_r. split; reflexivity.
  - simpl in Hlen. rewrite admission_below_limit by lia.
    destruct (DbTxSummary.construct_tx_summary bitcoind txid0 st)
      as [outcome st1] eqn:Hrun.
    set (t0 := {| DbTxSummary.task_number := S count;
                  DbTxSummary.task_outcome := outcome |}).
    destruct (IH (S count) (pending ++ [t0]) st1) as (created & Hsp & Hout).
    { rewrite length_app. simpl. lia. }
    destruct (construct_all bitcoind rest st1) as [outcomes st2].
    exists (t0 :: created). split.
    + rewrite Hsp, <- app_assoc. reflexivity.
    + simpl in *. rewrite Hout. reflexivity.
Qed.

Lemma gather_returned (pending : list DbTxSummary.task) :
  if forallb returned (map DbTxSummary.task_outcome pending)
  then DbTxSummary.gather pending = Return tt
  else exists e, DbTxSummary.gather pending = Raise e.
Proof.
  induction pending as [|t0 rest IH]; simpl; [reflexivity|].
  destruct (DbTxSummary.task_outcome t0) as [r|e]; simpl; [exact IH | eauto].
Qed.

Lemma process_runs_constructions (txid_list : list string) (self : DbTxSummary.t) :
  (List.length (txid_to_construct txid_list self) <= 1001)%nat ->
  exists r,
    DbTxSummary.process bitcoind finished txid_list self
    = Some (r, fst (snd (construct_all
                           bitcoind (txid_to_construct txid_list self)
                           (self, DbTxSummary.load_from_cache
                                    (List.length txid_list) self txid_list []))))
    /\ if forallb returned
                  (fst (construct_all
                          bitcoind (txid_to_construct txid_list self)
                          (self, DbTxSummary.load_from_cache
                                   (List.length txid_list) self txid_list [])))
       then r = Return (snd (snd (construct_all
                                    bitcoind (txid_to_construct txid_list self)
                                    (self, DbTxSummary.load_from_cache
                                             (List.length txid_list) self txid_list []))))
       else exists e, r = Raise e.
Proof.
  intros Hlen. unfold DbTxSummary.process.
  fold (txid_to_construct txid_list self).
  destruct (@spawn_construct_all
              (txid_to_construct txid_list self) 0%nat []
              (self, DbTxSummary.load_from_cache (List.length txid_list) self txid_list []))
    as (created & Hsp & Hout); [simpl; lia|].
  rewrite Hsp. simpl app.
  destruct (construct_all _ _ _) as [outcomes [self' records']]. simpl in *.
  assert (Hg := gather_returned created). rewrite Hout in Hg.
  destruct (forallb returned outcomes).
  - rewrite Hg. eexists. split; reflexivity.
  - destruct Hg as [e ->]. eexists. split; [reflexivity | eauto].
Qed.
End Batch.

Section Constructions.
Variable bitcoind : node.

Lemma compute_tx_summary_returned (txid : string) (self self' : BitcoindClient.t)
      (s : option RecordTransactionSummary) :
  DbTxSummary._compute_tx_summary bitcoind txid self = (Return s, self') ->
  match s with
  | None => node_returns bitcoind txid = Some None
  | Some doc =>
      summary_txid doc = txid
      /\ exists tx, node_returns bitcoind txid = Some (Some tx)
  end.
Proof.
  intros Hrun. assert (H := compute_tx_summary_spec bitcoind txid self).
  destruct (node_returns bitcoind txid) as [[tx|]|].
  - destruct (tx_vin tx) as [|first rest].
    { rewrite H in Hrun. discriminate. }
    destruct (in_coinbase first).
    { rewrite H in Hrun. injection Hrun as <- _. simpl. eauto. }
    destruct (inputs_total bitcoind (first :: rest)).
    + rewrite H in Hrun. injection Hrun as <- _. simpl. eauto.
    + destruct H as (e & s' & H). rewrite H in Hrun. discriminate.
  - rewrite H in Hrun. injection Hrun as <- _. reflexivity.
  - destruct H as (e & H). rewrite H in Hrun. discriminate.
Qed.

(** What a construction that returns has done. *)
Lemma construct_returned (txid : string) (self self' : DbTxSummary.t)
      (records records' : DbTxSummary.record_map)
      (r : string * option RecordTransactionSummary) :
  DbTxSummary.construct_tx_summary bitcoind txid (self, records)
  = (Return r, (self', records')) ->
  exists s,
    r = (txid, s)
    /\ records' = dict_set string_dec records txid s
    /\ match s with
       | None =>
           node_returns bitcoind txid = Some None
           /\ DbTxSummary._collection self' = DbTxSummary._collection self
       | Some doc =>
           summary_txid doc = txid
           /\ (exists tx, node_returns bitcoind txid = Some (Some tx))
           /\ cached self txid = false
           /\ DbTxSummary._collection self'
              = dict_set string_dec (DbTxSummary._collection self) txid doc
       end.
Proof.
  unfold DbTxSummary.construct_tx_summary, DbTxSummary.with_bitcoind, cached.
  destruct (DbTxSummary._compute_tx_summary bitcoind txid (DbTxSummary._bitcoind self))
    as [[s|e] b] eqn:Hsum; [|discriminate].
  apply compute_tx_summary_returned in Hsum.
  destruct s as [doc|].
  - destruct Hsum as [Hid Htx]. unfold DbTxSummary.insert_one. simpl.
    rewrite Hid.
    destruct (dict_mem string_dec (DbTxSummary._collection self) txid) eqn:Hmem;
      [discriminate|].
    intros H. injection H as <- <- <-. exists (Some doc). simpl. tauto.
  - intros H. injection H as <- <- <-. exists None. simpl. tauto.
Qed.

(** What a construction does whether it returns or raises. *)
Lemma construct_frame (txid : string) (self self' : DbTxSummary.t)
      (records records' : DbTxSummary.record_map)
      (o : result (string * option RecordTransactionSummary)) :
  DbTxSummary.construct_tx_summary bitcoind txid (self, records)
  = (o, (self', records')) ->
  (forall k d, dict_get string_dec (DbTxSummary._collection self) k = Some d ->
               dict_get string_dec (DbTxSummary._collection self') k = Some d)
  /\ (forall k, k <> txid ->
                dict_get string_dec (DbTxSummary._collection self') k
                = dict_get string_dec (DbTxSummary._collection self) k)
  /\ (forall k, k <> txid ->
                dict_get string_dec records' k = dict_get string_dec records k).
Proof.
  unfold DbTxSummary.construct_tx_summary, DbTxSummary.with_bitcoind.
  destruct (DbTxSummary._compute_tx_summary bitcoind txid (DbTxSummary._bitcoind self))
    as [[s|e] b] eqn:Hsum.
  - assert (Hs := compute_tx_summary_returned _ _ Hsum).
    destruct s as [doc|].
    + destruct Hs as [Hid _]. unfold DbTxSummary.insert_one. simpl. rewrite Hid.
      destruct (dict_mem string_dec (DbTxSummary._collection self) txid) eqn:Hmem;
        intros H; injection H as <- <- <-; simpl.
      * repeat split; auto.
        intros k N. apply dict_get_set_other. congruence.
      * repeat split.
        -- intros k d Hk. rewrite dict_get_set_other; [exact Hk|].
           intros <-. unfold dict_mem in Hmem. rewrite Hk in Hmem. discriminate.
        -- intros k N. apply dict_get_set_other. congruence.
        -- intros k N. apply dict_get_set_other. congruence.
    + intros H. injection H as <- <- <-. simpl. repeat split; auto.
      intros k N. apply dict_get_set_other. congruence.
  - intros H. injection H as <- <- <-. simpl. auto.
Qed.

Lemma construct_keyed (txid : string) (self self' : DbTxSummary.t)
      (records records' : DbTxSummary.record_map)
      (o : result (string * option RecordTransactionSummary)) :
  DbTxSummary.construct_tx_summary bitcoind txid (self, records)
  = (o, (self', records')) ->
  collection_keyed self -> collection_keyed self'.
Proof.
  unfold DbTxSummary.construct_tx_summary, DbTxSummary.with_bitcoind.
  destruct (DbTxSummary._compute_tx_summary bitcoind txid (DbTxSummary._bitcoind self))
    as [[[doc|]|e] b] eqn:Hsum.
  - unfold DbTxSummary.insert_one. simpl.
    destruct (dict_mem string_dec (DbTxSummary._collection self) (summary_txid doc));
      intros H; injection H as <- <- <-; simpl; [auto|].
    intros [Hwf Hkey]. split; simpl.
    + apply dict_wf_set, Hwf.
    + intros k d Hin. apply dict_set_In in Hin.
      destruct Hin as [Hin|Hin]; [|apply Hkey, Hin].
      injection Hin as -> ->. reflexivity.
  - intros H. injection H as <- <- <-. auto.
  - intros H. injection H as <- <- <-. auto.
Qed.

(** A run of constructions that all return: what the shared mapping and
    the store hold afterwards. *)
Lemma construct_all_returned (todo : list string) :
  forall self records outcomes self' records',
    construct_all bitcoind todo (self, records) = (outcomes, (self', records')) ->
    forallb returned outcomes = true ->
    (forall k d, dict_get string_dec (DbTxSummary._collection self) k = Some d ->
                 dict_get string_dec (DbTxSummary._collection self') k = Some d)
    /\ (forall k, ~ In k todo ->
                  dict_get string_dec (DbTxSummary._collection self') k
                  = dict_get string_dec (DbTxSummary._collection self) k)
    /\ (forall k, ~ In k todo ->
                  dict_get string_dec records' k = dict_get string_dec records k)
    /\ (forall k, In k todo ->
                  match dict_get string_dec records' k with
                  | Some (Some doc) =>
                      dict_get string_dec (DbTxSummary._collection self') k = Some doc
                      /\ txid doc = k
                      /\ cached self k = false
                      /\ exists tx, node_returns bitcoind k = Some (Some tx)
                  | Some None => node_returns bitcoind k = Some None
                  | None => False
                  end).
Proof.
  induction todo as [|txid0 rest IH]; intros self records outcomes self' records';
    cbn [construct_all].
  - intros H _. injection H as <- <- <-. repeat split; auto. intros k [].
  - destruct (DbTxSummary.construct_tx_summary bitcoind txid0 (self, records))
      as [o [self1 records1]] eqn:Hrun.
    destruct (construct_all bitcoind rest (self1, records1))
      as [os [self2 records2]] eqn:Hall.
    intros H Hret. injection H as <- <- <-. cbn [forallb] in Hret.
    apply andb_true_iff in Hret. destruct Hret as [Ho Hos].
    destruct o as [r|e]; [clear Ho | discriminate].
    destruct (IH _ _ _ _ _ Hall Hos) as (IA & IB & IC & ID).
    destruct (@construct_frame _ _ _ _ _ _ Hrun) as (FA & FB & FC).
    destruct (@construct_returned _ _ _ _ _ _ Hrun) as (s & -> & Hrec & Hs).
    split; [|split; [|split]].
    + intros k d Hk. apply IA, FA, Hk.
    + intros k Hk. simpl in Hk. rewrite IB by tauto. apply FB. intros ->. tauto.
    + intros k Hk. simpl in Hk. rewrite IC by tauto. apply FC. intros ->. tauto.
    + intros k Hk.
      destruct (in_dec string_dec k rest) as [Hin|Hout].
      * specialize (ID k Hin).
        destruct (dict_get string_dec records2 k) as [[doc|]|]; auto.
        destruct ID as (D1 & D2 & D3 & D4). repeat split; auto.
        unfold cached in *. unfold dict_mem in *.
        destruct (dict_get string_dec (DbTxSummary._collection self) k) as [d|] eqn:Hc;
          [|reflexivity].
        rewrite (FA _ _ Hc) in D3. discriminate.
      * destruct Hk as [<-|Hk]; [|contradiction].
        rewrite (IC _ Hout), Hrec, dict_get_set_same.
        destruct s as [doc|].
        -- destruct Hs as (S1 & S2 & S3 & S4). repeat split; auto.
           apply IA. rewrite S4. apply dict_get_set_same.
        -- apply Hs.
Qed.



End Constructions.

Section ProcessBatch.
Variable bitcoind : node.
Variable finished : nat -> nat -> bool.

Lemma spawn_state (todo : list string) :
  forall count pending st pending' st',
    DbTxSummary.spawn bitcoind finished todo count pending st = Some (pending', st') ->
    st' = snd (construct_all bitcoind todo st).
Proof.
  induction todo as [|txid0 rest IH]; intros count pending st pending' st';
    cbn [DbTxSummary.spawn construct_all].
  - intros H. injection H as _ <-. reflexivity.
  - destruct (DbTxSummary.admission finished (S count) pending) as [kept|];
      [|discriminate].
    destruct (DbTxSummary.construct_tx_summary bitcoind txid0 st) as [o st1].
    intros H. apply IH in H.
    destruct (construct_all bitcoind rest st1) as [os st2]. exact H.
Qed.

Lemma construct_inserted (txid : string) (self self' : DbTxSummary.t)
      (records records' : DbTxSummary.record_map)
      (o : result (string * option RecordTransactionSummary)) :
  DbTxSummary.construct_tx_summary bitcoind txid (self, records)
  = (o, (self', records')) ->
  forall k d,
    dict_get string_dec (DbTxSummary._collection self') k = Some d ->
    dict_get string_dec (DbTxSummary._collection self) k = Some d
    \/ (k = txid /\ summary_txid d = k
        /\ exists tx, node_returns bitcoind k = Some (Some tx)).
Proof.
  unfold DbTxSummary.construct_tx_summary, DbTxSummary.with_bitcoind.
  destruct (DbTxSummary._compute_tx_summary bitcoind txid (DbTxSummary._bitcoind self))
    as [[s|e] b] eqn:Hsum.
  - assert (Hs := @compute_tx_summary_returned _ _ _ _ _ Hsum).
    destruct s as [doc|].
    + destruct Hs as [Hid Htx]. unfold DbTxSummary.insert_one. simpl. rewrite Hid.
      destruct (dict_mem string_dec (DbTxSummary._collection self) txid);
        intros H; injection H as <- <- <-; simpl; [auto|].
      intros k d Hk. destruct (string_dec txid k) as [<-|N].
      * rewrite dict_get_set_same in Hk. injection Hk as <-. auto.
      * rewrite dict_get_set_other in Hk by exact N. auto.
    + intros H. injection H as <- <- <-. simpl. auto.
  - intros H. injection H as <- <- <-. simpl. auto.
Qed.

(** The store after the constructions of a batch, whether they return or
    raise. *)
Lemma construct_all_store (todo : list string) :
  forall self records,
    (collection_keyed self ->
     collection_keyed (fst (snd (construct_all bitcoind todo (self, records)))))
    /\ (forall k d,
           dict_get string_dec (DbTxSummary._collection self) k = Some d ->
           dict_get string_dec
                    (DbTxSummary._collection
                       (fst (snd (construct_all bitcoind todo (self, records))))) k
           = Some d)
    /\ (forall k d,
           dict_get string_dec
                    (DbTxSummary._collection
                       (fst (snd (construct_all bitcoind todo (self, records))))) k
           = Some d ->
           dict_get string_dec (DbTxSummary._collection self) k = Some d
           \/ (In k todo /\ txid d = k
               /\ exists tx, node_returns bitcoind k = Some (Some tx))).
Proof.
  induction todo as [|txid0 rest IH]; intros self records; cbn [construct_all].
  - simpl. auto.
  - destruct (DbTxSummary.construct_tx_summary bitcoind txid0 (self, records))
      as [o [self1 records1]] eqn:Hrun.
    destruct (IH self1 records1) as (IK & IA & IN).
    destruct (construct_all bitcoind rest (self1, records1)) as [os [self2 records2]].
    simpl in *.
    destruct (@construct_frame _ _ _ _ _ _ _ Hrun) as (FA & _).
    split; [|split].
    + intros Hk. apply IK. exact (@construct_keyed _ _ _ _ _ _ _ Hrun Hk).
    + intros k d Hk. apply IA, FA, Hk.
    + intros k d Hk. destruct (IN k d Hk) as [H1|(Hin & Hid & Htx)]; [|auto].
      destruct (@construct_inserted _ _ _ _ _ _ Hrun k d H1)
        as [H0|(-> & Hid & Htx)]; auto.
Qed.

Lemma cache_snapshot (txid_list : list string) (self : DbTxSummary.t) (k : string) :
  collection_keyed self ->
  dict_get string_dec
           (DbTxSummary.load_from_cache (List.length txid_list) self txid_list []) k
  = match dict_get string_dec (DbTxSummary._collection self) k with
    | Some doc => if in_dec string_dec k txid_list then Some (Some doc) else None
    | None => None
    end.
Proof.
  intros Hk. rewrite (@load_from_cache_get self k Hk) by lia. reflexivity.
Qed.

Lemma txid_to_construct_In (txid_list : list string) (self : DbTxSummary.t)
      (k : string) :
  collection_keyed self ->
  In k (txid_to_construct txid_list self) <-> In k txid_list /\ cached self k = false.
Proof.
  intros Hk. unfold txid_to_construct. rewrite filter_In.
  unfold dict_mem, cached. rewrite cache_snapshot by exact Hk. unfold dict_mem.
  destruct (dict_get string_dec (DbTxSummary._collection self) k) as [d|].
  - destruct (in_dec string_dec k txid_list); simpl; intuition discriminate.
  - simpl. tauto.
Qed.
End ProcessBatch.

(** Property X20.  A batch whose ids are all in the store is served from
    the store: [process] returns a mapping holding the stored document of
    every id of the batch and no other key, and the engine is unchanged (no
    request is sent, nothing is inserted), whatever the node and the event
    loop. *)
Theorem process_serves_cached_batch
        (bitcoind : node) (finished : nat -> nat -> bool)
        (txid_list : list string) (self : DbTxSummary.t) :
  collection_keyed self ->
  (forall txid, In txid txid_list -> cached self txid = true) ->
  exists records,
    DbTxSummary.process bitcoind finished txid_list self = Some (Return records, self)
    /\ (forall txid doc,
           In txid txid_list ->
           dict_get string_dec (DbTxSummary._collection self) txid = Some doc ->
           dict_get string_dec records txid = Some (Some doc))
    /\ (forall txid, ~ In txid txid_list -> dict_get string_dec records txid = None).
Proof.
  intros Hk Hall. unfold DbTxSummary.process.
  fold (txid_to_construct txid_list self).
  assert (Hnone : txid_to_construct txid_list self = []).
  { destruct (txid_to_construct txid_list self) as [|k rest] eqn:E; [reflexivity|].
    assert (Hin : In k (txid_to_construct txid_list self)) by (rewrite E; simpl; auto).
    apply txid_to_construct_In in Hin; [|exact Hk].
    destruct Hin as [Hin Hc]. rewrite (Hall k Hin) in Hc. discriminate. }
  rewrite Hnone. simpl. destruct self as [b coll]. eexists. split; [reflexivity|].
  split.
  - intros txid doc Hin Hget. rewrite cache_snapshot by exact Hk.
    simpl in *. rewrite Hget.
    destruct (in_dec string_dec txid txid_list); [reflexivity | contradiction].
  - intros txid Hout. rewrite cache_snapshot by exact Hk.
    destruct (dict_get string_dec _ txid); [|reflexivity].
    destruct (in_dec string_dec txid txid_list); [contradiction | reflexivity].
Qed.

Lemma process_serves_cached_batch_witness :
  exists records,
    DbTxSummary.process
      (fun _ => Unreachable) (fun _ _ => false) ["spend"; "mint"; "spend"]
      {| DbTxSummary._bitcoind := {| BitcoindClient._request_count := 7 |};
         DbTxSummary._collection :=
           [("mint", {| txid := "mint"; weight := 800;
                        inputs := 1250000000; outputs := 1250000000 |});
            ("spend", {| txid := "spend"; weight := 600;
                         inputs := 1250000000; outputs := 1200000000 |})] |}
    = Some (Return records,
            {| DbTxSummary._bitcoind := {| BitcoindClient._request_count := 7 |};
               DbTxSummary._collection :=
                 [("mint", {| txid := "mint"; weight := 800;
                              inputs := 1250000000; outputs := 1250000000 |});
                  ("spend", {| txid := "spend"; weight := 600;
                               inputs := 1250000000; outputs := 1200000000 |})] |})
    /\ dict_get string_dec records "spend"
       = Some (Some {| txid := "spend"; weight := 600;
                       inputs := 1250000000; outputs := 1200000000 |}).
Proof.
  destruct (@process_serves_cached_batch
              (fun _ => Unreachable) (fun _ _ => false) ["spend"; "mint"; "spend"]
              {| DbTxSummary._bitcoind := {| BitcoindClient._request_count := 7 |};
                 DbTxSummary._collection :=
                   [("mint", {| txid := "mint"; weight := 800;
                                inputs := 1250000000; outputs := 1250000000 |});
                    ("spend", {| txid := "spend"; weight := 600;
                                 inputs := 1250000000; outputs := 1200000000 |})] |})
    as (records & Hrun & Hhit & _).
  - split.
    + unfold dict_wf. simpl. repeat constructor; simpl; intuition discriminate.
    + simpl. intros k doc [E|[E|[]]]; injection E as <- <-; reflexivity.
  - simpl. intros txid [<-|[<-|[<-|[]]]]; reflexivity.
  - exists records. split; [exact Hrun|].
    apply Hhit; [simpl; auto | reflexivity].
Defined.

(** Property X21.  When [process] returns, on a batch that needs at most
    1001 constructions, the mapping has an entry for every id of the batch
    and for no other id.  An entry that is a summary carries its id and is
    in the store afterwards; an entry that is [None] belongs to an id that
    was not stored and that the node reports absent. *)
Theorem process_returns_every_summary
        (bitcoind : node) (finished : nat -> nat -> bool)
        (txid_list : list string) (self self' : DbTxSummary.t)
        (records : DbTxSummary.record_map) :
  collection_keyed self ->
  (List.length (txid_to_construct txid_list self) <= 1001)%nat ->
  DbTxSummary.process bitcoind finished txid_list self = Some (Return records, self') ->
  (forall txid,
      In txid txid_list ->
      match dict_get string_dec records txid with
      | Some (Some doc) =>
          summary_txid doc = txid
          /\ dict_get string_dec (DbTxSummary._collection self') txid = Some doc
          /\ (cached self txid = false ->
              exists tx, node_returns bitcoind txid = Some (Some tx))
      | Some None => cached self txid = false /\ node_returns bitcoind txid = Some None
      | None => False
      end)
  /\ (forall txid, ~ In txid txid_list -> dict_get string_dec records txid = None).
Proof.
  intros Hk Hlen Hrun.
  destruct (@process_runs_constructions bitcoind finished txid_list self Hlen)
    as (r & Hp & Hr).
  rewrite Hp in Hrun. injection Hrun as -> <-.
  destruct (construct_all bitcoind (txid_to_construct txid_list self)
                          (self, DbTxSummary.load_from_cache
                                   (List.length txid_list) self txid_list []))
    as [outcomes [self1 records1]] eqn:Hall.
  simpl in *.
  destruct (forallb returned outcomes) eqn:Hret;
    [|destruct Hr as [e He]; discriminate].
  injection Hr as <-.
  destruct (@construct_all_returned bitcoind _ _ _ _ _ _ Hall Hret)
    as (CA & CB & CC & CD).
  split.
  - intros txid Hin.
    destruct (cached self txid) eqn:Hc.
    + assert (Hout : ~ In txid (txid_to_construct txid_list self)).
      { rewrite txid_to_construct_In by exact Hk. rewrite Hc. intros [_ H].
        discriminate. }
      rewrite (CC txid Hout), cache_snapshot by exact Hk.
      unfold cached, dict_mem in Hc.
      destruct (dict_get string_dec (DbTxSummary._collection self) txid) as [d|] eqn:Hd;
        [|discriminate].
      destruct (in_dec string_dec txid txid_list); [|contradiction].
      split; [|split].
      * destruct Hk as [_ Hkey]. apply Hkey. apply dict_get_In with (1 := Hd).
      * apply CA, Hd.
      * discriminate.
    + assert (Htodo : In txid (txid_to_construct txid_list self)).
      { rewrite txid_to_construct_In by exact Hk. auto. }
      specialize (CD txid Htodo).
      destruct (dict_get string_dec records txid) as [[doc|]|]; [|auto|exact CD].
      destruct CD as (D1 & D2 & D3 & D4). auto.
  - intros txid Hout.
    rewrite CC.
    + rewrite cache_snapshot by exact Hk.
      destruct (dict_get string_dec (DbTxSummary._collection self) txid); [|reflexivity].
      destruct (in_dec string_dec txid txid_list); [contradiction | reflexivity].
    + rewrite txid_to_construct_In by exact Hk. tauto.
Qed.

Lemma process_returns_every_summary_witness :
  cached example_engine "gone" = false
  /\ node_returns example_node "gone" = Some None.
Proof.
  destruct (@process_returns_every_summary
              example_node (fun _ _ => true) ["mint"; "gone"; "spend"]
              example_engine
              {| DbTxSummary._bitcoind := {| BitcoindClient._request_count := 4 |};
                 DbTxSummary._collection :=
                   [("mint", {| txid := "mint"; weight := 800;
                                inputs := 1250000000; outputs := 1250000000 |});
                    ("spend", {| txid := "spend"; weight := 600;
                                 inputs := 1250000000; outputs := 1200000000 |})] |}
              [("mint", Some {| txid := "mint"; weight := 800;
                                inputs := 1250000000; outputs := 1250000000 |});
               ("gone", None);
               ("spend", Some {| txid := "spend"; weight := 600;
                                 inputs := 1250000000; outputs := 1200000000 |})])
    as [H _].
  - split; [constructor | intros k doc []].
  - vm_compute. lia.
  - vm_compute. reflexivity.
  - exact (H "gone" (or_intror (or_introl eq_refl))).
Defined.

(** Property X22.  Whether [process] returns or raises, the store keeps
    one document per id, keeps every document it had, and gains documents
    only for ids of the batch that were not stored and that the node
    has. *)
Theorem process_only_extends_store
        (bitcoind : node) (finished : nat -> nat -> bool)
        (txid_list : list string) (self self' : DbTxSummary.t)
        (r : result DbTxSummary.record_map) :
  collection_keyed self ->
  DbTxSummary.process bitcoind finished txid_list self = Some (r, self') ->
  collection_keyed self'
  /\ (forall k d,
         dict_get string_dec (DbTxSummary._collection self) k = Some d ->
         dict_get string_dec (DbTxSummary._collection self') k = Some d)
  /\ (forall k d,
         dict_get string_dec (DbTxSummary._collection self') k = Some d ->
         cached self k = false ->
         In k txid_list /\ txid d = k
         /\ exists tx, node_returns bitcoind k = Some (Some tx)).
Proof.
  intros Hk. unfold DbTxSummary.process. fold (txid_to_construct txid_list self).
  destruct (DbTxSummary.spawn _ _ _ _ _ _) as [[pending [self1 records1]]|] eqn:Hsp;
    [|discriminate].
  apply spawn_state in Hsp.
  destruct (@construct_all_store
              bitcoind (txid_to_construct txid_list self) self
              (DbTxSummary.load_from_cache (List.length txid_list) self txid_list []))
    as (SK & SA & SN).
  rewrite <- Hsp in *. simpl in *.
  intros Hrun.
  assert (self' = self1) as ->.
  { destruct (DbTxSummary.gather pending); injection Hrun as _ <-; reflexivity. }
  split; [exact (SK Hk) | split; [exact SA|]].
  intros k d Hget Hc.
  destruct (SN k d Hget) as [H0|(Hin & Hid & Htx)].
  - unfold cached, dict_mem in Hc. rewrite H0 in Hc. discriminate.
  - apply txid_to_construct_In in Hin; [|exact Hk]. tauto.
Qed.

Lemma process_only_extends_store_witness :
  collection_keyed
    {| DbTxSummary._bitcoind := {| BitcoindClient._request_count := 2 |};
       DbTxSummary._collection :=
         [("mint", {| txid := "mint"; weight := 800;
                      inputs := 1250000000; outputs := 1250000000 |})] |}.
Proof.
  destruct (@process_only_extends_store
              example_node (fun _ _ => true) ["mint"; "busy"]
              example_engine
              {| DbTxSummary._bitcoind := {| BitcoindClient._request_count := 2 |};
                 DbTxSummary._collection :=
                   [("mint", {| txid := "mint"; weight := 800;
                                inputs := 1250000000; outputs := 1250000000 |})] |}
              (Raise (BitcoindHttpException (-28) "Loading block index")))
    as [H _].
  - split; [constructor | intros k doc []].
  - vm_compute. reflexivity.
  - exact H.
Defined.




(** ** The log of first sightings *)

Lemma update_min_get (self : DbTxLog.t) (txid : string) (timestamp : Z) (k : string) :
  dict_get string_dec (DbTxLog.update_min self txid timestamp) k
  = if string_dec txid k
    then earliest (dict_get string_dec self k) [timestamp]
    else dict_get string_dec self k.
Proof.
  unfold DbTxLog.update_min, earliest. simpl.
  destruct (string_dec txid k) as [<-|N].
  - destruct (dict_get string_dec self txid); apply dict_get_set_same.
  - destruct (dict_get string_dec self txid); apply dict_get_set_other; exact N.
Qed.

Lemma earliest_app (time : option Z) (l1 l2 : list Z) :
  earliest time (l1 ++ l2) = earliest (earliest time l1) l2.
Proof. unfold earliest. apply fold_left_app. Qed.

Lemma insert_bulk_get (list_of_records : list RecordTransactionLog.t) (k : string) :
  forall self : DbTxLog.t,
    dict_get string_dec (DbTxLog.insert_bulk self list_of_records) k
    = earliest (dict_get string_dec self k) (sightings list_of_records k).
Proof.
  induction list_of_records as [|i rest IH]; intros self; [reflexivity|].
  unfold DbTxLog.insert_bulk in *. cbn [fold_left]. rewrite IH, update_min_get.
  unfold sightings. cbn [filter].
  destruct (string_dec (RecordTransactionLog.txid i) k); reflexivity.
Qed.

Lemma earliest_spec (timestamps : list Z) :
  forall time : option Z,
    match earliest time timestamps with
    | Some t =>
        (forall t0, time = Some t0 -> t <= t0)
        /\ (forall x, In x timestamps -> t <= x)
        /\ (time = Some t \/ In t timestamps)
    | None => time = None /\ timestamps = []
    end.
Proof.
  induction timestamps as [|x rest IH]; intros time.
  - simpl. destruct time as [t|]; [|auto].
    repeat split; [intros t0 E; injection E as <-; lia | intros x [] | auto].
  - change (earliest time (x :: rest))
      with (earliest (Some (match time with Some t => Z.min t x | None => x end)) rest).
    specialize (IH (Some (match time with Some t => Z.min t x | None => x end))).
    destruct (earliest _ rest) as [t|]; [|destruct IH as [E _]; discriminate].
    destruct IH as (I1 & I2 & I3).
    assert (Hm := I1 _ eq_refl).
    split; [|split].
    + intros t0 ->. lia.
    + intros y [<-|Hy]; [|auto]. destruct time; lia.
    + destruct I3 as [E|Hin]; [|simpl; auto].
      injection E as E. destruct time as [t0|].
      * destruct (Z.min_spec t0 x) as [[_ Hmin]|[_ Hmin]]; rewrite Hmin in E.
        -- left. congruence.
        -- right. simpl. auto.
      * right. simpl. auto.
Qed.

Lemma earliest_permutation (l1 l2 : list Z) :
  Permutation l1 l2 -> forall time, earliest time l1 = earliest time l2.
Proof.
  induction 1 as [|x l1 l2 _ IH|x y l|l1 l2 l3 _ IH1 _ IH2]; intros time.
  - reflexivity.
  - unfold earliest in *. simpl. apply IH.
  - unfold earliest. simpl. f_equal. f_equal. destruct time; lia.
  - rewrite IH1. apply IH2.
Qed.

Lemma sightings_permutation (l1 l2 : list RecordTransactionLog.t) (k : string) :
  Permutation l1 l2 -> Permutation (sightings l1 k) (sightings l2 k).
Proof.
  intros H. unfold sightings. apply Permutation_map.
  induction H as [|x l1 l2 _ IH|x y l|l1 l2 l3 _ IH1 _ IH2]; simpl.
  - constructor.
  - destruct (string_dec (RecordTransactionLog.txid x) k); [constructor|]; exact IH.
  - destruct (string_dec (RecordTransactionLog.txid x) k);
      destruct (string_dec (RecordTransactionLog.txid y) k);
      try apply Permutation_refl. constructor.
  - eapply Permutation_trans; eassumption.
Qed.

(** Property X24.  [insert_bulk] keeps the earliest sighting: the time
    stored for an id afterwards does not depend on the order of the
    records, is unchanged for an id that no record names, and for an id
    that a record names is the least of the time stored before and the
    timestamps of its records. *)
Theorem insert_bulk_keeps_earliest_sighting
        (self : DbTxLog.t) (list_of_records : list RecordTransactionLog.t)
        (txid : string) :
  (forall reordered,
      Permutation list_of_records reordered ->
      dict_get string_dec (DbTxLog.insert_bulk self reordered) txid
      = dict_get string_dec (DbTxLog.insert_bulk self list_of_records) txid)
  /\ (sightings list_of_records txid = [] ->
      dict_get string_dec (DbTxLog.insert_bulk self list_of_records) txid
      = dict_get string_dec self txid)
  /\ (forall i,
         In i list_of_records -> RecordTransactionLog.txid i = txid ->
         exists time,
           dict_get string_dec (DbTxLog.insert_bulk self list_of_records) txid
           = Some time
           /\ time <= RecordTransactionLog.timestamp i
           /\ (forall stored, dict_get string_dec self txid = Some stored ->
                              time <= stored)
           /\ (dict_get string_dec self txid = Some time
               \/ In time (sightings list_of_records txid))).
Proof.
  split; [|split].
  - intros reordered Hperm. rewrite !insert_bulk_get.
    symmetry. apply earliest_permutation, sightings_permutation, Hperm.
  - intros Hnone. rewrite insert_bulk_get, Hnone. reflexivity.
  - intros i Hin Hid. rewrite insert_bulk_get.
    assert (Hs : In (RecordTransactionLog.timestamp i) (sightings list_of_records txid)).
    { unfold sightings. apply in_map, filter_In. split; [exact Hin|].
      destruct (string_dec (RecordTransactionLog.txid i) txid);
        [reflexivity | contradiction]. }
    assert (H := earliest_spec (sightings list_of_records txid)
                               (dict_get string_dec self txid)).
    destruct (earliest _ _) as [t|].
    + destruct H as (H1 & H2 & H3). exists t. auto.
    + destruct H as [_ E]. rewrite E in Hs. destruct Hs.
Qed.

Lemma insert_bulk_keeps_earliest_sighting_witness :
  exists time,
    dict_get string_dec
             (DbTxLog.insert_bulk
                [("a", 100)]
                [{| RecordTransactionLog.txid := "a";
                    RecordTransactionLog.timestamp := 130 |};
                 {| RecordTransactionLog.txid := "b";
                    RecordTransactionLog.timestamp := 120 |};
                 {| RecordTransactionLog.txid := "b";
                    RecordTransactionLog.timestamp := 110 |}]) "b"
    = Some time
    /\ time <= 110.
Proof.
  destruct (@insert_bulk_keeps_earliest_sighting
              [("a", 100)]
              [{| RecordTransactionLog.txid := "a";
                  RecordTransactionLog.timestamp := 130 |};
               {| RecordTransactionLog.txid := "b";
                  RecordTransactionLog.timestamp := 120 |};
               {| RecordTransactionLog.txid := "b";
                  RecordTransactionLog.timestamp := 110 |}] "b") as (_ & _ & H).
  destruct (H {| RecordTransactionLog.txid := "b";
                 RecordTransactionLog.timestamp := 110 |})
    as (time & Hget & Hle & _).
  - simpl. auto.
  - reflexivity.
  - exists time. split; [exact Hget | exact Hle].
Defined.

Lemma filter_filter_implied (A : Type) (f g : A -> bool) (l : list A) :
  (forall x, f x = true -> g x = true) ->
  filter f (filter g l) = filter f l.
Proof.
  intros H. induction l as [|x l IH]; simpl; [reflexivity|].
  destruct (g x) eqn:Hg; simpl.
  - rewrite IH. reflexivity.
  - destruct (f x) eqn:Hf; [|exact IH]. rewrite (H x Hf) in Hg. discriminate.
Qed.

(** Property X25.  [trim(max_age_seconds)] keeps exactly the documents not
    older than its threshold and returns the number it removed; a later
    [fetch(max_age)] with [max_age <= max_age_seconds] reads the same
    records as without the trim.  The age [main] trims with covers the
    sampling span of every target window. *)
Theorem trim_spares_what_fetch_reads
        (self : DbTxLog.t) (now later max_age_seconds max_age : Z) :
  now <= later ->
  max_age <= max_age_seconds ->
  DbTxLog.fetch later (snd (DbTxLog.trim now self max_age_seconds)) max_age
  = DbTxLog.fetch later self max_age
  /\ fst (DbTxLog.trim now self max_age_seconds)
     = Z.of_nat (List.length self)
       - Z.of_nat (List.length (snd (DbTxLog.trim now self max_age_seconds)))
  /\ (forall k time,
         In (k, time) (snd (DbTxLog.trim now self max_age_seconds))
         <-> In (k, time) self /\ now - max_age_seconds <= time)
  /\ (forall minutes,
         In minutes constants.TARGETS_MINUTE ->
         minutes * 60 * constants.FLOW_TIMESPAN_MULTIPLIER
         <= main_compute.max_age_seconds).
Proof.
  intros Hnow Hage. unfold DbTxLog.fetch, DbTxLog.trim. simpl.
  split; [|split; [|split]].
  - f_equal. apply filter_filter_implied. intros [k time]. simpl. intros H.
    apply negb_true_iff, Z.ltb_ge. apply Z.geb_le in H. lia.
  - assert (H := filter_length (fun doc : string * Z => snd doc <? now - max_age_seconds)
                               self).
    lia.
  - intros k time. rewrite filter_In. simpl. rewrite negb_true_iff, Z.ltb_ge.
    tauto.
  - intros minutes Hin. unfold constants.TARGETS_MINUTE in Hin. simpl in Hin.
    repeat (destruct Hin as [<-|Hin]; [apply Z.leb_le; vm_compute; reflexivity|]).
    destruct Hin.
Qed.

Lemma trim_spares_what_fetch_reads_witness :
  DbTxLog.fetch 1000 (snd (DbTxLog.trim 990 [("a", 100); ("b", 700); ("c", 950)] 400))
                200
  = DbTxLog.fetch 1000 [("a", 100); ("b", 700); ("c", 950)] 200.
Proof.
  destruct (@trim_spares_what_fetch_reads
              [("a", 100); ("b", 700); ("c", 950)] 990 1000 400 200) as [H _].
  - lia.
  - lia.
  - exact H.
Defined.

(** ** Buckets of a list of transactions *)

Lemma add_weights_spec (summaries : DbTxSummary.record_map) (list_txid : list string) :
  (forall txid tx_summary,
      In txid list_txid ->
      dict_get string_dec summaries txid = Some (Some tx_summary) ->
      weight tx_summary <> 0) ->
  forall output,
    FeeBuckets.valid output ->
    exists output',
      main_compute.add_weights list_txid summaries output = Value output'
      /\ FeeBuckets.valid output'
      /\ forall fee_rate,
          Qeq (FeeBuckets.__getitem__ output' fee_rate)
              (Qplus (FeeBuckets.__getitem__ output fee_rate)
                     (inject_Z (weight_at summaries list_txid fee_rate))).
Proof.
  induction list_txid as [|txid rest IH]; intros Hw output Hvalid.
  - exists output. simpl. repeat split; try apply Hvalid.
    intros fee_rate. unfold inject_Z. ring.
  - cbn [main_compute.add_weights weight_at].
    assert (Hrest : forall txid tx_summary,
               In txid rest ->
               dict_get string_dec summaries txid = Some (Some tx_summary) ->
               weight tx_summary <> 0) by (intros; eapply Hw; simpl; eauto).
    destruct (dict_get string_dec summaries txid) as [[tx_summary|]|] eqn:Hget;
      [|apply IH; assumption..].
    assert (Hnz := Hw txid tx_summary (or_introl eq_refl) Hget).
    unfold to_fee_rate. destruct (Z.eqb_spec (weight tx_summary) 0) as [E|_];
      [contradiction|].
    set (fee_rate0 := Z.quot (4 * (inputs tx_summary - outputs tx_summary))
                             (weight tx_summary)).
    destruct (@iadd_succeeds output fee_rate0 (inject_Z (weight tx_summary)))
      as [output1 Hadd].
    { unfold inject_Z, Qeq. simpl. lia. }
    rewrite Hadd.
    assert (Hvalid1 : FeeBuckets.valid output1).
    { unfold FeeBuckets.__iadd__ in Hadd. eapply setitem_valid; eauto. }
    destruct (IH Hrest output1 Hvalid1) as (output' & Hrun & Hv & Hsum).
    exists output'. split; [exact Hrun | split; [exact Hv|]].
    intros fee_rate. rewrite Hsum.
    rewrite (@getitem_iadd output fee_rate0 _ output1 fee_rate (proj1 Hvalid) Hadd).
    destruct (Z.eq_dec (FeeBuckets._normalize fee_rate) (FeeBuckets._normalize fee_rate0)).
    + rewrite inject_Z_plus. ring.
    + ring.
Qed.

(** Property X26.  When the summaries are obtained and no summary has
    weight 0, [make_feebuckets_from_txids] returns a bucket satisfying the
    class invariant in which every fee rate reads the total weight of the
    listed transactions whose fee rate is normalised to it, an id counting
    as often as it is listed. *)
Theorem make_feebuckets_from_txids_weights
        (bitcoind : node) (finished : nat -> nat -> bool)
        (list_txid : list string) (db_summaries db_summaries' : DbTxSummary.t)
        (summaries : DbTxSummary.record_map) :
  DbTxSummary.process bitcoind finished list_txid db_summaries
  = Some (Return summaries, db_summaries') ->
  (forall txid tx_summary,
      In txid list_txid ->
      dict_get string_dec summaries txid = Some (Some tx_summary) ->
      weight tx_summary <> 0) ->
  exists output,
    main_compute.make_feebuckets_from_txids bitcoind finished list_txid db_summaries
    = Some (Value output, db_summaries')
    /\ FeeBuckets.valid output
    /\ forall fee_rate,
        Qeq (FeeBuckets.__getitem__ output fee_rate)
            (inject_Z (weight_at summaries list_txid fee_rate)).
Proof.
  intros Hrun Hw. unfold main_compute.make_feebuckets_from_txids. rewrite Hrun.
  destruct (@add_weights_spec summaries list_txid Hw FeeBuckets.__init__)
    as (output & Hadd & Hv & Hsum).
  - repeat split; constructor.
  - exists output. rewrite Hadd. split; [reflexivity | split; [exact Hv|]].
    intros fee_rate. rewrite Hsum. unfold FeeBuckets.__getitem__. simpl. ring.
Qed.

Lemma make_feebuckets_from_txids_weights_witness :
  exists output,
    main_compute.make_feebuckets_from_txids
      example_node (fun _ _ => true) ["mint"; "gone"; "spend"] example_engine
    = Some (Value output,
            {| DbTxSummary._bitcoind := {| BitcoindClient._request_count := 4 |};
               DbTxSummary._collection :=
                 [("mint", {| txid := "mint"; weight := 800;
                              inputs := 1250000000; outputs := 1250000000 |});
                  ("spend", {| txid := "spend"; weight := 600;
                               inputs := 1250000000; outputs := 1200000000 |})] |})
    /\ Qeq (FeeBuckets.__getitem__ output 10000) (inject_Z 600)
    /\ Qeq (FeeBuckets.__getitem__ output 1) (inject_Z 800).
Proof.
  destruct (@make_feebuckets_from_txids_weights
              example_node (fun _ _ => true) ["mint"; "gone"; "spend"] example_engine
              {| DbTxSummary._bitcoind := {| BitcoindClient._request_count := 4 |};
                 DbTxSummary._collection :=
                   [("mint", {| txid := "mint"; weight := 800;
                                inputs := 1250000000; outputs := 1250000000 |});
                    ("spend", {| txid := "spend"; weight := 600;
                                 inputs := 1250000000; outputs := 1200000000 |})] |}
              [("mint", Some {| txid := "mint"; weight := 800;
                                inputs := 1250000000; outputs := 1250000000 |});
               ("gone", None);
               ("spend", Some {| txid := "spend"; weight := 600;
                                 inputs := 1250000000; outputs := 1200000000 |})])
    as (output & Hrun & _ & Hsum).
  - vm_compute. reflexivity.
  - intros txid tx_summary [<-|[<-|[<-|[]]]] E; vm_compute in E;
      try discriminate; injection E as <-; simpl; lia.
  - exists output. split; [exact Hrun|]. split; apply Hsum.
Defined.
